(** * The text sentiment classifier of x-analysis

    A shallow embedding of [scripts/processing/sentiment_analyzer.py]
    (class [SentimentAnalyzer]) and of the inline Spark UDF of
    [scripts/processing/spark_processor.py], with the properties of the
    cleaning step, of the labelling rule and of the batch variant.  A
    second part embeds the methods of [SparkProcessor] on the rows of a
    frame and the control flow of [SentimentAnalysisPipeline.process_data]
    of [main.py].

    Python values are modelled as follows.
    - A [str] is the list of its code points ([N]).
    - [re.sub] runs a small backtracking matcher over the fragment of the
      [re] syntax the two patterns use.
    - A [float] is an IEEE 754 binary64 value, as [spec_float].
    - [try ... except Exception] is a match on the outcome of the guarded
      computation; [self.logger] writes to an explicit list of records. *)

From Stdlib Require Import List NArith ZArith Bool Lia String Ascii.
From Stdlib Require Import Floats.SpecFloat DecimalString.
Import ListNotations.

(** ** Python strings *)

Definition char := N.
Definition str := list char.

(** A string literal of the source, as the list of its code points. *)
Definition py (s : string) : str :=
  map N_of_ascii (list_ascii_of_string s).

(** [Py_UNICODE_ISSPACE]: the predicate behind [\s] of [re] (on [str]
    patterns), behind [str.split()] without separator and behind
    [str.strip()] without argument. *)
Definition Py_UNICODE_ISSPACE (c : char) : bool :=
  ((9 <=? c) && (c <=? 13)          (* \t \n \v \f \r *)
   || (28 <=? c) && (c <=? 32)      (* FS GS RS US and the space *)
   || (c =? 133) || (c =? 160)      (* NEL, no-break space *)
   || (c =? 5760)
   || (8192 <=? c) && (c <=? 8202)
   || (c =? 8232) || (c =? 8233) || (c =? 8239) || (c =? 8287)
   || (c =? 12288))%N.

(** The ASCII part of [Py_UNICODE_ISALNUM]: digits and letters. *)
Definition ascii_isalnum (c : char) : bool :=
  ((48 <=? c) && (c <=? 57)
   || (65 <=? c) && (c <=? 90)
   || (97 <=? c) && (c <=? 122))%N.

(** ** The fragment of [re] used by the cleaner *)

Inductive regex : Type :=
| Chr (c : char)                 (* a literal character *)
| Seq (r1 r2 : regex)            (* r1 r2 *)
| Alt (r1 r2 : regex)            (* r1|r2, the left branch tried first *)
| Rep1 (p : char -> bool).       (* class+, greedy, for \S+ and \w+ *)

(** The matcher is the backtracking one of [re]: [k] is what remains to be
    matched after the current node, and the result is the number of
    characters consumed from [s] by the node and by [k].  A repetition
    takes as many characters as it can and gives them back one by one
    while [k] fails. *)
Fixpoint rep1 (p : char -> bool) (k : str -> option nat) (s : str)
  : option nat :=
  match s with
  | [] => None
  | c :: s' =>
      if p c then
        match rep1 p k s' with
        | Some n => Some (S n)
        | None => option_map S (k s')
        end
      else None
  end.

Fixpoint run (r : regex) (k : str -> option nat) (s : str) : option nat :=
  match r with
  | Chr c =>
      match s with
      | x :: s' => if (x =? c)%N then option_map S (k s') else None
      | [] => None
      end
  | Seq r1 r2 => run r1 (run r2 k) s
  | Alt r1 r2 =>
      match run r1 k s with
      | Some n => Some n
      | None => run r2 k s
      end
  | Rep1 p => rep1 p k s
  end.

(** [pattern.match(s)]: the length of the match at the start of [s]. *)
Definition match_at (r : regex) (s : str) : option nat :=
  run r (fun _ => Some 0) s.

(** The strings a pattern matches in full ([pattern.fullmatch]). *)
Inductive matches : regex -> str -> Prop :=
| matches_chr c : matches (Chr c) [c]
| matches_seq r1 r2 s1 s2 :
    matches r1 s1 -> matches r2 s2 -> matches (Seq r1 r2) (s1 ++ s2)
| matches_alt_l r1 r2 s : matches r1 s -> matches (Alt r1 r2) s
| matches_alt_r r1 r2 s : matches r2 s -> matches (Alt r1 r2) s
| matches_rep1 (p : char -> bool) s :
    s <> [] -> forallb p s = true -> matches (Rep1 p) s.

(** Dropping from [s] the substrings found by [find], which gives the
    length of the substring that starts a string, if one does.  They are
    taken from left to right and do not overlap; [skip] counts the
    characters of the current one still to drop.  An empty one drops
    nothing. *)
Fixpoint drop_matches (find : str -> option nat) (skip : nat) (s : str)
  : str :=
  match s with
  | [] => []
  | c :: s' =>
      match skip with
      | S n => drop_matches find n s'
      | O =>
          match find s with
          | Some (S n) => drop_matches find n s'
          | _ => c :: drop_matches find 0 s'
          end
      end
  end.

(** [re.sub(pattern, '', text)]. *)
Definition re_sub_empty (r : regex) (text : str) : str :=
  drop_matches (match_at r) 0 text.

(** Whether a substring found by [find] starts somewhere in [s]. *)
Fixpoint occurs (find : str -> option nat) (s : str) : bool :=
  match find s with
  | Some _ => true
  | None => match s with [] => false | _ :: s' => occurs find s' end
  end.

(** [re.search(pattern, s) is not None]. *)
Definition re_search (r : regex) (s : str) : bool :=
  occurs (match_at r) s.

(** A literal word of a pattern. *)
Fixpoint lit_then (w : str) (r : regex) : regex :=
  match w with
  | [] => r
  | c :: w' => Seq (Chr c) (lit_then w' r)
  end.

(** ** [str.split()], [str.join] and [str.strip()] *)

(** Whether a token ends here: at the end of the string or before a
    whitespace character. *)
Definition at_break (s : str) : bool :=
  match s with
  | [] => true
  | d :: _ => Py_UNICODE_ISSPACE d
  end.

(** [s.split()]: the maximal runs of non-whitespace characters. *)
Fixpoint split (s : str) : list str :=
  match s with
  | [] => []
  | c :: s' =>
      let rest := split s' in
      if Py_UNICODE_ISSPACE c then rest
      else if at_break s' then [c] :: rest
      else
        match rest with
        | t :: ts => (c :: t) :: ts
        | [] => [[c]]
        end
  end.

(** [sep.join(l)]. *)
Fixpoint join (sep : str) (l : list str) : str :=
  match l with
  | [] => []
  | [x] => x
  | x :: l' => x ++ sep ++ join sep l'
  end.

Fixpoint lstrip (s : str) : str :=
  match s with
  | [] => []
  | c :: s' => if Py_UNICODE_ISSPACE c then lstrip s' else s
  end.

Definition rstrip (s : str) : str := rev (lstrip (rev s)).

(** [s.strip()]. *)
Definition strip (s : str) : str := rstrip (lstrip s).

(** ** [SentimentAnalyzer.clean_text] *)

Section Cleaner.

(** The alphanumeric property of the Unicode database outside ASCII
    ([Py_UNICODE_ISALNUM] on code points from 128 on): a table of the
    interpreter, not of this repository. *)
Variable unicode_isalnum : char -> bool.

(** [\w] on [str] patterns: alphanumeric or the underscore. *)
Definition is_word (c : char) : bool :=
  if (c <? 128)%N then ascii_isalnum c || (c =? 95)%N
  else unicode_isalnum c.

(** [\S]. *)
Definition non_space (c : char) : bool := negb (Py_UNICODE_ISSPACE c).

(** [r'http\S+|www\S+|https\S+'] *)
Definition url_pattern : regex :=
  Alt (lit_then (py "http") (Rep1 non_space))
      (Alt (lit_then (py "www") (Rep1 non_space))
           (lit_then (py "https") (Rep1 non_space))).

(** [r'@\w+|#\w+'] *)
Definition tag_pattern : regex :=
  Alt (lit_then (py "@") (Rep1 is_word))
      (lit_then (py "#") (Rep1 is_word)).

(** [[
    def clean_text(self, text: str) -> str:
        text = re.sub(r'http\S+|www\S+|https\S+', '', text,
                      flags=re.MULTILINE)
        text = re.sub(r'@\w+|#\w+', '', text)
        text = ' '.join(text.split())
        return text.strip()
    ]]
    [re.MULTILINE] only changes [^] and [$], which the pattern lacks. *)
Definition clean_text (text : str) : str :=
  let text := re_sub_empty url_pattern text in
  let text := re_sub_empty tag_pattern text in
  let text := join (py " ") (split text) in
  strip text.

End Cleaner.

(** [s.startswith(w)] and [sub in s]. *)
Fixpoint starts_with (w s : str) : bool :=
  match w, s with
  | [], _ => true
  | a :: w', b :: s' => (a =? b)%N && starts_with w' s'
  | _ :: _, [] => false
  end.

Fixpoint contains (sub s : str) : bool :=
  starts_with sub s ||
  match s with
  | [] => false
  | _ :: s' => contains sub s'
  end.

(** ** Floats *)

Definition float := spec_float.

(** The literal [0.1]: the binary64 value nearest to one tenth,
    0x3FB999999999999A. *)
Definition f0_1 : float := S754_finite false 7205759403792794 (-56).

(** The literal [0.0]. *)
Definition f0_0 : float := S754_zero false.

(** [x > y], [x < y], [x <= y], [-x], [abs(x)] and [float(x)] on floats. *)
Definition py_gt (x y : float) : bool := SFltb y x.
Definition py_lt (x y : float) : bool := SFltb x y.
Definition py_le (x y : float) : bool := SFleb x y.
Definition py_neg (x : float) : float := SFopp x.
Definition py_abs (x : float) : float := SFabs x.
Definition py_float (x : float) : float := x.

(** ** Exceptions, the logger and the analyzer object *)

(** The outcome of a computation: a value, or an exception (an instance of
    [Exception]) with its message [str(e)]. *)
Inductive outcome (A : Type) : Type :=
| Returns (a : A)
| Raises (e : str).

Arguments Returns {A} a.
Arguments Raises {A} e.

Inductive Level : Type := INFO | ERROR.

Record LogRecord : Type := {
  name : str;
  levelname : Level;
  message : str
}.

(** [self]: [setup_logging] stores the module's logger in [self.logger]. *)
Record SentimentAnalyzer : Type := {
  logger : str
}.

(** What a method can read and change: the analyzer object and the records
    handed to the logging system so far. *)
Record World : Type := {
  self : SentimentAnalyzer;
  handled : list LogRecord
}.

Definition M (A : Type) : Type := World -> outcome A * World.

Definition ret {A} (a : A) : M A := fun w => (Returns a, w).

Definition bind {A B} (c : M A) (k : A -> M B) : M B :=
  fun w =>
    match c w with
    | (Returns a, w') => k a w'
    | (Raises e, w') => (Raises e, w')
    end.

Definition lift {A} (o : outcome A) : M A := fun w => (o, w).

(** [try: body except Exception as e: handler(e)]. *)
Definition try_except {A} (body : M A) (handler : str -> M A) : M A :=
  fun w =>
    match body w with
    | (Returns a, w') => (Returns a, w')
    | (Raises e, w') => handler e w'
    end.

Declare Scope py_scope.
Delimit Scope py_scope with py.
Notation "x <- c ;; k" := (bind c (fun x => k))
  (at level 61, c at next level, right associativity) : py_scope.
Notation "c ;;; k" := (bind c (fun _ => k))
  (at level 61, right associativity) : py_scope.

(** [self.logger.error(msg)] and [self.logger.info(msg)]; the level of the
    logging system is [INFO], so both records are handled. *)
Definition log_record (lvl : Level) (msg : str) : M unit :=
  fun w =>
    (Returns tt,
     {| self := self w;
        handled := handled w ++
          [{| name := logger (self w); levelname := lvl; message := msg |}]
     |}).

Definition logger_error (msg : str) : M unit := log_record ERROR msg.
Definition logger_info (msg : str) : M unit := log_record INFO msg.

(** [str(n)] for a length. *)
Definition str_of_nat (n : nat) : str :=
  py (NilEmpty.string_of_uint (Nat.to_uint n)).

(** ** [SentimentAnalyzer.analyze_sentiment] and [batch_analyze] *)

(** The dict returned by [analyze_sentiment], by key. *)
Record SentimentResult : Type := {
  cleaned_text : str;
  polarity : float;
  subjectivity : float;
  sentiment_label : str;
  confidence : float
}.

(** A row of [tweets_df]: its [text] column and its other columns. *)
Record TextRecord : Type := {
  text : str;
  other_columns : list (str * str)
}.

(** [pd.concat([a, b], axis=1)] on two frames indexed from 0: row [i] of
    the result has the columns of row [i] of [a] and of row [i] of [b]; a
    frame that has no row [i] leaves its columns missing there. *)
Fixpoint concat_axis1 {A B} (a : list A) (b : list B)
  : list (option A * option B) :=
  match a with
  | [] => map (fun y => (None, Some y)) b
  | x :: a' =>
      match b with
      | [] => (Some x, None) :: concat_axis1 a' []
      | y :: b' => (Some x, Some y) :: concat_axis1 a' b'
      end
  end.

Section Classifier.

Variable unicode_isalnum : char -> bool.

(** [TextBlob(s).sentiment]: the polarity and the subjectivity of [s], or
    the exception the scorer raises on it. *)
Variable TextBlob_sentiment : str -> outcome (float * float).

Local Open Scope py_scope.

(** [[
    def analyze_sentiment(self, text: str) -> Dict:
        try:
            cleaned_text = self.clean_text(text)
            blob = TextBlob(cleaned_text)
            polarity = blob.sentiment.polarity
            subjectivity = blob.sentiment.subjectivity
            if polarity > 0.1:
                sentiment_label = 'positive'
            elif polarity < -0.1:
                sentiment_label = 'negative'
            else:
                sentiment_label = 'neutral'
            return {'cleaned_text': cleaned_text, 'polarity': polarity,
                    'subjectivity': subjectivity,
                    'sentiment_label': sentiment_label,
                    'confidence': abs(polarity)}
        except Exception as e:
            self.logger.error(f"Error analyzing sentiment: {e}")
            return {'cleaned_text': text, 'polarity': 0.0,
                    'subjectivity': 0.0, 'sentiment_label': 'neutral',
                    'confidence': 0.0}
    ]] *)
Definition analyze_sentiment (text : str) : M SentimentResult :=
  try_except
    (let cleaned_text := clean_text unicode_isalnum text in
     sentiment <- lift (TextBlob_sentiment cleaned_text) ;;
     let polarity := fst sentiment in
     let subjectivity := snd sentiment in
     let sentiment_label :=
       if py_gt polarity f0_1 then py "positive"
       else if py_lt polarity (py_neg f0_1) then py "negative"
       else py "neutral" in
     ret {| cleaned_text := cleaned_text;
            polarity := polarity;
            subjectivity := subjectivity;
            sentiment_label := sentiment_label;
            confidence := py_abs polarity |})
    (fun e =>
       logger_error (py "Error analyzing sentiment: " ++ e) ;;;
       ret {| cleaned_text := text;
              polarity := f0_0;
              subjectivity := f0_0;
              sentiment_label := py "neutral";
              confidence := f0_0 |}).

(** The loop of [batch_analyze]: [[
        for _, tweet in tweets_df.iterrows():
            sentiment = self.analyze_sentiment(tweet['text'])
            sentiment_results.append(sentiment)
    ]] *)
Fixpoint iterrows_loop (rows : list TextRecord)
  (sentiment_results : list SentimentResult) : M (list SentimentResult) :=
  match rows with
  | [] => ret sentiment_results
  | tweet :: rows' =>
      sentiment <- analyze_sentiment (text tweet) ;;
      iterrows_loop rows' (sentiment_results ++ [sentiment])
  end.

(** [[
    def batch_analyze(self, tweets_df):
        sentiment_results = []
        for ...
        sentiment_df = pd.DataFrame(sentiment_results)
        result_df = pd.concat([tweets_df.reset_index(drop=True),
                               sentiment_df], axis=1)
        self.logger.info(f"Analyzed sentiment for {len(result_df)} tweets")
        return result_df
    ]] *)
Definition batch_analyze (tweets_df : list TextRecord)
  : M (list (option TextRecord * option SentimentResult)) :=
  sentiment_results <- iterrows_loop tweets_df [] ;;
  let sentiment_df := sentiment_results in
  let result_df := concat_axis1 tweets_df sentiment_df in
  logger_info (py "Analyzed sentiment for "
               ++ str_of_nat (List.length result_df) ++ py " tweets") ;;;
  ret result_df.

(** ** The UDF of [SparkProcessor.add_sentiment_analysis] *)

(** [abs] as [spark_processor.py] binds it.  The module starts with
    [[
    from pyspark.sql import SparkSession
    from pyspark.sql.functions import *
    ]]
    so that, in that file, [abs] is [pyspark.sql.functions.abs] and not the
    builtin: it takes a column or the name of a column, and raises on a
    [float]. *)
Definition functions_abs (x : float) : outcome float :=
  Raises (py "Invalid argument, not a string or column").

(** [[
    def analyze_sentiment_udf(text):
        try:
            cleaned = re.sub(r'http\S+|www\S+|https\S+', '', text,
                             flags=re.MULTILINE)
            cleaned = re.sub(r'@\w+|#\w+', '', cleaned)
            cleaned = ' '.join(cleaned.split()).strip()
            blob = TextBlob(cleaned)
            polarity = float(blob.sentiment.polarity)
            subjectivity = float(blob.sentiment.subjectivity)
            if polarity > 0.1: ... elif polarity < -0.1: ... else: ...
            return (polarity, subjectivity, sentiment_label, abs(polarity))
        except:
            return (0.0, 0.0, 'neutral', 0.0)
    ]] *)
Definition analyze_sentiment_udf (text : str)
  : outcome (float * float * str * float) :=
  let body :=
    let cleaned := re_sub_empty url_pattern text in
    let cleaned := re_sub_empty (tag_pattern unicode_isalnum) cleaned in
    let cleaned := strip (join (py " ") (split cleaned)) in
    match TextBlob_sentiment cleaned with
    | Raises e => Raises e
    | Returns sentiment =>
        let polarity := py_float (fst sentiment) in
        let subjectivity := py_float (snd sentiment) in
        let sentiment_label :=
          if py_gt polarity f0_1 then py "positive"
          else if py_lt polarity (py_neg f0_1) then py "negative"
          else py "neutral" in
        match functions_abs polarity with
        | Raises e => Raises e
        | Returns confidence =>
            Returns (polarity, subjectivity, sentiment_label, confidence)
        end
    end in
  match body with
  | Returns t => Returns t
  | Raises _ => Returns (f0_0, f0_0, py "neutral", f0_0)
  end.

End Classifier.

(** ** The cleaning step as the specification words it

    Step 1 removes the substrings made of [http], [www] or [https] and the
    run of non-whitespace characters that follows (one at least), wherever
    they start; step 2 removes [@] or [#] and the run of word characters
    that follows (one at least); step 3 turns every run of whitespace into
    one space and trims both ends. *)

(** The rest of [s] after the word [w], when [s] starts with it. *)
Fixpoint strip_prefix (w s : str) : option str :=
  match w, s with
  | [], _ => Some s
  | a :: w', b :: s' => if (b =? a)%N then strip_prefix w' s' else None
  | _ :: _, [] => None
  end.

Fixpoint take_while (p : char -> bool) (s : str) : str :=
  match s with
  | [] => []
  | c :: s' => if p c then c :: take_while p s' else []
  end.

(** The length of the substring made of [w] and of the longest run of
    characters of [p] after it, when [s] starts with [w] and the run is not
    empty. *)
Definition word_then_run (w : str) (p : char -> bool) (s : str)
  : option nat :=
  match strip_prefix w s with
  | Some (c :: t) =>
      if p c then Some (List.length w + List.length (take_while p (c :: t)))
      else None
  | _ => None
  end.

Definition first_of (f g : str -> option nat) (s : str) : option nat :=
  match f s with
  | Some n => Some n
  | None => g s
  end.

Definition spec_url_at : str -> option nat :=
  first_of (word_then_run (py "http") non_space)
    (first_of (word_then_run (py "www") non_space)
       (word_then_run (py "https") non_space)).

Definition spec_tag_at (unicode_isalnum : char -> bool)
  : str -> option nat :=
  first_of (word_then_run (py "@") (is_word unicode_isalnum))
    (word_then_run (py "#") (is_word unicode_isalnum)).

(** Removing every substring found by [find], from left to right; [fuel]
    bounds the number of steps. *)
Fixpoint remove_all (find : str -> option nat) (fuel : nat) (s : str)
  : str :=
  match fuel with
  | O => s
  | S fuel' =>
      match find s with
      | Some (S n) => remove_all find fuel' (skipn (S n) s)
      | _ =>
          match s with
          | [] => []
          | c :: s' => c :: remove_all find fuel' s'
          end
      end
  end.

Definition spec_remove (find : str -> option nat) (s : str) : str :=
  remove_all find (List.length s) s.

(** One space for each maximal run of whitespace: the space is written at
    the last character of the run. *)
Fixpoint spec_collapse (s : str) : str :=
  match s with
  | [] => []
  | c :: s' =>
      if Py_UNICODE_ISSPACE c then
        match s' with
        | d :: _ => if Py_UNICODE_ISSPACE d then spec_collapse s'
                    else 32%N :: spec_collapse s'
        | [] => [32%N]
        end
      else c :: spec_collapse s'
  end.

Fixpoint trim_end (s : str) : str :=
  match s with
  | [] => []
  | c :: s' =>
      match trim_end s' with
      | [] => if Py_UNICODE_ISSPACE c then [] else [c]
      | r => c :: r
      end
  end.

Definition spec_trim (s : str) : str := trim_end (lstrip s).

Definition spec_clean (unicode_isalnum : char -> bool) (s : str) : str :=
  spec_trim
    (spec_collapse
       (spec_remove (spec_tag_at unicode_isalnum)
          (spec_remove spec_url_at s))).

(** ** Auxiliary definitions of the proofs *)

(** [' '.join(s.split())] by direct recursion on [s]. *)
Fixpoint squeeze (s : str) : str :=
  match s with
  | [] => []
  | c :: s' =>
      if Py_UNICODE_ISSPACE c then squeeze s'
      else if at_break s' then
        match squeeze s' with
        | [] => [c]
        | r => c :: 32%N :: r
        end
      else c :: squeeze s'
  end.

(** Where a run of characters of [p] ends: at the end of the string or
    before a character that is not of [p]. *)
Definition run_ends (p : char -> bool) (s : str) : bool :=
  match s with
  | [] => true
  | d :: _ => negb (p d)
  end.

Definition at_nonword (unicode_isalnum : char -> bool) (s : str) : bool :=
  run_ends (is_word unicode_isalnum) s.

(** A finder is local to a window of characters of [ok]: whenever it finds
    a substring at the start of [s], a prefix of [s] made of such
    characters is enough for it to find one. *)
Definition window_local (ok : char -> bool) (find : str -> option nat)
  : Prop :=
  forall s n, find s = Some n ->
  exists x r,
    s = x ++ r /\ forallb ok x = true /\
    forall r', find (x ++ r') <> None.

Definition not_space_char (c : char) : bool := negb (c =? 32)%N.

(** Whether a string is whitespace-normalized: no whitespace at either
    end, and every whitespace character is a space that stands alone. *)
Fixpoint single_spaced (s : str) : bool :=
  match s with
  | [] => true
  | c :: s' =>
      (if Py_UNICODE_ISSPACE c then (c =? 32)%N && negb (at_break s')
       else true)
      && single_spaced s'
  end.

Definition normalized (s : str) : bool :=
  negb (match s with [] => false | c :: _ => Py_UNICODE_ISSPACE c end)
  && single_spaced s.

(** The dict of the [try] branch of [analyze_sentiment] for a polarity and
    a subjectivity, and the dict of its [except] branch. *)
Definition scored (unicode_isalnum : char -> bool) (text : str)
  (p sub : float) : SentimentResult :=
  {| cleaned_text := clean_text unicode_isalnum text;
     polarity := p;
     subjectivity := sub;
     sentiment_label :=
       if py_gt p f0_1 then py "positive"
       else if py_lt p (py_neg f0_1) then py "negative"
       else py "neutral";
     confidence := py_abs p |}.

Definition neutral_default (text : str) : SentimentResult :=
  {| cleaned_text := text;
     polarity := f0_0;
     subjectivity := f0_0;
     sentiment_label := py "neutral";
     confidence := f0_0 |}.

(** ** Instances used to run the definitions *)

(** A Unicode table with no alphanumeric character outside ASCII. *)
Definition ascii_only : char -> bool := fun _ => false.

(** The literal [0.5]. *)
Definition f0_5 : float := S754_finite false 4503599627370496 (-53).

(** A scorer over a two-word lexicon: [good] scores 0.5, [bad] scores -0.5,
    any other text scores 0.0; it fails on the empty text. *)
Definition lexicon_scorer (s : str) : outcome (float * float) :=
  match s with
  | [] => Raises (py "empty text")
  | _ =>
      if contains (py "good") s then Returns (f0_5, f0_5)
      else if contains (py "bad") s then Returns (py_neg f0_5, f0_5)
      else Returns (f0_0, f0_0)
  end.

Definition fresh_world : World :=
  {| self := {| logger := py "scripts.processing.sentiment_analyzer" |};
     handled := [] |}.

(** A frame of three tweets; the second one cleans to the empty text. *)
Definition tweet_good : TextRecord :=
  {| text := py "a good day"; other_columns := [(py "id", py "1")] |}.
Definition tweet_tag : TextRecord :=
  {| text := py " @x "; other_columns := [(py "id", py "2")] |}.
Definition tweet_bad : TextRecord :=
  {| text := py "a bad day www.bad.org";
     other_columns := [(py "id", py "3")] |}.
Definition three_tweets : list TextRecord :=
  [tweet_good; tweet_tag; tweet_bad].

(** ** Further notions for the properties of the cleaner *)

(** [bool(x)] for a string: whether it is not empty. *)
Definition nonempty (x : str) : bool :=
  match x with
  | [] => false
  | _ :: _ => true
  end.

(** [x] is [s] with some characters left out, the others in their order. *)
Inductive subseq : str -> str -> Prop :=
| subseq_nil : subseq [] []
| subseq_skip c x s : subseq x s -> subseq x (c :: s)
| subseq_keep c x s : subseq x s -> subseq (c :: x) (c :: s).

(** ** Further notions for the properties of the classifier *)

(** The literal [1.0]. *)
Definition f1_0 : float := S754_finite false 4503599627370496 (-52).

(** The dict [analyze_sentiment] returns for a text: the one of its [try]
    branch when the scorer returns, the one of its [except] branch when
    the scorer raises. *)
Definition sentiment_of (unicode_isalnum : char -> bool)
  (TextBlob_sentiment : str -> outcome (float * float)) (text : str)
  : SentimentResult :=
  match TextBlob_sentiment (clean_text unicode_isalnum text) with
  | Returns (p, sub) => scored unicode_isalnum text p sub
  | Raises _ => neutral_default text
  end.

(** The messages of the exceptions the scorer raises on the records of a
    frame, in the order of the records. *)
Definition failures (unicode_isalnum : char -> bool)
  (TextBlob_sentiment : str -> outcome (float * float))
  (tweets_df : list TextRecord) : list str :=
  flat_map
    (fun tweet =>
       match TextBlob_sentiment (clean_text unicode_isalnum (text tweet)) with
       | Returns _ => []
       | Raises e => [e]
       end)
    tweets_df.

(** The record [self.logger] hands over for a message at a level. *)
Definition record_of (w : World) (lvl : Level) (msg : str) : LogRecord :=
  {| name := logger (self w); levelname := lvl; message := msg |}.

(** ** [SparkProcessor]: frames, columns and the three methods on rows

    A frame is the list of its rows; [None] stands for Python's [None],
    which [read_json_files] and [process_tweets] return on failure.  A
    column value of type [option _] is nullable, [None] being SQL's NULL.
    A frame is modelled by the rows one evaluation of it gives: Spark
    evaluates a frame anew at each action, with the [current_timestamp()]
    of that evaluation.  Spark does not specify the order of the rows of a
    frame; the list only says which rows there are and how many. *)

Fixpoint str_eqb (a b : str) : bool :=
  match a, b with
  | [], [] => true
  | x :: a', y :: b' => (x =? y)%N && str_eqb a' b'
  | _, _ => false
  end.

Definition option_dec {A} (dec : forall x y : A, {x = y} + {x <> y})
  (x y : option A) : {x = y} + {x <> y}.
Proof. decide equality. Defined.

Definition str_dec (x y : str) : {x = y} + {x <> y} :=
  list_eq_dec N.eq_dec x y.

Definition pair_dec {A B}
  (da : forall x y : A, {x = y} + {x <> y})
  (db : forall x y : B, {x = y} + {x <> y})
  (x y : A * B) : {x = y} + {x <> y}.
Proof. decide equality. Defined.

(** The levels of [logging] the pipeline uses. *)
Module Logging.
Inductive level : Type := INFO | WARNING | ERROR.
End Logging.

Module Spark.

(** *** Conditions on nullable columns *)

(** [col == lit], [col.startswith(lit)], [~cond] and [col > lit]: NULL
    when the column is NULL. *)
Definition sql_eq (a : option str) (lit : str) : option bool :=
  option_map (fun x => str_eqb x lit) a.

Definition sql_startswith (a : option str) (lit : str) : option bool :=
  option_map (starts_with lit) a.

Definition sql_not (b : option bool) : option bool := option_map negb b.

Definition sql_gt (a : option Z) (lit : Z) : option bool :=
  option_map (fun x => (lit <? x)%Z) a.

(** [df.filter(cond)] keeps the rows on which the condition is true, and
    drops those on which it is false or NULL. *)
Definition holds (b : option bool) : bool :=
  match b with
  | Some true => true
  | _ => false
  end.

Definition df_filter {A} (cond : A -> option bool) (df : list A) : list A :=
  filter (fun row => holds (cond row)) df.

(** *** Grouping and aggregates *)

(** [df.groupBy(key)]: one group for each distinct value of the key, NULL
    being a value like any other, with the rows that have it. *)
Definition has_key {K A} (dec : forall x y : K, {x = y} + {x <> y})
  (key : A -> K) (k : K) (row : A) : bool :=
  if dec (key row) k then true else false.

Definition group_by {K A} (dec : forall x y : K, {x = y} + {x <> y})
  (key : A -> K) (df : list A) : list (K * list A) :=
  map (fun k => (k, filter (has_key dec key k) df))
      (nodup dec (map key df)).

(** [sum(col)] on an integer column: the sum of the values that are not
    NULL, and NULL when there is none. *)
Fixpoint sql_sum (values : list (option Z)) : option Z :=
  match values with
  | [] => None
  | None :: values' => sql_sum values'
  | Some x :: values' =>
      match sql_sum values' with
      | None => Some x
      | Some total => Some (x + total)%Z
      end
  end.

(** *** The rows of the raw frame and of the processed frame *)

(** A line of the JSON files written by the collector, by key. *)
Record RawTweet : Type := {
  raw_id : option Z;
  raw_text : option str;
  raw_created_at : option str;
  raw_author_id : option Z;
  raw_lang : option str;
  raw_retweet_count : option Z;
  raw_like_count : option Z;
  raw_reply_count : option Z;
  raw_quote_count : option Z;
  raw_collected_at : option str
}.

(** A row of the frame [process_tweets] selects. *)
Record Tweet : Type := {
  id : option str;
  text : option str;
  created_at : option str;
  author_id : option str;
  lang : option str;
  retweet_count : option Z;
  like_count : option Z;
  reply_count : option Z;
  quote_count : option Z;
  collected_at : option str;
  processed_at : Z;
  tweet_date : option Z;
  tweet_hour : option Z
}.

(** The four columns [add_sentiment_analysis] adds. *)
Record Sentiment : Type := {
  polarity : float;
  subjectivity : float;
  sentiment_label : str;
  confidence : float
}.

(** The rows of the three views of [create_aggregated_views]. *)
Record HourlySentiment : Type := {
  hourly_tweet_date : option Z;
  hourly_tweet_hour : option Z;
  hourly_sentiment_label : str;
  hourly_tweet_count : nat;
  hourly_avg_polarity : option float;
  hourly_avg_confidence : option float
}.

Record DailySentiment : Type := {
  daily_tweet_date : option Z;
  daily_sentiment_label : str;
  daily_tweet_count : nat;
  daily_avg_polarity : option float;
  daily_total_likes : option Z;
  daily_total_retweets : option Z
}.

Record TrendingTopics : Type := {
  trending_tweet_date : option Z;
  trending_total_engagement : option Z;
  trending_tweet_count : nat;
  trending_avg_sentiment : option float
}.

Record Views : Type := {
  hourly_sentiment : list HourlySentiment;
  daily_sentiment : list DailySentiment;
  trending_topics : list TrendingTopics
}.

Section Processor.

(** Functions of Spark SQL, taken as they are: the casts of a long to a
    string and to an int, [to_date] and [hour] of a timestamp string,
    [current_timestamp()] of the query, and [avg] of a column of doubles
    (NULL on no value). *)
Variable cast_string : Z -> str.
Variable cast_int : Z -> option Z.
Variable to_date : str -> option Z.
Variable hour : str -> option Z.
Variable current_timestamp : Z.
Variable avg : list float -> option float.

Variable unicode_isalnum : char -> bool.
Variable TextBlob_sentiment : str -> outcome (float * float).

Definition bind_null {A B} (a : option A) (f : A -> option B) : option B :=
  match a with
  | Some x => f x
  | None => None
  end.

(** The [select] of [process_tweets], on one row. *)
Definition select_columns (row : RawTweet) : Tweet :=
  {| id := option_map cast_string (raw_id row);
     text := raw_text row;
     created_at := raw_created_at row;
     author_id := option_map cast_string (raw_author_id row);
     lang := raw_lang row;
     retweet_count := bind_null (raw_retweet_count row) cast_int;
     like_count := bind_null (raw_like_count row) cast_int;
     reply_count := bind_null (raw_reply_count row) cast_int;
     quote_count := bind_null (raw_quote_count row) cast_int;
     collected_at := raw_collected_at row;
     processed_at := current_timestamp;
     tweet_date := bind_null (raw_created_at row) to_date;
     tweet_hour := bind_null (raw_created_at row) hour |}.

(** [[
    def process_tweets(self, raw_df):
        try:
            processed_df = raw_df.select(
                col("id").cast("string"), col("text"), col("created_at"),
                col("author_id").cast("string"), col("lang"),
                col("retweet_count").cast("int"),
                col("like_count").cast("int"),
                col("reply_count").cast("int"),
                col("quote_count").cast("int"), col("collected_at"),
                current_timestamp().alias("processed_at"),
                to_date(col("created_at")).alias("tweet_date"),
                hour(col("created_at")).alias("tweet_hour")
            ).filter(col("lang") == "en"
            ).filter(~col("text").startswith("RT @"))
            self.logger.info(f"Processed {processed_df.count()} tweets")
            return processed_df
        except Exception as e:
            self.logger.error(f"Error processing tweets: {e}")
            return None
    ]]
    The result comes with the records handed to the logger.  On [None]
    the attribute access [raw_df.select] raises. *)
Definition process_tweets (raw_df : option (list RawTweet))
  : option (list Tweet) * list (Logging.level * str) :=
  let body :=
    match raw_df with
    | None => Raises (py "'NoneType' object has no attribute 'select'")
    | Some rows =>
        Returns
          (df_filter (fun row => sql_not (sql_startswith (text row)
                                            (py "RT @")))
             (df_filter (fun row => sql_eq (lang row) (py "en"))
                (map select_columns rows)))
    end in
  match body with
  | Returns processed_df =>
      (Some processed_df,
       [(Logging.INFO,
         py "Processed " ++ str_of_nat (List.length processed_df)
         ++ py " tweets")])
  | Raises e =>
      (None, [(Logging.ERROR, py "Error processing tweets: " ++ e)])
  end.

(** The UDF as Spark calls it: a NULL text is Python's [None], on which
    the first [re.sub] raises [TypeError], so that the bare [except]
    returns the default tuple. *)
Definition sentiment_udf (text : option str)
  : outcome (float * float * str * float) :=
  match text with
  | Some s => analyze_sentiment_udf unicode_isalnum TextBlob_sentiment s
  | None => Returns (f0_0, f0_0, py "neutral", f0_0)
  end.

Definition sentiment_columns (t : float * float * str * float) : Sentiment :=
  let '(p, sub, label, conf) := t in
  {| polarity := p; subjectivity := sub; sentiment_label := label;
     confidence := conf |}.

(** The rows of a frame with the struct of the UDF for each; an exception
    of the UDF fails the frame. *)
Fixpoint with_sentiment {A} (text_col : A -> option str) (rows : list A)
  : outcome (list (A * Sentiment)) :=
  match rows with
  | [] => Returns []
  | row :: rows' =>
      match sentiment_udf (text_col row) with
      | Raises e => Raises e
      | Returns t =>
          match with_sentiment text_col rows' with
          | Raises e => Raises e
          | Returns out => Returns ((row, sentiment_columns t) :: out)
          end
      end
  end.

(** [[
    def add_sentiment_analysis(self, df):
        ...
        sentiment_udf = udf(analyze_sentiment_udf, StructType([...]))
        result_df = df.withColumn("sentiment_analysis",
                                  sentiment_udf(col("text"))) \
                     .select("*", col("sentiment_analysis.polarity")...,
                             ...) \
                     .drop("sentiment_analysis")
        return result_df
    ]]
    A row of the result is the row of [df] and the four new columns.
    Nothing is caught here: on [None] the attribute access raises to the
    caller. *)
Definition add_sentiment_analysis {A} (text_col : A -> option str)
  (df : option (list A)) : outcome (list (A * Sentiment)) :=
  match df with
  | None => Raises (py "'NoneType' object has no attribute 'withColumn'")
  | Some rows => with_sentiment text_col rows
  end.

(** The keys of the three groupings. *)
Definition hourly_key (row : Tweet * Sentiment)
  : option Z * (option Z * str) :=
  (tweet_date (fst row), (tweet_hour (fst row), sentiment_label (snd row))).

Definition daily_key (row : Tweet * Sentiment) : option Z * str :=
  (tweet_date (fst row), sentiment_label (snd row)).

Definition date_key (row : Tweet * Sentiment) : option Z :=
  tweet_date (fst row).

Definition hourly_dec := pair_dec (option_dec Z.eq_dec)
                           (pair_dec (option_dec Z.eq_dec) str_dec).
Definition daily_dec := pair_dec (option_dec Z.eq_dec) str_dec.
Definition date_dec := option_dec Z.eq_dec.

(** [[
    def create_aggregated_views(self, df):
        try:
            hourly_sentiment = df.groupBy("tweet_date", "tweet_hour",
                                          "sentiment_label") \
                .agg(count("*").alias("tweet_count"),
                     avg("polarity").alias("avg_polarity"),
                     avg("confidence").alias("avg_confidence"))
            daily_sentiment = df.groupBy("tweet_date", "sentiment_label") \
                .agg(count("*").alias("tweet_count"),
                     avg("polarity").alias("avg_polarity"),
                     sum("like_count").alias("total_likes"),
                     sum("retweet_count").alias("total_retweets"))
            trending_topics = df.filter(col("like_count") > 10) \
                .groupBy("tweet_date") \
                .agg(sum("like_count").alias("total_engagement"),
                     count("*").alias("tweet_count"),
                     avg("polarity").alias("avg_sentiment"))
            return {'hourly_sentiment': hourly_sentiment,
                    'daily_sentiment': daily_sentiment,
                    'trending_topics': trending_topics}
        except Exception as e:
            self.logger.error(f"Error creating aggregated views: {e}")
            return None
    ]] *)
Definition create_aggregated_views (df : option (list (Tweet * Sentiment)))
  : option Views * list (Logging.level * str) :=
  let body :=
    match df with
    | None => Raises (py "'NoneType' object has no attribute 'groupBy'")
    | Some rows =>
        let hourly :=
          map (fun g : (option Z * (option Z * str))
                       * list (Tweet * Sentiment) =>
                 {| hourly_tweet_date := fst (fst g);
                    hourly_tweet_hour := fst (snd (fst g));
                    hourly_sentiment_label := snd (snd (fst g));
                    hourly_tweet_count := List.length (snd g);
                    hourly_avg_polarity :=
                      avg (map (fun r => polarity (snd r)) (snd g));
                    hourly_avg_confidence :=
                      avg (map (fun r => confidence (snd r)) (snd g)) |})
              (group_by hourly_dec hourly_key rows) in
        let daily :=
          map (fun g : (option Z * str) * list (Tweet * Sentiment) =>
                 {| daily_tweet_date := fst (fst g);
                    daily_sentiment_label := snd (fst g);
                    daily_tweet_count := List.length (snd g);
                    daily_avg_polarity :=
                      avg (map (fun r => polarity (snd r)) (snd g));
                    daily_total_likes :=
                      sql_sum (map (fun r => like_count (fst r)) (snd g));
                    daily_total_retweets :=
                      sql_sum (map (fun r => retweet_count (fst r))
                                 (snd g)) |})
              (group_by daily_dec daily_key rows) in
        let trending :=
          map (fun g : option Z * list (Tweet * Sentiment) =>
                 {| trending_tweet_date := fst g;
                    trending_total_engagement :=
                      sql_sum (map (fun r => like_count (fst r)) (snd g));
                    trending_tweet_count := List.length (snd g);
                    trending_avg_sentiment :=
                      avg (map (fun r => polarity (snd r)) (snd g)) |})
              (group_by date_dec date_key
                 (df_filter (fun r => sql_gt (like_count (fst r)) 10) rows))
        in
        Returns {| hourly_sentiment := hourly;
                   daily_sentiment := daily;
                   trending_topics := trending |}
    end in
  match body with
  | Returns views => (Some views, [])
  | Raises e =>
      (None,
       [(Logging.ERROR, py "Error creating aggregated views: " ++ e)])
  end.

End Processor.

End Spark.

(** ** [SentimentAnalysisPipeline.process_data] and the methods it calls

    What the Spark session and HDFS do is given by two functions: what
    reading the JSON files of a path returns or raises, and whether writing
    a frame to a path succeeds.  Once read, a frame is evaluated without
    failure: the transformations on its rows are those of [Spark] above.
    A run is described by the events it causes, in order: the records
    logged, the reads and the writes. *)
Module Pipeline.

Inductive Frame : Type :=
| Tweets (rows : list (Spark.Tweet * Spark.Sentiment))
| Hourly (rows : list Spark.HourlySentiment)
| Daily (rows : list Spark.DailySentiment)
| Trending (rows : list Spark.TrendingTopics).

Inductive Event : Type :=
| Log (lvl : Logging.level) (msg : str)
| ReadJson (path : str)
| WriteParquet (path mode : str) (frame : Frame).

(** A computation: its outcome and the events it causes. *)
Definition W (A : Type) : Type := outcome A * list Event.

Definition ret {A} (a : A) : W A := (Returns a, []).

Definition bind {A B} (c : W A) (k : A -> W B) : W B :=
  match c with
  | (Returns a, events) =>
      let '(o, events') := k a in (o, events ++ events')
  | (Raises e, events) => (Raises e, events)
  end.

Definition emit (e : Event) : W unit := (Returns tt, [e]).

Definition lift {A} (o : outcome A) : W A := (o, []).

(** [try: body except Exception as e: handler(e)]. *)
Definition try_except {A} (body : W A) (handler : str -> W A) : W A :=
  match body with
  | (Returns a, events) => (Returns a, events)
  | (Raises e, events) =>
      let '(o, events') := handler e in (o, events ++ events')
  end.

Declare Scope pipeline_scope.
Delimit Scope pipeline_scope with pipeline.
Notation "x <- c ;; k" := (bind c (fun x => k))
  (at level 61, c at next level, right associativity) : pipeline_scope.
Notation "c ;;; k" := (bind c (fun _ => k))
  (at level 61, right associativity) : pipeline_scope.

(** A method of the processor that returns its value with its log. *)
Definition logged {A} (r : A * list (Logging.level * str)) : W A :=
  (Returns (fst r), map (fun lm => Log (fst lm) (snd lm)) (snd r)).

(** [d[key]]: the value, or [KeyError(key)]. *)
Fixpoint getitem {V} (d : list (str * V)) (key : str) : outcome V :=
  match d with
  | [] => Raises (py "'" ++ key ++ py "'")
  | (k, v) :: d' => if str_eqb k key then Returns v else getitem d' key
  end.

(** [for x in l: body(x)]. *)
Fixpoint for_each {A} (l : list A) (body : A -> W unit) : W unit :=
  match l with
  | [] => ret tt
  | x :: l' => bind (body x) (fun _ => for_each l' body)
  end.

Section Run.

Variable cast_string : Z -> str.
Variable cast_int : Z -> option Z.
Variable to_date : str -> option Z.
Variable hour : str -> option Z.
Variable current_timestamp : Z.
Variable avg : list float -> option float.
Variable unicode_isalnum : char -> bool.
Variable TextBlob_sentiment : str -> outcome (float * float).

(** [self.spark.read.option("multiline", "false").json(path)] followed by
    [df.count()]: the rows, or the exception of Spark. *)
Variable spark_read_json : str -> outcome (list Spark.RawTweet).

(** [df.write.mode(mode).partitionBy("tweet_date").parquet(path)]. *)
Variable hdfs_write : str -> str -> Frame -> outcome unit.

(** [self.config], loaded from the YAML file. *)
Variable config : list (str * list (str * str)).

Local Open Scope pipeline_scope.

(** [[
    def read_json_files(self, path: str):
        try:
            df = self.spark.read.option("multiline", "false").json(path)
            self.logger.info(f"Read {df.count()} records from {path}")
            return df
        except Exception as e:
            self.logger.error(f"Error reading JSON files: {e}")
            return None
    ]] *)
Definition read_json_files (path : str)
  : W (option (list Spark.RawTweet)) :=
  emit (ReadJson path) ;;;
  try_except
    (df <- lift (spark_read_json path) ;;
     emit (Log Logging.INFO
             (py "Read " ++ str_of_nat (List.length df)
              ++ py " records from " ++ path)) ;;;
     ret (Some df))
    (fun e =>
       emit (Log Logging.ERROR (py "Error reading JSON files: " ++ e)) ;;;
       ret None).

(** [[
    def save_to_hdfs(self, df, path: str, mode: str = "append"):
        try:
            df.write.mode(mode).partitionBy("tweet_date").parquet(path)
            self.logger.info(f"Saved data to HDFS: {path}")
        except Exception as e:
            self.logger.error(f"Error saving to HDFS: {e}")
    ]] *)
Definition save_to_hdfs (df : Frame) (path mode : str) : W unit :=
  emit (WriteParquet path mode df) ;;;
  try_except
    (lift (hdfs_write path mode df) ;;;
     emit (Log Logging.INFO (py "Saved data to HDFS: " ++ path)))
    (fun e => emit (Log Logging.ERROR (py "Error saving to HDFS: " ++ e))).

(** The record [read_json_files] logs for a path. *)
Definition read_record (path : str) : Event :=
  match spark_read_json path with
  | Returns df =>
      Log Logging.INFO
        (py "Read " ++ str_of_nat (List.length df) ++ py " records from "
         ++ path)
  | Raises e =>
      Log Logging.ERROR (py "Error reading JSON files: " ++ e)
  end.

(** The record [save_to_hdfs] logs for a write. *)
Definition write_record (path mode : str) (frame : Frame)
  : Event :=
  match hdfs_write path mode frame with
  | Returns _ => Log Logging.INFO (py "Saved data to HDFS: " ++ path)
  | Raises e => Log Logging.ERROR (py "Error saving to HDFS: " ++ e)
  end.

(** [aggregated_views.items()], in the order of the dict. *)
Definition items (views : Spark.Views) : list (str * Frame) :=
  [(py "hourly_sentiment", Hourly (Spark.hourly_sentiment views));
   (py "daily_sentiment", Daily (Spark.daily_sentiment views));
   (py "trending_topics", Trending (Spark.trending_topics views))].

(** [self.config['hadoop']['hdfs_base_path']]. *)
Definition hdfs_base_path : outcome str :=
  match getitem config (py "hadoop") with
  | Returns hadoop => getitem hadoop (py "hdfs_base_path")
  | Raises e => Raises e
  end.

(** [[
    def process_data(self, filename=None):
        self.logger.info("Starting data processing...")
        try:
            if filename:
                raw_df = self.spark_processor.read_json_files(
                    f"data/raw/{filename}")
            else:
                raw_df = self.spark_processor.read_json_files(
                    "data/raw/*.json")
            if raw_df is None or raw_df.count() == 0:
                self.logger.warning("No data to process")
                return
            processed_df = self.spark_processor.process_tweets(raw_df)
            sentiment_df = self.spark_processor.add_sentiment_analysis(
                processed_df)
            hdfs_path = f"{self.config['hadoop']['hdfs_base_path']}/processed_tweets"
            self.spark_processor.save_to_hdfs(sentiment_df, hdfs_path)
            aggregated_views = self.spark_processor.create_aggregated_views(
                sentiment_df)
            if aggregated_views:
                for view_name, view_df in aggregated_views.items():
                    agg_path = f"{self.config['hadoop']['hdfs_base_path']}/{view_name}"
                    self.spark_processor.save_to_hdfs(view_df, agg_path,
                                                      mode="overwrite")
            self.logger.info("Data processing completed successfully")
        except Exception as e:
            self.logger.error(f"Error in data processing: {e}")
    ]] *)
Definition process_data (filename : option str) : W unit :=
  emit (Log Logging.INFO (py "Starting data processing...")) ;;;
  try_except
    (raw_df <-
       (match filename with
        | Some (c :: name) => read_json_files (py "data/raw/" ++ c :: name)
        | _ => read_json_files (py "data/raw/*.json")
        end) ;;
     match raw_df with
     | None => emit (Log Logging.WARNING (py "No data to process"))
     | Some [] => emit (Log Logging.WARNING (py "No data to process"))
     | Some (_ :: _) =>
         processed_df <-
           logged (Spark.process_tweets cast_string cast_int to_date hour
                     current_timestamp raw_df) ;;
         sentiment_df <-
           lift (Spark.add_sentiment_analysis unicode_isalnum
                   TextBlob_sentiment Spark.text processed_df) ;;
         base <- lift hdfs_base_path ;;
         save_to_hdfs (Tweets sentiment_df) (base ++ py "/processed_tweets")
           (py "append") ;;;
         aggregated_views <-
           logged (Spark.create_aggregated_views avg (Some sentiment_df)) ;;
         match aggregated_views with
         | Some views =>
             for_each (items views)
               (fun item =>
                  base <- lift hdfs_base_path ;;
                  save_to_hdfs (snd item) (base ++ py "/" ++ fst item)
                    (py "overwrite"))
         | None => ret tt
         end ;;;
         emit (Log Logging.INFO
                 (py "Data processing completed successfully"))
     end)
    (fun e => emit (Log Logging.ERROR (py "Error in data processing: " ++ e))).

End Run.

(** The path [process_data] reads: the file of that name in [data/raw],
    and every JSON file there when the name is [None] or empty. *)
Definition raw_path (filename : option str) : str :=
  py "data/raw/"
  ++ match filename with
     | Some name => if nonempty name then name else py "*.json"
     | None => py "*.json"
     end.

End Pipeline.

(** ** A small frame and a small cluster, used to run the definitions *)
Module Demo.

Definition cast_string (z : Z) : str := str_of_nat (Z.to_nat z).
Definition cast_int (z : Z) : option Z := Some z.

(** Timestamps are written [DD HH]: the day, a space, the hour. *)
Definition number (s : str) : option Z :=
  match s with
  | [a; b] => Some (10 * (Z.of_N a - 48) + (Z.of_N b - 48))%Z
  | _ => None
  end.
Definition to_date (s : str) : option Z := number (firstn 2 s).
Definition hour (s : str) : option Z := number (skipn 3 s).
Definition current_timestamp : Z := 0%Z.

(** The first value stands for the mean. *)
Definition avg (values : list float) : option float :=
  match values with
  | [] => None
  | x :: _ => Some x
  end.

Definition tweet (i : Z) (t : string) (created lang : string) (likes : Z)
  : Spark.RawTweet :=
  {| Spark.raw_id := Some i;
     Spark.raw_text := Some (py t);
     Spark.raw_created_at := Some (py created);
     Spark.raw_author_id := Some (100 + i)%Z;
     Spark.raw_lang := Some (py lang);
     Spark.raw_retweet_count := Some 0%Z;
     Spark.raw_like_count := Some likes;
     Spark.raw_reply_count := None;
     Spark.raw_quote_count := None;
     Spark.raw_collected_at := None |}.

Definition raw_df : list Spark.RawTweet :=
  [tweet 1 "a good day http://t.co/x" "03 09" "en" 12;
   tweet 2 "RT @bob a bad day" "03 09" "en" 30;
   tweet 3 "un bon jour" "03 10" "fr" 20;
   tweet 4 "a bad day #sad" "03 17" "en" 40;
   tweet 5 "good news @all" "04 09" "en" 2;
   tweet 6 "so good" "03 17" "en" 11].

(** One file can be read; every write is refused. *)
Definition spark_read_json (path : str) : outcome (list Spark.RawTweet) :=
  if str_eqb path (py "data/raw/*.json") then Returns raw_df
  else if str_eqb path (py "data/raw/empty.json") then Returns []
  else Raises (py "Path does not exist: " ++ path).

Definition hdfs_write (path mode : str) (frame : Pipeline.Frame)
  : outcome unit :=
  Raises (py "Connection refused").

Definition config : list (str * list (str * str)) :=
  [(py "twitter", [(py "bearer_token", py "secret")]);
   (py "hadoop", [(py "namenode", py "hdfs://localhost:9000");
                  (py "hdfs_base_path", py "/twitter")])].

(** The rows [process_tweets] keeps of [raw_df]. *)
Definition processed_df : list Spark.Tweet :=
  match
    fst (Spark.process_tweets cast_string cast_int to_date hour
           current_timestamp (Some raw_df))
  with
  | Some df => df
  | None => []
  end.

(** A frame for the views: the processed rows, each with the sentiment
    [analyze_sentiment] gives for its text. *)
Definition sentiment_df : list (Spark.Tweet * Spark.Sentiment) :=
  map (fun row =>
         (row,
          match Spark.text row with
          | Some t =>
              let r := sentiment_of ascii_only lexicon_scorer t in
              {| Spark.polarity := polarity r;
                 Spark.subjectivity := subjectivity r;
                 Spark.sentiment_label := sentiment_label r;
                 Spark.confidence := confidence r |}
          | None =>
              {| Spark.polarity := f0_0;
                 Spark.subjectivity := f0_0;
                 Spark.sentiment_label := py "neutral";
                 Spark.confidence := f0_0 |}
          end))
    processed_df.

(** The frame [add_sentiment_analysis] gives for the processed rows. *)
Definition with_sentiment_df : list (Spark.Tweet * Spark.Sentiment) :=
  match
    Spark.add_sentiment_analysis ascii_only lexicon_scorer Spark.text
      (Some processed_df)
  with
  | Returns df => df
  | Raises _ => []
  end.

End Demo.

(** * Properties *)

(** ** The definitions on concrete inputs *)

Example split_runs :
  split (py "  two" ++ [9%N; 160%N] ++ py "words ")
  = [py "two"; py "words"].
Proof. reflexivity. Qed.

Example match_at_url_token :
  match_at url_pattern (py "https://example.com @user") = Some 19.
Proof. reflexivity. Qed.

Example match_at_needs_one_more :
  match_at url_pattern (py "http") = None
  /\ match_at (tag_pattern ascii_only) (py "@ user") = None.
Proof. split; reflexivity. Qed.

Example clean_text_scenario :
  clean_text ascii_only
    (py "Check out this link: https://example.com @user #hashtag")
  = py "Check out this link:".
Proof. reflexivity. Qed.

Example clean_text_keeps_bare_signs :
  clean_text ascii_only
    (py "  a" ++ [9%N] ++ py "b  www.x  wwwhttp httpx@y#z @@a #1_ # ")
  = py "a b @ #".
Proof. reflexivity. Qed.

Example analyze_sentiment_positive :
  fst (analyze_sentiment ascii_only lexicon_scorer
         (py "a good day #sun") fresh_world)
  = Returns {| cleaned_text := py "a good day";
               polarity := f0_5;
               subjectivity := f0_5;
               sentiment_label := py "positive";
               confidence := f0_5 |}.
Proof. reflexivity. Qed.

Example analyze_sentiment_at_threshold :
  fst (analyze_sentiment ascii_only (fun _ => Returns (f0_1, f0_0))
         (py "so so") fresh_world)
  = Returns {| cleaned_text := py "so so";
               polarity := f0_1;
               subjectivity := f0_0;
               sentiment_label := py "neutral";
               confidence := f0_1 |}.
Proof. reflexivity. Qed.

Example analyze_sentiment_logs_failure :
  map message
    (handled (snd (analyze_sentiment ascii_only lexicon_scorer
                     (py " @x ") fresh_world)))
  = [py "Error analyzing sentiment: empty text"].
Proof. reflexivity. Qed.

Example batch_analyze_labels :
  match fst (batch_analyze ascii_only lexicon_scorer three_tweets
               fresh_world) with
  | Returns rows =>
      map (fun row => option_map sentiment_label (snd row)) rows
  | Raises _ => []
  end
  = [Some (py "positive"); Some (py "neutral"); Some (py "negative")].
Proof. reflexivity. Qed.

Example batch_analyze_log :
  map message
    (handled (snd (batch_analyze ascii_only lexicon_scorer three_tweets
                     fresh_world)))
  = [py "Error analyzing sentiment: empty text";
     py "Analyzed sentiment for 3 tweets"].
Proof. reflexivity. Qed.

(** ** Whitespace: [split], [join] and [strip] *)

Lemma split_nonempty_tokens (s : str) : Forall (fun t => t <> []) (split s).
Proof.
  induction s as [|c s IH]; simpl; [constructor|].
  destruct (Py_UNICODE_ISSPACE c); [exact IH|].
  destruct (at_break s).
  - constructor; [discriminate | exact IH].
  - destruct (split s) as [|t ts].
    + constructor; [discriminate | constructor].
    + inversion IH; subst. constructor; [discriminate | assumption].
Qed.

Lemma split_not_nil (s : str) : at_break s = false -> split s <> [].
Proof.
  destruct s as [|c s]; simpl; [discriminate|].
  intros ->. destruct (at_break s); [discriminate|].
  destruct (split s); discriminate.
Qed.

Lemma join_cons (sep x : str) (l : list str) :
  join sep (x :: l) =
  match l with [] => x | _ :: _ => x ++ sep ++ join sep l end.
Proof. reflexivity. Qed.

Lemma join_nil_inv (sep : str) (l : list str) :
  Forall (fun t => t <> []) l -> join sep l = [] -> l = [].
Proof.
  destruct l as [|x l]; [reflexivity|].
  intros H; inversion H as [|? ? Hx Hl]; subst.
  rewrite join_cons. destruct l; destruct x; try discriminate; congruence.
Qed.

Lemma join_split_squeeze (s : str) : join (py " ") (split s) = squeeze s.
Proof.
  induction s as [|c s IH]; [reflexivity|].
  cbn [split squeeze].
  destruct (Py_UNICODE_ISSPACE c); [exact IH|].
  destruct (at_break s) eqn:Hb.
  - rewrite join_cons, <- IH.
    destruct (split s) as [|t ts] eqn:Hs; [reflexivity|].
    destruct (join (py " ") (t :: ts)) eqn:Hj; [|reflexivity].
    apply join_nil_inv in Hj; [discriminate|].
    rewrite <- Hs. apply split_nonempty_tokens.
  - pose proof (split_not_nil s Hb) as Hne.
    destruct (split s) as [|t ts]; [congruence|].
    rewrite <- IH. rewrite !join_cons. destruct ts; reflexivity.
Qed.

Lemma squeeze_no_leading (s : str) :
  match squeeze s with
  | [] => True
  | c :: _ => Py_UNICODE_ISSPACE c = false
  end.
Proof.
  induction s as [|c s IH]; simpl; [exact I|].
  destruct (Py_UNICODE_ISSPACE c) eqn:Hc; [exact IH|].
  destruct (at_break s); [destruct (squeeze s)|]; exact Hc.
Qed.

Lemma squeeze_single_spaced (s : str) : single_spaced (squeeze s) = true.
Proof.
  induction s as [|c s IH]; simpl; [reflexivity|].
  destruct (Py_UNICODE_ISSPACE c) eqn:Hc; [exact IH|].
  destruct (at_break s) eqn:Hb.
  - pose proof (squeeze_no_leading s) as Hl.
    destruct (squeeze s) as [|d r] eqn:Hs.
    + simpl. rewrite Hc. reflexivity.
    + change (single_spaced (c :: 32%N :: d :: r)) with
        ((if Py_UNICODE_ISSPACE c
          then (c =? 32)%N && negb (at_break (32%N :: d :: r)) else true)
         && ((negb (Py_UNICODE_ISSPACE d)) && single_spaced (d :: r))).
      rewrite Hc, Hl, IH. reflexivity.
  - simpl. rewrite Hc. exact IH.
Qed.

Lemma squeeze_normalized (s : str) : normalized (squeeze s) = true.
Proof.
  unfold normalized. rewrite squeeze_single_spaced.
  pose proof (squeeze_no_leading s) as H.
  destruct (squeeze s); simpl; [reflexivity|].
  rewrite H; reflexivity.
Qed.

Lemma lstrip_app_one (l : str) (c : char) :
  lstrip (l ++ [c]) =
  match lstrip l with
  | [] => if Py_UNICODE_ISSPACE c then [] else [c]
  | _ :: _ => lstrip l ++ [c]
  end.
Proof.
  induction l as [|a l IH]; simpl; [reflexivity|].
  destruct (Py_UNICODE_ISSPACE a); [exact IH | reflexivity].
Qed.

Lemma rstrip_trim_end (s : str) : rstrip s = trim_end s.
Proof.
  unfold rstrip. induction s as [|c s IH]; [reflexivity|].
  simpl. rewrite lstrip_app_one.
  destruct (lstrip (rev s)) as [|a l] eqn:Hl.
  - simpl in IH. rewrite <- IH. destruct (Py_UNICODE_ISSPACE c); reflexivity.
  - rewrite rev_app_distr, <- IH.
    destruct (rev (a :: l)) eqn:Hr; [|reflexivity].
    apply (f_equal (@List.length char)) in Hr.
    rewrite length_rev in Hr. discriminate.
Qed.

Lemma trim_end_single_spaced (t : str) :
  single_spaced t = true -> trim_end t = t.
Proof.
  induction t as [|c t IH]; [reflexivity|].
  simpl. intros H. apply andb_true_iff in H as [Hc Ht].
  rewrite (IH Ht). destruct t as [|d t]; [|reflexivity].
  destruct (Py_UNICODE_ISSPACE c); [|reflexivity].
  simpl in Hc. rewrite andb_false_r in Hc. discriminate.
Qed.

Lemma lstrip_no_leading (t : str) :
  at_break t = false -> lstrip t = t.
Proof.
  destruct t as [|c t]; simpl; [reflexivity|]. intros ->. reflexivity.
Qed.

Lemma strip_fix (t : str) : normalized t = true -> strip t = t.
Proof.
  unfold normalized, strip. intros H. apply andb_true_iff in H as [Hh Hs].
  rewrite rstrip_trim_end.
  assert (lstrip t = t) as ->.
  { destruct t as [|c t]; [reflexivity|]. simpl in *.
    destruct (Py_UNICODE_ISSPACE c); [discriminate | reflexivity]. }
  apply trim_end_single_spaced, Hs.
Qed.

Lemma squeeze_single_spaced_fix (t : str) :
  single_spaced t = true -> squeeze t = lstrip t.
Proof.
  induction t as [|c t IH]; [reflexivity|].
  cbn [single_spaced squeeze lstrip]. intros H.
  apply andb_true_iff in H as [Hc Ht].
  destruct (Py_UNICODE_ISSPACE c) eqn:Ec; [exact (IH Ht)|].
  rewrite (IH Ht).
  destruct (at_break t) eqn:Hb;
    [|rewrite lstrip_no_leading by exact Hb; reflexivity].
  destruct t as [|d t]; [reflexivity|].
  simpl in Hb. cbn [single_spaced] in Ht. rewrite Hb in Ht.
  apply andb_true_iff in Ht as [Hd _]. apply andb_true_iff in Hd as [Hd He].
  apply N.eqb_eq in Hd. subst d. apply negb_true_iff in He.
  cbn [lstrip]. rewrite Hb. rewrite lstrip_no_leading by exact He.
  destruct t; [discriminate He | reflexivity].
Qed.

Lemma squeeze_fix (t : str) : normalized t = true -> squeeze t = t.
Proof.
  unfold normalized. intros H. apply andb_true_iff in H as [Hh Hs].
  rewrite squeeze_single_spaced_fix by exact Hs.
  destruct t as [|c t]; [reflexivity|]. simpl in *.
  destruct (Py_UNICODE_ISSPACE c); [discriminate | reflexivity].
Qed.

(** The third step of the cleaner is [squeeze]. *)
Lemma strip_join_split (t : str) :
  strip (join (py " ") (split t)) = squeeze t.
Proof.
  rewrite join_split_squeeze. apply strip_fix, squeeze_normalized.
Qed.

Lemma single_spaced_at (u : str) (c : char) (v : str) :
  single_spaced (u ++ c :: v) = true ->
  Py_UNICODE_ISSPACE c = true ->
  c = 32%N /\ at_break v = false.
Proof.
  induction u as [|a u IH]; simpl; intros H Hc.
  - rewrite Hc in H. apply andb_true_iff in H as [H _].
    apply andb_true_iff in H as [H1 H2].
    apply N.eqb_eq in H1. apply negb_true_iff in H2. auto.
  - apply andb_true_iff in H as [_ H]. auto.
Qed.

Lemma squeeze_all_space (s : str) :
  forallb Py_UNICODE_ISSPACE s = true -> squeeze s = [].
Proof.
  induction s as [|c s IH]; simpl; [reflexivity|].
  intros H. apply andb_true_iff in H as [-> H]. auto.
Qed.

(** ** The matcher finds what the pattern matches *)

Lemma rep1_sound (p : char -> bool) (k : str -> option nat) (s : str)
  (n : nat) :
  rep1 p k s = Some n ->
  exists m rest j,
    s = m ++ rest /\ m <> [] /\ forallb p m = true /\
    k rest = Some j /\ n = List.length m + j.
Proof.
  revert n. induction s as [|c s IH]; intros n; [discriminate|].
  cbn [rep1]. destruct (p c) eqn:Hc; [|discriminate].
  destruct (rep1 p k s) as [n'|] eqn:Hr.
  - intros [= <-].
    destruct (IH n' eq_refl) as (m & rest & j & -> & _ & Hm & Hk & ->).
    exists (c :: m), rest, j. simpl. rewrite Hc, Hm.
    repeat split; [discriminate | exact Hk].
  - destruct (k s) as [j|] eqn:Hk; [|discriminate].
    intros [= <-]. exists [c], s, j. simpl. rewrite Hc.
    repeat split; [discriminate | exact Hk].
Qed.

Lemma run_sound (r : regex) :
  forall (k : str -> option nat) (s : str) (n : nat),
  run r k s = Some n ->
  exists m rest j,
    s = m ++ rest /\ matches r m /\ k rest = Some j /\
    n = List.length m + j.
Proof.
  induction r as [c|r1 IH1 r2 IH2|r1 IH1 r2 IH2|p]; intros k s n; cbn [run].
  - destruct s as [|x s]; [discriminate|].
    destruct (N.eqb_spec x c) as [->|]; [|discriminate].
    destruct (k s) as [j|] eqn:Hk; [|discriminate]. intros [= <-].
    exists [c], s, j. repeat split; [constructor | exact Hk].
  - intros H.
    destruct (IH1 _ _ _ H) as (m1 & rest1 & j1 & -> & Hm1 & H2 & ->).
    destruct (IH2 _ _ _ H2) as (m2 & rest & j & -> & Hm2 & Hk & ->).
    exists (m1 ++ m2), rest, j. rewrite <- app_assoc, length_app.
    repeat split; [constructor; assumption | exact Hk | lia].
  - destruct (run r1 k s) as [n1|] eqn:H1.
    + intros [= <-].
      destruct (IH1 _ _ _ H1) as (m & rest & j & -> & Hm & Hk & ->).
      exists m, rest, j. repeat split; [apply matches_alt_l, Hm | exact Hk].
    + intros H2.
      destruct (IH2 _ _ _ H2) as (m & rest & j & -> & Hm & Hk & ->).
      exists m, rest, j. repeat split; [apply matches_alt_r, Hm | exact Hk].
  - intros H.
    destruct (rep1_sound p k s n H) as (m & rest & j & -> & Hne & Hm & Hk & ->).
    exists m, rest, j. repeat split; [constructor; assumption | exact Hk].
Qed.

Lemma rep1_complete (p : char -> bool) (k : str -> option nat)
  (m rest : str) :
  m <> [] -> forallb p m = true -> k rest <> None ->
  rep1 p k (m ++ rest) <> None.
Proof.
  induction m as [|c m IH]; [congruence|].
  intros _ Hm Hk. simpl in Hm. apply andb_true_iff in Hm as [Hc Hm].
  cbn [app rep1]. rewrite Hc.
  destruct (rep1 p k (m ++ rest)) eqn:Hr; [discriminate|].
  destruct m as [|d m].
  - cbn [app]. destruct (k rest); [discriminate | congruence].
  - exfalso. apply IH; [discriminate | exact Hm | exact Hk | reflexivity].
Qed.

Lemma run_complete (r : regex) (m : str) :
  matches r m ->
  forall (k : str -> option nat) (rest : str),
  k rest <> None -> run r k (m ++ rest) <> None.
Proof.
  induction 1 as [c|r1 r2 s1 s2 _ IH1 _ IH2|r1 r2 s _ IH|r1 r2 s _ IH
                  |p s Hne Hs]; intros k rest Hk; cbn [run app].
  - rewrite N.eqb_refl. destruct (k rest); [discriminate | congruence].
  - rewrite <- app_assoc. apply IH1, IH2, Hk.
  - specialize (IH k rest Hk). destruct (run r1 k (s ++ rest));
      [discriminate | congruence].
  - destruct (run r1 k (s ++ rest)); [discriminate | apply IH, Hk].
  - apply rep1_complete; assumption.
Qed.

Lemma match_at_sound (r : regex) (s : str) (n : nat) :
  match_at r s = Some n -> matches r (firstn n s).
Proof.
  intros H. apply run_sound in H as (m & rest & j & -> & Hm & [= <-] & ->).
  rewrite Nat.add_0_r, firstn_app, firstn_all, Nat.sub_diag.
  cbn [firstn]. rewrite app_nil_r. exact Hm.
Qed.

Lemma match_at_complete (r : regex) (m rest : str) :
  matches r m -> match_at r (m ++ rest) <> None.
Proof. intros H. apply (run_complete r m H). discriminate. Qed.

(** ** The matcher on the two patterns *)

Lemma rep1_longest (p : char -> bool) (s : str) :
  rep1 p (fun _ => Some 0) s =
  match s with
  | c :: _ => if p c then Some (List.length (take_while p s)) else None
  | [] => None
  end.
Proof.
  induction s as [|c s IH]; [reflexivity|].
  cbn [rep1 take_while]. destruct (p c); [|reflexivity].
  rewrite IH. destruct s as [|d s]; [reflexivity|].
  cbn [take_while]. destruct (p d); reflexivity.
Qed.

Lemma run_lit_then (w : str) (r : regex) (k : str -> option nat) (s : str) :
  run (lit_then w r) k s =
  match strip_prefix w s with
  | Some rest => option_map (Nat.add (List.length w)) (run r k rest)
  | None => None
  end.
Proof.
  revert s. induction w as [|a w IH]; intros s; cbn [lit_then strip_prefix].
  - destruct (run r k s); reflexivity.
  - cbn [run]. destruct s as [|b s]; [reflexivity|].
    destruct (b =? a)%N; [|reflexivity].
    rewrite IH. destruct (strip_prefix w s) as [rest|]; [|reflexivity].
    destruct (run r k rest); reflexivity.
Qed.

Lemma match_at_word_run (w : str) (p : char -> bool) (s : str) :
  match_at (lit_then w (Rep1 p)) s = word_then_run w p s.
Proof.
  unfold match_at, word_then_run. rewrite run_lit_then.
  destruct (strip_prefix w s) as [rest|]; [|reflexivity].
  cbn [run]. rewrite rep1_longest.
  destruct rest as [|c t]; [reflexivity|]. destruct (p c); reflexivity.
Qed.

Lemma match_at_alt (r1 r2 : regex) (s : str) :
  match_at (Alt r1 r2) s = first_of (match_at r1) (match_at r2) s.
Proof. reflexivity. Qed.

Lemma match_at_url (s : str) : match_at url_pattern s = spec_url_at s.
Proof.
  unfold url_pattern, spec_url_at.
  rewrite match_at_alt. unfold first_of.
  rewrite match_at_alt. unfold first_of.
  rewrite !match_at_word_run. reflexivity.
Qed.

Lemma match_at_tag (u : char -> bool) (s : str) :
  match_at (tag_pattern u) s = spec_tag_at u s.
Proof.
  unfold tag_pattern, spec_tag_at.
  rewrite match_at_alt. unfold first_of.
  rewrite !match_at_word_run. reflexivity.
Qed.

(** ** Removal of the matches *)

Lemma drop_matches_ext (f g : str -> option nat) :
  (forall s, f s = g s) ->
  forall k s, drop_matches f k s = drop_matches g k s.
Proof.
  intros H k s. revert k. induction s as [|c s IH]; intros k; [reflexivity|].
  cbn [drop_matches]. destruct k; [|apply IH].
  rewrite H. destruct (g (c :: s)) as [[|n]|]; rewrite ?IH; reflexivity.
Qed.

Lemma occurs_ext (f g : str -> option nat) :
  (forall s, f s = g s) -> forall s, occurs f s = occurs g s.
Proof.
  intros H s. induction s as [|c s IH]; cbn [occurs]; rewrite H, ?IH;
    reflexivity.
Qed.

Lemma drop_matches_skip (find : str -> option nat) (n : nat) (s : str) :
  drop_matches find n s = drop_matches find 0 (skipn n s).
Proof.
  revert n. induction s as [|c s IH]; intros [|n]; try reflexivity.
  cbn [drop_matches skipn]. apply IH.
Qed.

Lemma drop_matches_cons (find : str -> option nat) (c : char) (s : str) :
  drop_matches find 0 (c :: s) =
  match find (c :: s) with
  | Some (S n) => drop_matches find 0 (skipn n s)
  | _ => c :: drop_matches find 0 s
  end.
Proof.
  cbn [drop_matches]. destruct (find (c :: s)) as [[|n]|]; try reflexivity.
  apply drop_matches_skip.
Qed.

Lemma remove_all_nil (find : str -> option nat) (fuel : nat) :
  remove_all find fuel [] = [].
Proof.
  induction fuel as [|fuel IH]; [reflexivity|].
  cbn [remove_all]. destruct (find []) as [[|n]|]; try reflexivity.
  exact IH.
Qed.

Lemma drop_matches_remove_all (find : str -> option nat) (fuel : nat) :
  forall s, List.length s <= fuel ->
  drop_matches find 0 s = remove_all find fuel s.
Proof.
  induction fuel as [|fuel IH]; intros s Hs.
  - destruct s; [reflexivity | simpl in Hs; lia].
  - destruct s as [|c s].
    + rewrite remove_all_nil. reflexivity.
    + rewrite drop_matches_cons. cbn [remove_all]. simpl in Hs.
      destruct (find (c :: s)) as [[|n]|].
      * rewrite IH by lia. reflexivity.
      * cbn [skipn]. apply IH. rewrite length_skipn. lia.
      * rewrite IH by lia. reflexivity.
Qed.

Lemma drop_matches_spec_remove (find : str -> option nat) (s : str) :
  drop_matches find 0 s = spec_remove find s.
Proof. apply drop_matches_remove_all. apply Nat.le_refl. Qed.

(** An induction principle that follows the removal. *)
Lemma drop_matches_ind (find : str -> option nat) (P : str -> str -> Prop) :
  P [] [] ->
  (forall c s n,
      find (c :: s) = Some (S n) ->
      P (skipn n s) (drop_matches find 0 (skipn n s)) ->
      P (c :: s) (drop_matches find 0 (skipn n s))) ->
  (forall c s,
      find (c :: s) = None \/ find (c :: s) = Some 0 ->
      P s (drop_matches find 0 s) ->
      P (c :: s) (c :: drop_matches find 0 s)) ->
  forall s, P s (drop_matches find 0 s).
Proof.
  intros Hnil Hdrop Hkeep s.
  remember (List.length s) as m eqn:Hm.
  assert (Hle : List.length s <= m) by lia. clear Hm.
  revert s Hle. induction m as [|m IH]; intros s Hle.
  - destruct s; [exact Hnil | simpl in Hle; lia].
  - destruct s as [|c s]; [exact Hnil|]. simpl in Hle.
    rewrite drop_matches_cons.
    destruct (find (c :: s)) as [[|n]|] eqn:Hf.
    + apply Hkeep; [auto | apply IH; lia].
    + apply Hdrop; [exact Hf|]. apply IH. rewrite length_skipn. lia.
    + apply Hkeep; [auto | apply IH; lia].
Qed.

Lemma occurs_cons (find : str -> option nat) (c : char) (s : str) :
  occurs find s = true -> occurs find (c :: s) = true.
Proof.
  intros H. cbn [occurs]. destruct (find (c :: s)); [reflexivity | exact H].
Qed.

Lemma occurs_skipn (find : str -> option nat) (n : nat) (s : str) :
  occurs find (skipn n s) = true -> occurs find s = true.
Proof.
  revert s. induction n as [|n IH]; intros s; [exact (fun H => H)|].
  destruct s as [|c s]; [exact (fun H => H)|].
  cbn [skipn]. intros H. apply occurs_cons, IH, H.
Qed.

Lemma occurs_here (find : str -> option nat) (s : str) :
  find s <> None -> occurs find s = true.
Proof.
  intros H. destruct s; cbn [occurs]; destruct (find _); congruence.
Qed.

Lemma occurs_inv (find : str -> option nat) (c : char) (s : str) :
  occurs find (c :: s) = true ->
  find (c :: s) <> None \/ occurs find s = true.
Proof.
  cbn [occurs]. destruct (find (c :: s)); [left; discriminate | right; auto].
Qed.

(** [re.search] succeeds exactly on the strings with a substring that the
    pattern matches in full. *)
Lemma re_search_matches (r : regex) (s : str) :
  re_search r s = true <->
  exists a m b, s = a ++ m ++ b /\ matches r m.
Proof.
  unfold re_search. split.
  - induction s as [|c s IH]; cbn [occurs].
    + destruct (match_at r []) as [n|] eqn:Hm; [|discriminate].
      intros _. exists [], (firstn n []), (skipn n []).
      split; [symmetry; apply firstn_skipn | apply match_at_sound, Hm].
    + destruct (match_at r (c :: s)) as [n|] eqn:Hm.
      * intros _. exists [], (firstn n (c :: s)), (skipn n (c :: s)).
        split; [symmetry; apply firstn_skipn | apply match_at_sound, Hm].
      * intros H. destruct (IH H) as (a & m & b & -> & Hmatch).
        exists (c :: a), m, b. split; [reflexivity | exact Hmatch].
  - intros (a & m & b & -> & Hm). induction a as [|c a IH].
    + apply occurs_here. exact (match_at_complete r m b Hm).
    + apply occurs_cons, IH.
Qed.

Lemma drop_no_occurs (find : str -> option nat) (s : str) :
  occurs find s = false -> drop_matches find 0 s = s.
Proof.
  induction s as [|c s IH]; [reflexivity|].
  cbn [occurs]. rewrite drop_matches_cons.
  destruct (find (c :: s)); [discriminate|].
  intros H. rewrite (IH H). reflexivity.
Qed.

(** ** What the two finders find *)

Lemma strip_prefix_Some (w s rest : str) :
  strip_prefix w s = Some rest <-> s = w ++ rest.
Proof.
  revert s. induction w as [|a w IH]; intros s; cbn [strip_prefix app].
  - split; congruence.
  - destruct s as [|b s]; [split; discriminate|].
    destruct (N.eqb_spec b a) as [->|Hne].
    + rewrite IH. split; congruence.
    + split; [discriminate | congruence].
Qed.

Lemma run_ends_take_while (p : char -> bool) (s : str) :
  run_ends p (skipn (List.length (take_while p s)) s) = true.
Proof.
  induction s as [|c s IH]; [reflexivity|].
  cbn [take_while]. destruct (p c) eqn:Hc; [exact IH|].
  simpl. rewrite Hc. reflexivity.
Qed.

Lemma word_then_run_inv (w : str) (p : char -> bool) (s : str) (n : nat) :
  word_then_run w p s = Some n ->
  exists c t, s = w ++ c :: t /\ p c = true /\
              n = List.length w + List.length (take_while p (c :: t)).
Proof.
  unfold word_then_run.
  destruct (strip_prefix w s) as [[|c t]|] eqn:Hs; try discriminate.
  destruct (p c) eqn:Hc; [|discriminate].
  intros [= <-]. apply strip_prefix_Some in Hs. eauto.
Qed.

Lemma word_then_run_intro (w : str) (p : char -> bool) (c : char) (t : str) :
  p c = true -> word_then_run w p (w ++ c :: t) <> None.
Proof.
  intros Hc. unfold word_then_run.
  assert (strip_prefix w (w ++ c :: t) = Some (c :: t)) as ->
    by (apply strip_prefix_Some; reflexivity).
  rewrite Hc. discriminate.
Qed.

Lemma word_then_run_ends (w : str) (p : char -> bool) (s : str) (n : nat) :
  word_then_run w p s = Some n ->
  (exists m, n = S m) /\ run_ends p (skipn n s) = true.
Proof.
  intros H. apply word_then_run_inv in H as (c & t & -> & Hc & ->).
  split.
  - cbn [take_while]. rewrite Hc. simpl. rewrite Nat.add_succ_r. eauto.
  - rewrite <- (Nat.add_comm _ (List.length w)), <- skipn_skipn.
    rewrite skipn_app, skipn_all, Nat.sub_diag. cbn [app skipn].
    apply run_ends_take_while.
Qed.

Lemma first_of_inv (f g : str -> option nat) (s : str) (n : nat) :
  first_of f g s = Some n -> f s = Some n \/ g s = Some n.
Proof. unfold first_of. destruct (f s); auto. Qed.

Lemma first_of_left (f g : str -> option nat) (s : str) :
  f s <> None -> first_of f g s <> None.
Proof. unfold first_of. destruct (f s); congruence. Qed.

Lemma first_of_right (f g : str -> option nat) (s : str) :
  g s <> None -> first_of f g s <> None.
Proof. unfold first_of. destruct (f s); [discriminate | auto]. Qed.

Lemma at_break_run_ends (s : str) : at_break s = run_ends non_space s.
Proof.
  destruct s as [|c s]; [reflexivity|]. simpl. unfold non_space.
  rewrite negb_involutive. reflexivity.
Qed.

(** A URL match is one of the two shorter words and the run of
    non-whitespace characters after it. *)
Lemma spec_url_at_inv (s : str) (n : nat) :
  spec_url_at s = Some n ->
  exists w c t,
    forallb non_space w = true /\ w <> [] /\
    s = w ++ c :: t /\ non_space c = true /\
    (exists m, n = S m) /\ at_break (skipn n s) = true /\
    (forall t', spec_url_at (w ++ c :: t') <> None).
Proof.
  unfold spec_url_at. intros H.
  apply first_of_inv in H as [H|H]; [|apply first_of_inv in H as [H|H]].
  - pose proof (word_then_run_ends _ _ _ _ H) as [Hn He].
    apply word_then_run_inv in H as (c & t & Hs & Hc & _).
    exists (py "http"), c, t. rewrite at_break_run_ends.
    repeat split; auto; [discriminate|].
    intros t'. apply first_of_left, word_then_run_intro, Hc.
  - pose proof (word_then_run_ends _ _ _ _ H) as [Hn He].
    apply word_then_run_inv in H as (c & t & Hs & Hc & _).
    exists (py "www"), c, t. rewrite at_break_run_ends.
    repeat split; auto; [discriminate|].
    intros t'. apply first_of_right, first_of_left, word_then_run_intro, Hc.
  - pose proof (word_then_run_ends _ _ _ _ H) as [Hn He].
    apply word_then_run_inv in H as (c & t & Hs & Hc & _).
    exists (py "https"), c, t. rewrite at_break_run_ends.
    repeat split; auto; [discriminate|].
    intros t'.
    apply first_of_left.
    apply (word_then_run_intro (py "http") non_space 115%N (c :: t')).
    reflexivity.
Qed.

Lemma spec_url_at_head (s : str) (n : nat) :
  spec_url_at s = Some n -> at_break s = false.
Proof.
  intros H. apply spec_url_at_inv in H as (w & c & t & Hw & Hne & -> & _).
  destruct w as [|a w]; [congruence|].
  simpl in *. apply andb_true_iff in Hw as [Ha _].
  apply negb_true_iff in Ha. exact Ha.
Qed.

Lemma spec_url_at_ends (s : str) (n : nat) :
  spec_url_at s = Some n ->
  (exists m, n = S m) /\ at_break (skipn n s) = true.
Proof.
  intros H.
  apply spec_url_at_inv in H as (w & c & t & _ & _ & _ & _ & H1 & H2 & _).
  auto.
Qed.

Lemma spec_url_at_local : window_local non_space spec_url_at.
Proof.
  intros s n H.
  apply spec_url_at_inv in H as (w & c & t & Hw & _ & -> & Hc & _ & _ & Hy).
  exists (w ++ [c]), t. rewrite <- app_assoc. split; [reflexivity|].
  split.
  - rewrite forallb_app, Hw. simpl. rewrite Hc. reflexivity.
  - intros r'. rewrite <- app_assoc. apply Hy.
Qed.

Lemma non_space_not_space_char (c : char) :
  non_space c = true -> not_space_char c = true.
Proof.
  unfold non_space, not_space_char. intros H.
  destruct (N.eqb_spec c 32) as [->|]; [discriminate H | reflexivity].
Qed.

Lemma window_local_weaken (ok ok' : char -> bool) (find : str -> option nat) :
  (forall c, ok c = true -> ok' c = true) ->
  window_local ok find -> window_local ok' find.
Proof.
  intros Hok H s n Hs. destruct (H s n Hs) as (x & r & -> & Hx & Hy).
  exists x, r. repeat split; auto.
  rewrite forallb_forall in *. auto.
Qed.

Section Tags.

Variable u : char -> bool.

(** A tag match is [@] or [#] and the run of word characters after it. *)
Lemma spec_tag_at_inv (s : str) (n : nat) :
  spec_tag_at u s = Some n ->
  exists c x t,
    s = c :: x :: t /\ (c = 64 \/ c = 35)%N /\ is_word u x = true /\
    (exists m, n = S m) /\ at_nonword u (skipn n s) = true.
Proof.
  unfold spec_tag_at. intros H. apply first_of_inv in H as [H|H];
    pose proof (word_then_run_ends _ _ _ _ H) as [Hn He];
    apply word_then_run_inv in H as (x & t & Hs & Hx & _).
  - exists 64%N, x, t. repeat split; auto.
  - exists 35%N, x, t. repeat split; auto.
Qed.

Lemma spec_tag_at_intro (c x : char) (t : str) :
  (c = 64 \/ c = 35)%N -> is_word u x = true ->
  spec_tag_at u (c :: x :: t) <> None.
Proof.
  intros [->| ->] Hx; unfold spec_tag_at.
  - apply first_of_left.
    apply (word_then_run_intro (py "@") (is_word u) x t Hx).
  - apply first_of_right.
    apply (word_then_run_intro (py "#") (is_word u) x t Hx).
Qed.

Lemma spec_tag_at_head (s : str) (n : nat) :
  spec_tag_at u s = Some n -> at_break s = false.
Proof.
  intros H. apply spec_tag_at_inv in H as (c & x & t & -> & [->| ->] & _);
    reflexivity.
Qed.

Lemma is_word_not_space_char (x : char) :
  is_word u x = true -> not_space_char x = true.
Proof.
  unfold not_space_char. destruct (N.eqb_spec x 32) as [->|]; [|reflexivity].
  discriminate.
Qed.

Lemma spec_tag_at_local : window_local not_space_char (spec_tag_at u).
Proof.
  intros s n H.
  apply spec_tag_at_inv in H as (c & x & t & -> & Hc & Hx & _).
  exists [c; x], t. split; [reflexivity|]. split.
  - simpl. rewrite (is_word_not_space_char x Hx).
    destruct Hc as [->| ->]; reflexivity.
  - intros r'. apply spec_tag_at_intro; assumption.
Qed.

End Tags.

(** ** No match is left, and none is created *)

Section TokenFinder.

(** A finder whose matches start at a non-whitespace character, run to the
    end of the token, and are decided by non-whitespace characters. *)
Variable find : str -> option nat.
Hypothesis find_head : forall s n, find s = Some n -> at_break s = false.
Hypothesis find_ends : forall s n, find s = Some n ->
  (exists m, n = S m) /\ at_break (skipn n s) = true.
Hypothesis find_local : window_local non_space find.

Lemma drop_prefix_agrees (s : str) :
  forall x r', drop_matches find 0 s = x ++ r' ->
  forallb non_space x = true -> exists r, s = x ++ r.
Proof.
  apply (drop_matches_ind find
    (fun s out => forall x r', out = x ++ r' ->
       forallb non_space x = true -> exists r, s = x ++ r)).
  - intros x r' H _. destruct x; [exists []; reflexivity | discriminate].
  - intros c s' n Hf _ x r' Hout Hx.
    destruct x as [|a x]; [exists (c :: s'); reflexivity|].
    exfalso. simpl in Hx. apply andb_true_iff in Hx as [Ha _].
    apply negb_true_iff in Ha.
    destruct (find_ends _ _ Hf) as [_ Hb]. cbn [skipn] in Hb.
    destruct (skipn n s') as [|d rest]; [discriminate Hout|].
    simpl in Hb. rewrite drop_matches_cons in Hout.
    destruct (find (d :: rest)) as [k|] eqn:Hd.
    + apply find_head in Hd. simpl in Hd. congruence.
    + injection Hout as <- _. congruence.
  - intros c s' _ IH x r' Hout Hx.
    destruct x as [|a x]; [exists (c :: s'); reflexivity|].
    injection Hout as <- Hout. simpl in Hx.
    apply andb_true_iff in Hx as [_ Hx].
    destruct (IH _ _ Hout Hx) as [r ->]. exists r. reflexivity.
Qed.

Lemma drop_keeps_none (c : char) (s : str) :
  find (c :: s) = None -> find (c :: drop_matches find 0 s) = None.
Proof.
  intros Hnone. destruct (find (c :: drop_matches find 0 s)) as [n|] eqn:Hf;
    [|reflexivity].
  exfalso. destruct (find_local _ _ Hf) as (x & r' & Hs & Hx & Hy).
  destruct x as [|a x].
  - apply (Hy (c :: s)). exact Hnone.
  - injection Hs as <- Hs. simpl in Hx. apply andb_true_iff in Hx as [_ Hx].
    destruct (drop_prefix_agrees _ _ _ Hs Hx) as [r ->].
    apply (Hy r). exact Hnone.
Qed.

Lemma drop_leaves_none (s : str) :
  occurs find (drop_matches find 0 s) = false.
Proof.
  apply (drop_matches_ind find (fun _ out => occurs find out = false)).
  - cbn [occurs]. destruct (find []) as [n|] eqn:Hf; [|reflexivity].
    apply find_head in Hf. discriminate.
  - auto.
  - intros c s' [Hf|Hf] IH.
    + cbn [occurs]. rewrite (drop_keeps_none _ _ Hf). exact IH.
    + destruct (find_ends _ _ Hf) as [[m Hm] _]. discriminate.
Qed.

End TokenFinder.

Section SqueezeFinder.

(** A finder whose matches start at a non-whitespace character and are
    decided by characters other than the space. *)
Variable find : str -> option nat.
Hypothesis find_head : forall s n, find s = Some n -> at_break s = false.
Hypothesis find_local : window_local not_space_char find.

Lemma squeeze_prefix_agrees (s : str) :
  at_break s = false ->
  forall x r', squeeze s = x ++ r' ->
  forallb not_space_char x = true -> exists r, s = x ++ r.
Proof.
  induction s as [|c s IH]; [discriminate|].
  cbn [at_break squeeze]. intros Hc x r' Hs Hx. rewrite Hc in Hs.
  destruct x as [|a x]; [exists (c :: s); reflexivity|].
  simpl in Hx. apply andb_true_iff in Hx as [_ Hx].
  destruct (at_break s) eqn:Hb.
  - assert (x = []) as ->.
    { destruct (squeeze s); injection Hs as _ Hs;
        destruct x as [|b x]; try reflexivity; try discriminate.
      injection Hs as <- _. discriminate Hx. }
    exists s. destruct (squeeze s); injection Hs as <- _; reflexivity.
  - injection Hs as <- Hs. destruct (IH eq_refl _ _ Hs Hx) as [r ->].
    exists r. reflexivity.
Qed.

Lemma squeeze_no_new_match_here (s : str) :
  at_break s = false -> find (squeeze s) <> None -> find s <> None.
Proof.
  intros Hb Hf. destruct (find (squeeze s)) as [n|] eqn:Hn; [|congruence].
  destruct (find_local _ _ Hn) as (x & r' & Hs & Hx & Hy).
  destruct (squeeze_prefix_agrees s Hb _ _ Hs Hx) as [r ->]. apply Hy.
Qed.

Lemma find_at_break (s : str) : at_break s = true -> find s = None.
Proof.
  intros Hb. destruct (find s) as [n|] eqn:Hf; [|reflexivity].
  apply find_head in Hf. congruence.
Qed.

Lemma squeeze_no_new_match (s : str) :
  occurs find (squeeze s) = true -> occurs find s = true.
Proof.
  induction s as [|c s IH]; [exact (fun H => H)|].
  destruct (Py_UNICODE_ISSPACE c) eqn:Hc.
  - cbn [squeeze]. rewrite Hc. intros H. apply occurs_cons, IH, H.
  - intros H.
    destruct (find (squeeze (c :: s))) as [n|] eqn:Hf.
    + apply occurs_here, squeeze_no_new_match_here; [exact Hc | congruence].
    + apply occurs_cons, IH.
      cbn [squeeze] in H, Hf. rewrite Hc in H, Hf.
      destruct (at_break s).
      * destruct (squeeze s) as [|d q].
        -- cbn [occurs] in H. rewrite Hf in H.
           rewrite (find_at_break []) in H by reflexivity. discriminate.
        -- cbn [occurs] in H. rewrite Hf in H.
           rewrite (find_at_break (32%N :: d :: q)) in H by reflexivity.
           cbn [occurs]. exact H.
      * cbn [occurs] in H. rewrite Hf in H.
        destruct (squeeze s); exact H.
Qed.

End SqueezeFinder.

Section TagRemoval.

Variable u : char -> bool.

Local Abbreviation tag := (spec_tag_at u).

Lemma drop_tags_at_nonword (s : str) :
  at_nonword u s = true -> at_nonword u (drop_matches tag 0 s) = true.
Proof.
  apply (drop_matches_ind tag
    (fun s out => at_nonword u s = true -> at_nonword u out = true)).
  - auto.
  - intros c s' n Hf IH _. apply IH.
    apply spec_tag_at_inv in Hf as (_ & _ & _ & _ & _ & _ & _ & H). exact H.
  - intros c s' _ _ H. exact H.
Qed.

(** A word character that survives the removal stood at the same place. *)
Lemma drop_tags_word_head (s : str) (x : char) (y : str) :
  drop_matches tag 0 s = x :: y -> is_word u x = true ->
  exists s1, s = x :: s1 /\ drop_matches tag 0 s1 = y.
Proof.
  destruct s as [|c s]; [discriminate|].
  rewrite drop_matches_cons. intros H Hx.
  destruct (tag (c :: s)) as [[|n]|] eqn:Hf;
    try (injection H as <- <-; eauto; fail).
  exfalso.
  apply spec_tag_at_inv in Hf as (_ & _ & _ & _ & _ & _ & _ & He).
  cbn [skipn] in He. apply drop_tags_at_nonword in He.
  rewrite H in He. simpl in He. rewrite Hx in He.
  discriminate.
Qed.

Lemma drop_tags_word_prefix (w : str) :
  forallb (is_word u) w = true ->
  forall s y, drop_matches tag 0 s = w ++ y ->
  exists s1, s = w ++ s1 /\ drop_matches tag 0 s1 = y.
Proof.
  induction w as [|a w IH]; intros Hw s y H; [exists s; auto|].
  simpl in Hw. apply andb_true_iff in Hw as [Ha Hw].
  destruct (drop_tags_word_head _ _ _ H Ha) as (s1 & -> & H1).
  destruct (IH Hw _ _ H1) as (s2 & -> & H2). exists s2. auto.
Qed.

(** What survives the removal starts as the text did, or the text started
    with a tag. *)
Lemma drop_tags_head_non_space (s : str) (d : char) (y : str) :
  drop_matches tag 0 s = d :: y -> non_space d = true ->
  exists e s2, s = e :: s2 /\ non_space e = true.
Proof.
  destruct s as [|e s2]; [discriminate|].
  rewrite drop_matches_cons. intros H Hd. exists e, s2. split; [reflexivity|].
  destruct (tag (e :: s2)) as [[|n]|] eqn:Hf;
    try (injection H as <- _; exact Hd; fail).
  apply spec_tag_at_head in Hf. simpl in Hf.
  unfold non_space. rewrite Hf. reflexivity.
Qed.

Lemma drop_tags_no_new_url_here (c : char) (s : str) :
  spec_url_at (c :: drop_matches tag 0 s) <> None ->
  spec_url_at (c :: s) <> None.
Proof.
  intros H. destruct (spec_url_at (c :: drop_matches tag 0 s)) as [n|] eqn:Hf;
    [clear H | congruence].
  unfold spec_url_at in Hf.
  assert (exists w d t,
             forallb (is_word u) w = true /\
             drop_matches tag 0 s = w ++ d :: t /\
             non_space d = true /\
             forall e t', non_space e = true ->
                          spec_url_at (c :: w ++ e :: t') <> None)
    as (w & d & t & Hw & Hs & Hd & Hy).
  { apply first_of_inv in Hf as [Hf|Hf]; [|apply first_of_inv in Hf as [Hf|Hf]];
      apply word_then_run_inv in Hf as (d & t & Hs & Hd & _);
      injection Hs as -> Hs.
    - exists (py "ttp"), d, t. split; [reflexivity|]. repeat split; auto.
      intros e t' He. apply first_of_left.
      apply (word_then_run_intro (py "http") non_space e t' He).
    - exists (py "ww"), d, t. split; [reflexivity|]. repeat split; auto.
      intros e t' He. apply first_of_right, first_of_left.
      apply (word_then_run_intro (py "www") non_space e t' He).
    - exists (py "ttps"), d, t. split; [reflexivity|]. repeat split; auto.
      intros e t' He. apply first_of_left.
      apply (word_then_run_intro (py "http") non_space 115%N (e :: t')).
      reflexivity. }
  destruct (drop_tags_word_prefix w Hw _ _ Hs) as (s1 & -> & H1).
  destruct (drop_tags_head_non_space _ _ _ H1 Hd) as (e & s2 & -> & He).
  apply Hy, He.
Qed.

Lemma drop_tags_no_new_url (s : str) :
  occurs spec_url_at (drop_matches tag 0 s) = true ->
  occurs spec_url_at s = true.
Proof.
  apply (drop_matches_ind tag
    (fun s out => occurs spec_url_at out = true ->
                  occurs spec_url_at s = true)).
  - auto.
  - intros c s' n _ IH H.
    apply occurs_cons, (occurs_skipn _ n), IH, H.
  - intros c s' _ IH H. apply occurs_inv in H as [H|H].
    + apply occurs_here, drop_tags_no_new_url_here, H.
    + apply occurs_cons, IH, H.
Qed.

Lemma drop_tags_leaves_none (s : str) :
  occurs tag (drop_matches tag 0 s) = false.
Proof.
  apply (drop_matches_ind tag (fun _ out => occurs tag out = false)).
  - reflexivity.
  - auto.
  - intros c s' Hnone IH. cbn [occurs].
    destruct (tag (c :: drop_matches tag 0 s')) as [n|] eqn:Hf; [|exact IH].
    exfalso.
    apply spec_tag_at_inv in Hf as (c' & x & t & Hs & Hc & Hx & _).
    injection Hs as <- Hs.
    destruct (drop_tags_word_head _ _ _ Hs Hx) as (s1 & -> & _).
    pose proof (spec_tag_at_intro u _ _ s1 Hc Hx) as Hin.
    destruct Hnone as [Hn|Hn]; [congruence|].
    apply spec_tag_at_inv in Hn as (_ & _ & _ & _ & _ & _ & [m Hm] & _).
    discriminate.
Qed.

End TagRemoval.

(** ** The cleaner *)

Lemma squeeze_lstrip (t : str) : squeeze (lstrip t) = squeeze t.
Proof.
  induction t as [|c t IH]; [reflexivity|].
  cbn [lstrip]. destruct (Py_UNICODE_ISSPACE c) eqn:Hc; [|reflexivity].
  cbn [squeeze]. rewrite Hc. exact IH.
Qed.

Lemma lstrip_collapse (t : str) :
  lstrip (spec_collapse t) = spec_collapse (lstrip t).
Proof.
  induction t as [|c t IH]; [reflexivity|].
  cbn [spec_collapse lstrip].
  destruct (Py_UNICODE_ISSPACE c) eqn:Hc.
  - destruct t as [|d t]; [reflexivity|].
    destruct (Py_UNICODE_ISSPACE d) eqn:Hd; [exact IH|].
    change (lstrip (32%N :: spec_collapse (d :: t)))
      with (lstrip (spec_collapse (d :: t))).
    exact IH.
  - cbn [lstrip spec_collapse]. rewrite Hc. reflexivity.
Qed.

Lemma trim_end_collapse (t : str) :
  trim_end (spec_collapse t) =
  if at_break t then
    match squeeze t with [] => [] | r => 32%N :: r end
  else squeeze t.
Proof.
  induction t as [|c t IH]; [reflexivity|].
  cbn [spec_collapse squeeze at_break].
  destruct (Py_UNICODE_ISSPACE c) eqn:Hc.
  - destruct t as [|d t]; [reflexivity|].
    cbn [at_break] in IH.
    destruct (Py_UNICODE_ISSPACE d) eqn:Hd; [exact IH|].
    cbn [trim_end]. rewrite IH.
    destruct (squeeze (d :: t)); reflexivity.
  - cbn [trim_end]. rewrite IH, Hc.
    destruct (at_break t); destruct (squeeze t); reflexivity.
Qed.

Lemma spec_trim_collapse (t : str) :
  spec_trim (spec_collapse t) = squeeze t.
Proof.
  unfold spec_trim. rewrite lstrip_collapse, trim_end_collapse.
  rewrite squeeze_lstrip.
  destruct (at_break (lstrip t)) eqn:Hb; [|reflexivity].
  assert (lstrip t = []) as Hl.
  { clear -Hb. induction t as [|c t IH]; [reflexivity|].
    cbn [lstrip] in *. destruct (Py_UNICODE_ISSPACE c) eqn:Hc; [auto|].
    simpl in Hb. congruence. }
  rewrite <- (squeeze_lstrip t), Hl. reflexivity.
Qed.

Section CleanText.

Variable u : char -> bool.

Lemma clean_text_squeeze (s : str) :
  clean_text u s =
  squeeze (drop_matches (spec_tag_at u) 0 (drop_matches spec_url_at 0 s)).
Proof.
  unfold clean_text, re_sub_empty. rewrite strip_join_split.
  rewrite (drop_matches_ext _ _ match_at_url).
  rewrite (drop_matches_ext _ _ (match_at_tag u)). reflexivity.
Qed.

Lemma clean_text_no_url (s : str) :
  occurs spec_url_at (clean_text u s) = false.
Proof.
  rewrite clean_text_squeeze.
  apply not_true_is_false. intros H.
  apply (squeeze_no_new_match spec_url_at spec_url_at_head) in H.
  2: { apply (window_local_weaken non_space); [|exact spec_url_at_local].
       exact non_space_not_space_char. }
  apply drop_tags_no_new_url in H.
  rewrite (drop_leaves_none spec_url_at spec_url_at_head spec_url_at_ends
             spec_url_at_local) in H.
  discriminate.
Qed.

Lemma clean_text_no_tag (s : str) :
  occurs (spec_tag_at u) (clean_text u s) = false.
Proof.
  rewrite clean_text_squeeze.
  apply not_true_is_false. intros H.
  apply (squeeze_no_new_match (spec_tag_at u) (spec_tag_at_head u)
           (spec_tag_at_local u)) in H.
  rewrite drop_tags_leaves_none in H. discriminate.
Qed.

Lemma clean_text_normalized (s : str) : normalized (clean_text u s) = true.
Proof. rewrite clean_text_squeeze. apply squeeze_normalized. Qed.

End CleanText.

Lemma occurs_app (find : str -> option nat) (a t : str) :
  occurs find (a ++ t) = false -> find t = None.
Proof.
  induction a as [|c a IH]; cbn [app].
  - destruct t; cbn [occurs]; destruct (find _); congruence.
  - cbn [occurs]. destruct (find (c :: a ++ t)); [discriminate | exact IH].
Qed.

Lemma occurs_all_space (find : str -> option nat) (s : str) :
  (forall s n, find s = Some n -> at_break s = false) ->
  forallb Py_UNICODE_ISSPACE s = true -> occurs find s = false.
Proof.
  intros Hhead. induction s as [|c s IH]; cbn [forallb occurs]; intros H.
  - destruct (find []) eqn:Hf; [|reflexivity].
    apply Hhead in Hf. discriminate.
  - apply andb_true_iff in H as [Hc H].
    destruct (find (c :: s)) eqn:Hf; [|auto].
    apply Hhead in Hf. simpl in Hf. congruence.
Qed.

Lemma normalized_no_trailing (t : str) (c : char) :
  single_spaced (t ++ [c]) = true -> Py_UNICODE_ISSPACE c = false.
Proof.
  intros H. destruct (Py_UNICODE_ISSPACE c) eqn:Hc; [|reflexivity].
  destruct (single_spaced_at t c [] H Hc) as [_ Hb]. discriminate.
Qed.

(** ** The cleaner: idempotence, removal, the three steps, whitespace *)

(** C3. For every input string [s], cleaning is idempotent:
    [clean_text(clean_text(s)) == clean_text(s)], whatever the Unicode
    table of alphanumeric characters is. *)
Theorem clean_text_idempotent (unicode_isalnum : char -> bool) (s : str) :
  clean_text unicode_isalnum (clean_text unicode_isalnum s)
  = clean_text unicode_isalnum s.
Proof.
  rewrite (clean_text_squeeze unicode_isalnum (clean_text unicode_isalnum s)).
  rewrite (drop_no_occurs _ _ (clean_text_no_url unicode_isalnum s)).
  rewrite (drop_no_occurs _ _ (clean_text_no_tag unicode_isalnum s)).
  apply squeeze_fix, clean_text_normalized.
Qed.

Lemma url_word_found (w : str) (c : char) (b : str) :
  In w [py "http"; py "www"; py "https"] -> non_space c = true ->
  spec_url_at (w ++ c :: b) <> None.
Proof.
  unfold spec_url_at. intros [<-|[<-|[<-|[]]]] Hc.
  - apply first_of_left, word_then_run_intro, Hc.
  - apply first_of_right, first_of_left, word_then_run_intro, Hc.
  - apply first_of_left.
    apply (word_then_run_intro (py "http") non_space 115%N (c :: b)).
    reflexivity.
Qed.

(** C5. For every input string, the cleaned text has no match of the URL
    pattern and none of the mention and hashtag pattern, wherever in the
    input they were: [re.search] finds neither, no [http], [www] or [https]
    is followed by a non-whitespace character, no [@] or [#] is followed
    by a word character, and no substring is matched in full by either
    pattern.  The cleaned text of
    ["Check out this link: https://example.com @user #hashtag"] contains
    none of ["https://"], ["@user"], ["#hashtag"]. *)
Theorem clean_text_removes_urls_and_tags
  (unicode_isalnum : char -> bool) (s : str) :
  let cleaned := clean_text unicode_isalnum s in
  re_search url_pattern cleaned = false /\
  re_search (tag_pattern unicode_isalnum) cleaned = false /\
  (forall a w c b,
      In w [py "http"; py "www"; py "https"] -> non_space c = true ->
      cleaned <> a ++ w ++ c :: b) /\
  (forall a c x b,
      In c (py "@#") -> is_word unicode_isalnum x = true ->
      cleaned <> a ++ c :: x :: b) /\
  (forall a m b, matches url_pattern m -> cleaned <> a ++ m ++ b) /\
  (forall a m b,
      matches (tag_pattern unicode_isalnum) m -> cleaned <> a ++ m ++ b) /\
  let scenario :=
    clean_text unicode_isalnum
      (py "Check out this link: https://example.com @user #hashtag") in
  contains (py "https://") scenario = false /\
  contains (py "@user") scenario = false /\
  contains (py "#hashtag") scenario = false.
Proof.
  intros cleaned.
  pose proof (clean_text_no_url unicode_isalnum s) as Hu.
  pose proof (clean_text_no_tag unicode_isalnum s) as Ht.
  fold cleaned in Hu, Ht.
  split; [|split; [|split; [|split; [|split; [|split]]]]].
  - unfold re_search. rewrite (occurs_ext _ _ match_at_url). exact Hu.
  - unfold re_search.
    rewrite (occurs_ext _ _ (match_at_tag unicode_isalnum)). exact Ht.
  - intros a w c b Hw Hc E. rewrite E in Hu.
    apply occurs_app in Hu. exact (url_word_found w c b Hw Hc Hu).
  - intros a c x b Hc Hx E. rewrite E in Ht.
    apply occurs_app in Ht.
    refine (spec_tag_at_intro unicode_isalnum c x b _ Hx Ht).
    destruct Hc as [<-|[<-|[]]]; auto.
  - intros a m b Hm E. rewrite E in Hu. apply occurs_app in Hu.
    rewrite <- match_at_url in Hu.
    exact (match_at_complete url_pattern m b Hm Hu).
  - intros a m b Hm E. rewrite E in Ht. apply occurs_app in Ht.
    rewrite <- match_at_tag in Ht.
    exact (match_at_complete (tag_pattern unicode_isalnum) m b Hm Ht).
  - intros scenario. repeat split; vm_compute; reflexivity.
Qed.

(** C6. [clean_text] is the composition of the three steps of the
    specification, in this order: remove the URL substrings across the
    whole string, then the [@token] and [#token] substrings, then collapse
    the whitespace runs to single spaces and trim both ends. *)
Theorem clean_text_three_steps (unicode_isalnum : char -> bool) (s : str) :
  clean_text unicode_isalnum s = spec_clean unicode_isalnum s.
Proof.
  rewrite clean_text_squeeze. unfold spec_clean.
  rewrite spec_trim_collapse, <- !drop_matches_spec_remove. reflexivity.
Qed.

(** C10. For every input string, the cleaned text is whitespace-normalized:
    it neither starts nor ends with a whitespace character, no two
    whitespace characters are adjacent, and every whitespace character in
    it is a space; a text of whitespace only cleans to the empty string. *)
Theorem clean_text_whitespace_normalized
  (unicode_isalnum : char -> bool) (s : str) :
  let cleaned := clean_text unicode_isalnum s in
  (forall c t, cleaned = c :: t -> Py_UNICODE_ISSPACE c = false) /\
  (forall t c, cleaned = t ++ [c] -> Py_UNICODE_ISSPACE c = false) /\
  (forall a c d b, cleaned = a ++ c :: d :: b ->
      Py_UNICODE_ISSPACE c = true -> Py_UNICODE_ISSPACE d = false) /\
  (forall a c b, cleaned = a ++ c :: b ->
      Py_UNICODE_ISSPACE c = true -> c = 32%N) /\
  (forallb Py_UNICODE_ISSPACE s = true -> cleaned = []).
Proof.
  intros cleaned.
  pose proof (clean_text_normalized unicode_isalnum s) as Hn.
  fold cleaned in Hn. unfold normalized in Hn.
  apply andb_true_iff in Hn as [Hh Hs].
  split; [|split; [|split; [|split]]].
  - intros c t E. rewrite E in Hh. apply negb_true_iff in Hh. exact Hh.
  - intros t c E. rewrite E in Hs. exact (normalized_no_trailing t c Hs).
  - intros a c d b E Hc. rewrite E in Hs.
    destruct (single_spaced_at a c (d :: b) Hs Hc) as [_ Hd]. exact Hd.
  - intros a c b E Hc. rewrite E in Hs.
    destruct (single_spaced_at a c b Hs Hc) as [H32 _]. exact H32.
  - intros Hall. unfold cleaned. rewrite clean_text_squeeze.
    rewrite (drop_no_occurs spec_url_at s)
      by (apply occurs_all_space; [exact spec_url_at_head | exact Hall]).
    rewrite (drop_no_occurs (spec_tag_at unicode_isalnum) s)
      by (apply occurs_all_space;
          [exact (spec_tag_at_head unicode_isalnum) | exact Hall]).
    apply squeeze_all_space, Hall.
Qed.

(** ** The classifier *)

Lemma SFcompare_antisym (x y : float) :
  SFcompare y x = option_map CompOpp (SFcompare x y).
Proof.
  destruct x as [sx|sx| |sx mx ex], y as [sy|sy| |sy my ey];
    try destruct sx; try destruct sy; try reflexivity;
    cbn [SFcompare option_map]; f_equal;
    rewrite (Z.compare_antisym ex ey); destruct (ex ?= ey)%Z;
    cbn [CompOpp]; try reflexivity;
    rewrite (Pos.compare_cont_antisym mx my Eq); reflexivity.
Qed.

Lemma SFcompare_finite_defined (p : float) (s : bool) (m : positive) (e : Z) :
  p <> S754_nan -> SFcompare p (S754_finite s m e) <> None.
Proof. destruct p; [discriminate..|congruence|discriminate]. Qed.

(** Away from NaN, neither above [0.1] nor below [-0.1] is
    [-0.1 <= p <= 0.1]. *)
Lemma between_thresholds (p : float) :
  p <> S754_nan ->
  (py_gt p f0_1 = false /\ py_lt p (py_neg f0_1) = false <->
   py_le (py_neg f0_1) p = true /\ py_le p f0_1 = true).
Proof.
  intros Hp. unfold py_gt, py_lt, py_le, SFltb, SFleb.
  rewrite (SFcompare_antisym p f0_1).
  rewrite (SFcompare_antisym p (py_neg f0_1)).
  pose proof (SFcompare_finite_defined p false 7205759403792794 (-56) Hp) as H1.
  pose proof (SFcompare_finite_defined p true 7205759403792794 (-56) Hp) as H2.
  change (S754_finite false 7205759403792794 (-56)) with f0_1 in H1.
  change (S754_finite true 7205759403792794 (-56)) with (py_neg f0_1) in H2.
  destruct (SFcompare p f0_1) as [[| |]|];
    destruct (SFcompare p (py_neg f0_1)) as [[| |]|];
    try congruence; cbn [option_map CompOpp]; split; intros [? ?];
    split; congruence.
Qed.

Lemma not_below_and_above (p : float) :
  py_lt p (py_neg f0_1) = true -> py_gt p f0_1 = false.
Proof.
  destruct p as [[|]|[|]| |[|] m e]; intros H;
    try reflexivity; discriminate H.
Qed.

Section ClassifierFacts.

Variable u : char -> bool.
Variable score : str -> outcome (float * float).

Lemma analyze_sentiment_scored (text : str) (w : World) (p sub : float) :
  score (clean_text u text) = Returns (p, sub) ->
  analyze_sentiment u score text w = (Returns (scored u text p sub), w).
Proof.
  intros H. unfold analyze_sentiment, try_except, bind, lift, ret.
  rewrite H. reflexivity.
Qed.

Lemma analyze_sentiment_failed (text : str) (w : World) (e : str) :
  score (clean_text u text) = Raises e ->
  analyze_sentiment u score text w =
  (Returns (neutral_default text),
   {| self := self w;
      handled := handled w ++
        [{| name := logger (self w); levelname := ERROR;
            message := py "Error analyzing sentiment: " ++ e |}] |}).
Proof.
  intros H. unfold analyze_sentiment, try_except, bind, lift, ret.
  rewrite H. reflexivity.
Qed.

(** Every call returns, its result does not depend on the world, the
    analyzer object is left as it was and the log only grows. *)
Lemma analyze_sentiment_runs (text : str) (w : World) :
  exists r w',
    analyze_sentiment u score text w = (Returns r, w') /\
    self w' = self w /\
    (exists records, handled w' = handled w ++ records) /\
    forall w0, fst (analyze_sentiment u score text w0) = Returns r.
Proof.
  destruct (score (clean_text u text)) as [[p sub]|e] eqn:Hs.
  - exists (scored u text p sub), w.
    rewrite (analyze_sentiment_scored text w p sub Hs).
    repeat split; [exists []; symmetry; apply app_nil_r|].
    intros w0. rewrite (analyze_sentiment_scored text w0 p sub Hs).
    reflexivity.
  - eexists _, _. rewrite (analyze_sentiment_failed text w e Hs).
    split; [reflexivity|]. split; [reflexivity|].
    split; [eexists; reflexivity|].
    intros w0. rewrite (analyze_sentiment_failed text w0 e Hs). reflexivity.
Qed.

Lemma iterrows_loop_runs (rows : list TextRecord) :
  forall (acc : list SentimentResult) (w : World),
  exists rs w',
    iterrows_loop u score rows acc w = (Returns (acc ++ rs), w') /\
    self w' = self w /\
    Forall2 (fun tweet r =>
               forall w0,
                 fst (analyze_sentiment u score (text tweet) w0) = Returns r)
            rows rs.
Proof.
  induction rows as [|tweet rows IH]; intros acc w.
  - exists [], w. cbn [iterrows_loop]. unfold ret. rewrite app_nil_r.
    repeat split. constructor.
  - destruct (analyze_sentiment_runs (text tweet) w)
      as (r & w1 & Hr & Hself & _ & Hpure).
    destruct (IH (acc ++ [r]) w1) as (rs & w' & Hrs & Hself' & Hall).
    exists (r :: rs), w'. cbn [iterrows_loop]. unfold bind at 1.
    rewrite Hr, Hrs, <- app_assoc. repeat split.
    + congruence.
    + constructor; assumption.
Qed.

Lemma concat_axis1_aligned {A B} (R : A -> B -> Prop)
  (a : list A) (b : list B) :
  Forall2 R a b ->
  List.length (concat_axis1 a b) = List.length a /\
  forall i x, nth_error a i = Some x ->
  exists y, nth_error (concat_axis1 a b) i = Some (Some x, Some y) /\ R x y.
Proof.
  induction 1 as [|x y a b Hxy _ [IHlen IHnth]]; cbn [concat_axis1].
  - split; [reflexivity|]. intros [|i] x H; discriminate H.
  - split; [simpl; congruence|].
    intros [|i] x' H; cbn [nth_error] in *.
    + injection H as <-. eauto.
    + apply IHnth, H.
Qed.

End ClassifierFacts.

(** C1. For every polarity the scorer returns, [analyze_sentiment] labels
    it by the threshold rule: [positive] exactly when [polarity > 0.1],
    [negative] exactly when [polarity < -0.1], [neutral] exactly when
    neither holds; the two conditions exclude each other, and a polarity
    of exactly [0.1] or [-0.1] is [neutral]. *)
Theorem sentiment_label_threshold_rule
  (unicode_isalnum : char -> bool)
  (TextBlob_sentiment : str -> outcome (float * float))
  (text : str) (w : World) (p sub : float) :
  TextBlob_sentiment (clean_text unicode_isalnum text) = Returns (p, sub) ->
  exists r w',
    analyze_sentiment unicode_isalnum TextBlob_sentiment text w
      = (Returns r, w') /\
    polarity r = p /\
    (sentiment_label r = py "positive" <-> py_gt p f0_1 = true) /\
    (sentiment_label r = py "negative" <-> py_lt p (py_neg f0_1) = true) /\
    (sentiment_label r = py "neutral" <->
       py_gt p f0_1 = false /\ py_lt p (py_neg f0_1) = false) /\
    (py_gt p f0_1 = true -> py_lt p (py_neg f0_1) = false) /\
    (p <> S754_nan ->
     (sentiment_label r = py "neutral" <->
        py_le (py_neg f0_1) p = true /\ py_le p f0_1 = true)) /\
    (p = f0_1 \/ p = py_neg f0_1 -> sentiment_label r = py "neutral").
Proof.
  intros Hs. exists (scored unicode_isalnum text p sub), w.
  split; [apply analyze_sentiment_scored, Hs|].
  split; [reflexivity|].
  pose proof (not_below_and_above p) as Hex.
  pose proof (between_thresholds p) as Hin.
  cbn [scored sentiment_label].
  destruct (py_gt p f0_1) eqn:Hgt; destruct (py_lt p (py_neg f0_1)) eqn:Hlt;
    try (specialize (Hex eq_refl); discriminate Hex);
    (repeat split; try reflexivity; try discriminate;
     try (intros [? ?]; discriminate);
     try (intros [-> | ->]; discriminate);
     try (intros; apply Hin; auto; fail);
     try (intros Hr; apply Hin in Hr;
          [destruct Hr; discriminate | assumption])).
Qed.

(** C2. For every input string, [analyze_sentiment] returns and never
    raises; when the scorer fails on the cleaned text, what it returns is
    the neutral default: the original text as [cleaned_text], [0.0],
    [0.0], ['neutral'], [0.0]. *)
Theorem analyze_sentiment_never_raises
  (unicode_isalnum : char -> bool)
  (TextBlob_sentiment : str -> outcome (float * float))
  (text : str) (w : World) :
  (exists r w',
      analyze_sentiment unicode_isalnum TextBlob_sentiment text w
        = (Returns r, w')) /\
  (forall e,
      TextBlob_sentiment (clean_text unicode_isalnum text) = Raises e ->
      fst (analyze_sentiment unicode_isalnum TextBlob_sentiment text w)
      = Returns {| cleaned_text := text;
                   polarity := f0_0;
                   subjectivity := f0_0;
                   sentiment_label := py "neutral";
                   confidence := f0_0 |}).
Proof.
  split.
  - destruct (analyze_sentiment_runs unicode_isalnum TextBlob_sentiment text w)
      as (r & w' & H & _). eauto.
  - intros e He.
    rewrite (analyze_sentiment_failed unicode_isalnum TextBlob_sentiment
               text w e He).
    reflexivity.
Qed.

(** C4. In every result of [analyze_sentiment], from the [try] branch or
    from the [except] branch, [confidence] is [abs(polarity)]. *)
Theorem confidence_is_abs_polarity
  (unicode_isalnum : char -> bool)
  (TextBlob_sentiment : str -> outcome (float * float))
  (text : str) (w w' : World) (r : SentimentResult) :
  analyze_sentiment unicode_isalnum TextBlob_sentiment text w
    = (Returns r, w') ->
  confidence r = py_abs (polarity r).
Proof.
  destruct (TextBlob_sentiment (clean_text unicode_isalnum text))
    as [[p sub]|e] eqn:Hs.
  - rewrite (analyze_sentiment_scored _ _ text w p sub Hs).
    intros [= <- _]. reflexivity.
  - rewrite (analyze_sentiment_failed _ _ text w e Hs).
    intros [= <- _]. reflexivity.
Qed.

(** C7. On [n] records, [batch_analyze] returns, with [n] rows in the
    order of the input; row [i] is record [i] with the result that
    [analyze_sentiment] gives for its text on its own, in whatever state it
    is called: its [cleaned_text] is the cleaned text of the record when
    the scorer returns, and a record whose scoring fails gets its neutral
    default while the other records are processed all the same. *)
Theorem batch_analyze_rows
  (unicode_isalnum : char -> bool)
  (TextBlob_sentiment : str -> outcome (float * float))
  (tweets_df : list TextRecord) (w : World) :
  exists result_df w',
    batch_analyze unicode_isalnum TextBlob_sentiment tweets_df w
      = (Returns result_df, w') /\
    List.length result_df = List.length tweets_df /\
    forall i tweet,
      nth_error tweets_df i = Some tweet ->
      exists r,
        nth_error result_df i = Some (Some tweet, Some r) /\
        (forall w0,
            fst (analyze_sentiment unicode_isalnum TextBlob_sentiment
                   (text tweet) w0) = Returns r) /\
        (forall p sub,
            TextBlob_sentiment (clean_text unicode_isalnum (text tweet))
              = Returns (p, sub) ->
            cleaned_text r = clean_text unicode_isalnum (text tweet)) /\
        (forall e,
            TextBlob_sentiment (clean_text unicode_isalnum (text tweet))
              = Raises e ->
            r = neutral_default (text tweet)).
Proof.
  destruct (iterrows_loop_runs unicode_isalnum TextBlob_sentiment
              tweets_df [] w) as (rs & w1 & Hloop & _ & Hall).
  cbn [app] in Hloop.
  destruct (concat_axis1_aligned _ tweets_df rs Hall) as [Hlen Hnth].
  eexists (concat_axis1 tweets_df rs), _.
  split; [|split; [exact Hlen|]].
  - unfold batch_analyze, bind. rewrite Hloop.
    unfold logger_info, log_record, ret. reflexivity.
  - intros i tweet Hi. destruct (Hnth i tweet Hi) as (r & Hr & Hpure).
    exists r. split; [exact Hr|]. split; [exact Hpure|]. split.
    + intros p sub Hs. specialize (Hpure w).
      rewrite (analyze_sentiment_scored _ _ _ w p sub Hs) in Hpure.
      injection Hpure as <-. reflexivity.
    + intros e He. specialize (Hpure w).
      rewrite (analyze_sentiment_failed _ _ _ w e He) in Hpure.
      injection Hpure as <-. reflexivity.
Qed.


(** In [spark_processor.py] the [try] branch of the UDF never returns:
    [abs(polarity)] raises, and the bare [except] gives the default. *)
Lemma analyze_sentiment_udf_default
  (unicode_isalnum : char -> bool)
  (TextBlob_sentiment : str -> outcome (float * float)) (text : str) :
  analyze_sentiment_udf unicode_isalnum TextBlob_sentiment text
  = Returns (f0_0, f0_0, py "neutral", f0_0).
Proof.
  unfold analyze_sentiment_udf, functions_abs.
  destruct (TextBlob_sentiment _) as [[p sub]|e]; reflexivity.
Qed.

(** C9. The UDF does not agree with [analyze_sentiment] on the success
    path: on ["a good day"], scored [0.5], [analyze_sentiment] gives
    [0.5], [0.5], ['positive'], [0.5], and the UDF gives
    [(0.0, 0.0, 'neutral', 0.0)], as it does for every text. *)
Theorem udf_diverges_from_analyze_sentiment :
  lexicon_scorer (clean_text ascii_only (py "a good day"))
    = Returns (f0_5, f0_5) /\
  fst (analyze_sentiment ascii_only lexicon_scorer (py "a good day")
         fresh_world)
    = Returns {| cleaned_text := py "a good day";
                 polarity := f0_5;
                 subjectivity := f0_5;
                 sentiment_label := py "positive";
                 confidence := f0_5 |} /\
  analyze_sentiment_udf ascii_only lexicon_scorer (py "a good day")
    = Returns (f0_0, f0_0, py "neutral", f0_0) /\
  forall unicode_isalnum TextBlob_sentiment text,
    analyze_sentiment_udf unicode_isalnum TextBlob_sentiment text
    = Returns (f0_0, f0_0, py "neutral", f0_0).
Proof.
  split; [reflexivity|]. split; [reflexivity|]. split; [reflexivity|].
  exact analyze_sentiment_udf_default.
Qed.

(** ** The theorems at work on concrete inputs *)

Lemma sentiment_label_threshold_rule_witness :
  lexicon_scorer (clean_text ascii_only (py "a good day"))
    = Returns (f0_5, f0_5) /\
  exists r w',
    analyze_sentiment ascii_only lexicon_scorer (py "a good day") fresh_world
      = (Returns r, w') /\
    polarity r = f0_5 /\
    (sentiment_label r = py "positive" <-> py_gt f0_5 f0_1 = true) /\
    (sentiment_label r = py "negative" <->
       py_lt f0_5 (py_neg f0_1) = true) /\
    (sentiment_label r = py "neutral" <->
       py_gt f0_5 f0_1 = false /\ py_lt f0_5 (py_neg f0_1) = false) /\
    (py_gt f0_5 f0_1 = true -> py_lt f0_5 (py_neg f0_1) = false) /\
    (f0_5 <> S754_nan ->
     (sentiment_label r = py "neutral" <->
        py_le (py_neg f0_1) f0_5 = true /\ py_le f0_5 f0_1 = true)) /\
    (f0_5 = f0_1 \/ f0_5 = py_neg f0_1 -> sentiment_label r = py "neutral").
Proof.
  split; [reflexivity|].
  apply (sentiment_label_threshold_rule ascii_only lexicon_scorer
           (py "a good day") fresh_world f0_5 f0_5).
  reflexivity.
Defined.

Lemma analyze_sentiment_never_raises_witness :
  lexicon_scorer (clean_text ascii_only (py " @x "))
    = Raises (py "empty text") /\
  fst (analyze_sentiment ascii_only lexicon_scorer (py " @x ") fresh_world)
    = Returns {| cleaned_text := py " @x ";
                 polarity := f0_0;
                 subjectivity := f0_0;
                 sentiment_label := py "neutral";
                 confidence := f0_0 |}.
Proof.
  split; [reflexivity|].
  apply (proj2 (analyze_sentiment_never_raises ascii_only lexicon_scorer
                  (py " @x ") fresh_world) (py "empty text")).
  reflexivity.
Defined.

Lemma confidence_is_abs_polarity_witness :
  analyze_sentiment ascii_only lexicon_scorer (py "a bad day") fresh_world
    = (Returns (scored ascii_only (py "a bad day") (py_neg f0_5) f0_5),
       fresh_world) /\
  confidence (scored ascii_only (py "a bad day") (py_neg f0_5) f0_5)
    = py_abs (polarity (scored ascii_only (py "a bad day") (py_neg f0_5)
                          f0_5)).
Proof.
  split; [reflexivity|].
  apply (confidence_is_abs_polarity ascii_only lexicon_scorer
           (py "a bad day") fresh_world fresh_world).
  reflexivity.
Defined.

Lemma clean_text_removes_urls_and_tags_witness :
  In (py "www") [py "http"; py "www"; py "https"] /\
  non_space 46%N = true /\
  clean_text ascii_only (py "see www.x.org now")
    <> py "see " ++ py "www" ++ 46%N :: py "x.org now".
Proof.
  split; [right; left; reflexivity|]. split; [reflexivity|].
  pose proof (clean_text_removes_urls_and_tags ascii_only
                (py "see www.x.org now")) as H.
  cbv zeta in H. destruct H as (_ & _ & H & _).
  apply (H (py "see ") (py "www") 46%N (py "x.org now")).
  - right; left; reflexivity.
  - reflexivity.
Defined.

Lemma clean_text_whitespace_normalized_witness :
  forallb Py_UNICODE_ISSPACE [32; 9; 160; 10; 8195]%N = true /\
  clean_text ascii_only [32; 9; 160; 10; 8195]%N = [].
Proof.
  split; [reflexivity|].
  pose proof (clean_text_whitespace_normalized ascii_only
                [32; 9; 160; 10; 8195]%N) as H.
  cbv zeta in H. destruct H as (_ & _ & _ & _ & H).
  apply H. reflexivity.
Defined.

Lemma batch_analyze_rows_witness :
  nth_error three_tweets 1 = Some tweet_tag /\
  exists result_df w',
    batch_analyze ascii_only lexicon_scorer three_tweets fresh_world
      = (Returns result_df, w') /\
    List.length result_df = 3 /\
    exists r,
      nth_error result_df 1 = Some (Some tweet_tag, Some r) /\
      (forall w0,
          fst (analyze_sentiment ascii_only lexicon_scorer (text tweet_tag)
                 w0) = Returns r) /\
      r = neutral_default (text tweet_tag).
Proof.
  split; [reflexivity|].
  destruct (batch_analyze_rows ascii_only lexicon_scorer three_tweets
              fresh_world) as (result_df & w' & H & Hlen & Hnth).
  exists result_df, w'. split; [exact H|]. split; [exact Hlen|].
  destruct (Hnth 1 tweet_tag eq_refl) as (r & Hr & Hpure & _ & Hfail).
  exists r. split; [exact Hr|]. split; [exact Hpure|].
  apply (Hfail (py "empty text")). reflexivity.
Defined.

(** C7 as it is worded asks that every [cleaned_text] be the cleaned text
    of its record.  The second record of [three_tweets] cleans to the
    empty text, on which the scorer fails: the [except] branch stores the
    text as it came, [" @x "]. *)
Lemma batch_analyze_cleaned_text_counterexample :
  exists result_df w' r,
    batch_analyze ascii_only lexicon_scorer three_tweets fresh_world
      = (Returns result_df, w') /\
    nth_error three_tweets 1 = Some tweet_tag /\
    nth_error result_df 1 = Some (Some tweet_tag, Some r) /\
    cleaned_text r = py " @x " /\
    clean_text ascii_only (text tweet_tag) = [] /\
    cleaned_text r <> clean_text ascii_only (text tweet_tag).
Proof.
  eexists _, _, _.
  split; [vm_compute; reflexivity|].
  split; [reflexivity|].
  split; [vm_compute; reflexivity|].
  split; [reflexivity|].
  split; [reflexivity|].
  vm_compute. discriminate.
Qed.

(** * Further properties of the cleaner *)

(** ** Cleaning only deletes *)

Lemma drop_matches_length (find : str -> option nat) (s : str) :
  forall k, List.length (drop_matches find k s) <= List.length s.
Proof.
  induction s as [|c s IH]; intros k; [apply Nat.le_refl|].
  cbn [drop_matches]. destruct k as [|k].
  - destruct (find (c :: s)) as [[|n]|]; simpl;
      try (apply le_n_S, IH); apply Nat.le_le_succ_r, IH.
  - simpl. apply Nat.le_le_succ_r, IH.
Qed.

Lemma squeeze_length (s : str) :
  List.length (squeeze s)
  + (if nonempty s && at_break s then 1 else 0) <= List.length s.
Proof.
  induction s as [|c s IH]; [apply Nat.le_refl|].
  cbn [squeeze nonempty at_break andb].
  destruct (Py_UNICODE_ISSPACE c) eqn:Hc.
  - simpl. destruct (nonempty s && at_break s); lia.
  - destruct (at_break s) eqn:Hb.
    + destruct s as [|d s]; [simpl; lia|].
      cbn [nonempty andb] in IH.
      destruct (squeeze (d :: s)); simpl in *; lia.
    + rewrite andb_false_r in IH. simpl. lia.
Qed.

Lemma subseq_refl (s : str) : subseq s s.
Proof. induction s; constructor; assumption. Qed.

Lemma subseq_trans (x y z : str) : subseq x y -> subseq y z -> subseq x z.
Proof.
  intros Hxy Hyz. revert x Hxy.
  induction Hyz as [|c y z _ IH|c y z _ IH]; intros x Hxy.
  - exact Hxy.
  - constructor. apply IH, Hxy.
  - inversion Hxy; subst; constructor; apply IH; assumption.
Qed.

Lemma subseq_skipn (n : nat) (s : str) : subseq (skipn n s) s.
Proof.
  revert s. induction n as [|n IH]; intros s; [apply subseq_refl|].
  destruct s as [|c s]; [constructor|]. cbn [skipn]. constructor. apply IH.
Qed.

Lemma subseq_filter (p : char -> bool) (x s : str) :
  subseq x s -> subseq (filter p x) (filter p s).
Proof.
  induction 1 as [|c x s _ IH|c x s _ IH]; cbn [filter].
  - constructor.
  - destruct (p c); [constructor|]; exact IH.
  - destruct (p c); [constructor|]; exact IH.
Qed.

Lemma drop_matches_subseq (find : str -> option nat) (s : str) :
  subseq (drop_matches find 0 s) s.
Proof.
  apply (drop_matches_ind find (fun s out => subseq out s)).
  - constructor.
  - intros c s' n _ IH. apply subseq_skip.
    apply (subseq_trans _ _ _ IH), subseq_skipn.
  - intros c s' _ IH. apply subseq_keep. exact IH.
Qed.

Lemma squeeze_non_space (s : str) :
  filter non_space (squeeze s) = filter non_space s.
Proof.
  induction s as [|c s IH]; [reflexivity|].
  cbn [squeeze filter]. unfold non_space at 2.
  destruct (Py_UNICODE_ISSPACE c) eqn:Hc; cbn [negb]; [exact IH|].
  destruct (at_break s).
  - destruct (squeeze s) as [|d r] eqn:Hs; cbn [filter]; unfold non_space at 1;
      rewrite Hc; cbn [negb]; f_equal; [exact IH|].
    rewrite <- IH. reflexivity.
  - cbn [filter]. unfold non_space at 1. rewrite Hc. cbn [negb].
    f_equal. exact IH.
Qed.

(** X1. The cleaned text is never longer than the text, and its
    non-whitespace characters are characters of the text, in their order:
    cleaning deletes, it neither adds nor moves a character other than
    whitespace. *)
Theorem clean_text_only_deletes (unicode_isalnum : char -> bool) (s : str) :
  List.length (clean_text unicode_isalnum s) <= List.length s /\
  subseq (filter non_space (clean_text unicode_isalnum s))
         (filter non_space s).
Proof.
  rewrite clean_text_squeeze. split.
  - pose proof (squeeze_length
      (drop_matches (spec_tag_at unicode_isalnum) 0
         (drop_matches spec_url_at 0 s))) as H1.
    pose proof (drop_matches_length (spec_tag_at unicode_isalnum)
                  (drop_matches spec_url_at 0 s) 0) as H2.
    pose proof (drop_matches_length spec_url_at s 0) as H3. lia.
  - rewrite squeeze_non_space. apply subseq_filter.
    apply (subseq_trans _ (drop_matches spec_url_at 0 s));
      apply drop_matches_subseq.
Qed.

(** ** The texts that cleaning leaves as they are *)

Lemma re_search_url_occurs (s : str) :
  re_search url_pattern s = occurs spec_url_at s.
Proof. unfold re_search. apply occurs_ext, match_at_url. Qed.

Lemma re_search_tag_occurs (u : char -> bool) (s : str) :
  re_search (tag_pattern u) s = occurs (spec_tag_at u) s.
Proof. unfold re_search. apply occurs_ext, match_at_tag. Qed.

(** X2. A text in which [re.search] finds neither pattern is only
    whitespace-normalized by the cleaner: the result is
    [' '.join(text.split())]. *)
Theorem clean_text_without_match (unicode_isalnum : char -> bool) (s : str) :
  re_search url_pattern s = false ->
  re_search (tag_pattern unicode_isalnum) s = false ->
  clean_text unicode_isalnum s = join (py " ") (split s).
Proof.
  rewrite re_search_url_occurs, re_search_tag_occurs. intros Hu Ht.
  rewrite clean_text_squeeze, (drop_no_occurs _ _ Hu), (drop_no_occurs _ _ Ht).
  symmetry. apply join_split_squeeze.
Qed.

(** X3. The texts that the cleaner returns unchanged are exactly the
    whitespace-normalized texts in which [re.search] finds neither
    pattern. *)
Theorem clean_text_fixed_points (unicode_isalnum : char -> bool) (s : str) :
  clean_text unicode_isalnum s = s <->
  normalized s = true /\
  re_search url_pattern s = false /\
  re_search (tag_pattern unicode_isalnum) s = false.
Proof.
  rewrite re_search_url_occurs, re_search_tag_occurs. split.
  - intros H. rewrite <- H. split; [apply clean_text_normalized|].
    split; [apply clean_text_no_url | apply clean_text_no_tag].
  - intros (Hn & Hu & Ht).
    rewrite clean_text_squeeze, (drop_no_occurs _ _ Hu),
      (drop_no_occurs _ _ Ht).
    apply squeeze_fix, Hn.
Qed.

(** ** Cleaning works token by token *)

Lemma take_while_app_break (p : char -> bool) (x : str) (sp : char) (b : str) :
  p sp = false -> take_while p (x ++ sp :: b) = take_while p x.
Proof.
  intros Hsp. induction x as [|c x IH]; cbn [app take_while].
  - rewrite Hsp. reflexivity.
  - destruct (p c); [f_equal; exact IH | reflexivity].
Qed.

Lemma strip_prefix_app_break (w x : str) (sp : char) (b : str) :
  forallb (fun a => negb (a =? sp)%N) w = true ->
  strip_prefix w (x ++ sp :: b)
  = option_map (fun r => r ++ sp :: b) (strip_prefix w x).
Proof.
  revert x. induction w as [|a w IH]; intros x Hw; [reflexivity|].
  simpl in Hw. apply andb_true_iff in Hw as [Ha Hw].
  apply negb_true_iff in Ha.
  destruct x as [|c x]; cbn [app strip_prefix option_map].
  - rewrite N.eqb_sym, Ha. reflexivity.
  - destruct (c =? a)%N; [apply IH, Hw | reflexivity].
Qed.

Lemma word_then_run_app_break
  (w : str) (p : char -> bool) (x : str) (sp : char) (b : str) :
  forallb (fun a => negb (a =? sp)%N) w = true -> p sp = false ->
  word_then_run w p (x ++ sp :: b) = word_then_run w p x.
Proof.
  intros Hw Hsp. unfold word_then_run.
  rewrite (strip_prefix_app_break w x sp b Hw).
  destruct (strip_prefix w x) as [[|c t]|]; cbn [option_map app];
    [rewrite Hsp; reflexivity | | reflexivity].
  destruct (p c) eqn:Hc; [|reflexivity].
  change (c :: t ++ sp :: b) with ((c :: t) ++ sp :: b).
  rewrite (take_while_app_break p (c :: t) sp b Hsp). reflexivity.
Qed.

Lemma word_avoids_space (w : str) (sp : char) :
  Py_UNICODE_ISSPACE sp = true -> forallb non_space w = true ->
  forallb (fun a => negb (a =? sp)%N) w = true.
Proof.
  intros Hsp Hw. rewrite forallb_forall in *. intros a Ha.
  specialize (Hw a Ha). unfold non_space in Hw.
  destruct (N.eqb_spec a sp) as [->|]; [|reflexivity].
  rewrite Hsp in Hw. discriminate.
Qed.

Lemma spec_url_at_app_break (x : str) (sp : char) (b : str) :
  Py_UNICODE_ISSPACE sp = true ->
  spec_url_at (x ++ sp :: b) = spec_url_at x.
Proof.
  intros Hsp. unfold spec_url_at, first_of.
  assert (non_space sp = false) as Hns
    by (unfold non_space; rewrite Hsp; reflexivity).
  rewrite !word_then_run_app_break;
    try exact Hns; try (apply word_avoids_space; [exact Hsp | reflexivity]).
  reflexivity.
Qed.

Lemma spec_tag_at_app_break
  (u : char -> bool) (x : str) (sp : char) (b : str) :
  Py_UNICODE_ISSPACE sp = true -> is_word u sp = false ->
  spec_tag_at u (x ++ sp :: b) = spec_tag_at u x.
Proof.
  intros Hsp Hw. unfold spec_tag_at, first_of.
  rewrite !word_then_run_app_break;
    try exact Hw; try (apply word_avoids_space; [exact Hsp | reflexivity]).
  reflexivity.
Qed.

Lemma take_while_length (p : char -> bool) (s : str) :
  List.length (take_while p s) <= List.length s.
Proof.
  induction s as [|c s IH]; [apply Nat.le_refl|].
  cbn [take_while]. destruct (p c); simpl; lia.
Qed.

Lemma word_then_run_bound (w : str) (p : char -> bool) (s : str) (n : nat) :
  word_then_run w p s = Some n -> n <= List.length s.
Proof.
  intros H. apply word_then_run_inv in H as (c & t & -> & _ & ->).
  rewrite length_app. pose proof (take_while_length p (c :: t)). lia.
Qed.

Lemma spec_url_at_bound (s : str) (n : nat) :
  spec_url_at s = Some n -> n <= List.length s.
Proof.
  unfold spec_url_at. intros H.
  apply first_of_inv in H as [H|H]; [|apply first_of_inv in H as [H|H]];
    exact (word_then_run_bound _ _ _ _ H).
Qed.

Lemma spec_tag_at_bound (u : char -> bool) (s : str) (n : nat) :
  spec_tag_at u s = Some n -> n <= List.length s.
Proof.
  unfold spec_tag_at. intros H.
  apply first_of_inv in H as [H|H]; exact (word_then_run_bound _ _ _ _ H).
Qed.

Section AcrossBreak.

(** A finder that does not look past a whitespace character. *)
Variable find : str -> option nat.
Variable sp : char.
Variable b : str.
Hypothesis find_stops : forall x, find (x ++ sp :: b) = find x.
Hypothesis find_bound : forall x n, find x = Some n -> n <= List.length x.
Hypothesis find_nil : find [] = None.

Lemma find_at_space : find (sp :: b) = None.
Proof. rewrite <- find_nil. exact (find_stops []). Qed.

Lemma drop_matches_app_break (a : str) :
  drop_matches find 0 (a ++ sp :: b)
  = drop_matches find 0 a ++ sp :: drop_matches find 0 b.
Proof.
  remember (List.length a) as m eqn:Hm.
  assert (Hle : List.length a <= m) by lia. clear Hm.
  revert a Hle. induction m as [|m IH]; intros a Hle.
  - destruct a; [|simpl in Hle; lia].
    cbn [app]. rewrite drop_matches_cons, find_at_space. reflexivity.
  - destruct a as [|c a].
    + cbn [app]. rewrite drop_matches_cons, find_at_space. reflexivity.
    + simpl in Hle. cbn [app].
      rewrite (drop_matches_cons find c (a ++ sp :: b)).
      rewrite (drop_matches_cons find c a).
      change (c :: a ++ sp :: b) with ((c :: a) ++ sp :: b).
      rewrite find_stops.
      destruct (find (c :: a)) as [[|n]|] eqn:Hf.
      * cbn [app]. f_equal. apply IH. lia.
      * apply find_bound in Hf. simpl in Hf.
        rewrite skipn_app.
        replace (n - List.length a) with 0 by lia. cbn [skipn].
        apply IH. rewrite length_skipn. lia.
      * cbn [app]. f_equal. apply IH. lia.
Qed.

End AcrossBreak.

(** [' '.join(x for x in l if x)]. *)
Lemma join_nonempty_cons (x : str) (l : list str) :
  join (py " ") (filter nonempty (x :: l))
  = join (py " ")
      (filter nonempty [x; join (py " ") (filter nonempty l)]).
Proof.
  cbn [filter]. destruct x as [|c x]; cbn [nonempty].
  - destruct (join (py " ") (filter nonempty l)); reflexivity.
  - rewrite join_cons.
    destruct (filter nonempty l) as [|y l'] eqn:Hl; [reflexivity|].
    destruct (join (py " ") (y :: l')) as [|d r] eqn:Hj; [|reflexivity].
    apply join_nil_inv in Hj; [discriminate|].
    rewrite <- Hl. apply Forall_forall. intros t Ht.
    apply filter_In in Ht as [_ Ht]. destruct t; [discriminate Ht|discriminate].
Qed.

Lemma squeeze_app_break (a : str) (sp : char) (b : str) :
  Py_UNICODE_ISSPACE sp = true ->
  squeeze (a ++ sp :: b)
  = join (py " ") (filter nonempty [squeeze a; squeeze b]).
Proof.
  intros Hsp. induction a as [|c a IH].
  - cbn [app squeeze]. rewrite Hsp. cbn [filter nonempty].
    destruct (squeeze b); reflexivity.
  - cbn [app]. cbn [squeeze]. destruct (Py_UNICODE_ISSPACE c) eqn:Hc;
      [exact IH|].
    assert (Hb : at_break (a ++ sp :: b) = at_break a
                 \/ a = []).
    { destruct a; [right; reflexivity | left; reflexivity]. }
    destruct Hb as [Hb| ->].
    + rewrite Hb, IH. destruct (at_break a) eqn:Ha.
      * destruct (squeeze a) as [|d r], (squeeze b) as [|e q]; reflexivity.
      * pose proof (split_not_nil a Ha) as Hne.
        destruct (squeeze a) as [|d r] eqn:Hs.
        -- exfalso. rewrite <- join_split_squeeze in Hs.
           apply join_nil_inv in Hs; [congruence|].
           apply split_nonempty_tokens.
        -- destruct (squeeze b); reflexivity.
    + cbn [app at_break squeeze]. rewrite Hsp.
      destruct (squeeze b); reflexivity.
Qed.

Lemma take_while_at_break (s : str) :
  at_break s = true -> take_while non_space s = [].
Proof.
  destruct s as [|d s]; [reflexivity|]. cbn [at_break take_while].
  unfold non_space. intros ->. reflexivity.
Qed.

Lemma split_token (s : str) :
  at_break s = false ->
  split s = take_while non_space s
            :: split (skipn (List.length (take_while non_space s)) s).
Proof.
  induction s as [|c s IH]; [discriminate|].
  cbn [at_break]. intros Hc.
  assert (take_while non_space (c :: s) = c :: take_while non_space s) as ->.
  { cbn [take_while]. unfold non_space at 1. rewrite Hc. reflexivity. }
  cbn [split List.length skipn]. rewrite Hc.
  destruct (at_break s) eqn:Hb.
  - rewrite (take_while_at_break s Hb). reflexivity.
  - rewrite (IH eq_refl). reflexivity.
Qed.

Lemma take_while_skipn (p : char -> bool) (s : str) :
  s = take_while p s ++ skipn (List.length (take_while p s)) s.
Proof.
  induction s as [|c s IH]; [reflexivity|].
  cbn [take_while]. destruct (p c); [|reflexivity].
  cbn [List.length skipn app]. f_equal. exact IH.
Qed.

Section TokenWise.

Variable u : char -> bool.

(** No whitespace character is alphanumeric in the Unicode database. *)
Hypothesis space_not_word :
  forall c, Py_UNICODE_ISSPACE c = true -> is_word u c = false.

Lemma clean_text_app_break (a : str) (sp : char) (b : str) :
  Py_UNICODE_ISSPACE sp = true ->
  clean_text u (a ++ sp :: b)
  = join (py " ") (filter nonempty [clean_text u a; clean_text u b]).
Proof.
  intros Hsp. rewrite !clean_text_squeeze.
  rewrite (drop_matches_app_break spec_url_at sp b
             (fun x => spec_url_at_app_break x sp b Hsp)
             spec_url_at_bound eq_refl).
  rewrite (drop_matches_app_break (spec_tag_at u) sp
             (drop_matches spec_url_at 0 b)
             (fun x => spec_tag_at_app_break u x sp _ Hsp
                         (space_not_word sp Hsp))
             (spec_tag_at_bound u) eq_refl).
  apply squeeze_app_break, Hsp.
Qed.

Lemma clean_text_tokens (s : str) :
  clean_text u s
  = join (py " ") (filter nonempty (map (clean_text u) (split s))).
Proof.
  remember (List.length s) as m eqn:Hm.
  assert (Hle : List.length s <= m) by lia. clear Hm.
  revert s Hle. induction m as [|m IH]; intros s Hle.
  - destruct s; [reflexivity | simpl in Hle; lia].
  - destruct s as [|c s]; [reflexivity|]. simpl in Hle.
    destruct (Py_UNICODE_ISSPACE c) eqn:Hc.
    + pose proof (clean_text_app_break [] c s Hc) as H0.
      cbn [app] in H0. rewrite H0.
      cbn [split]. rewrite Hc. rewrite <- (IH s) by lia.
      change (clean_text u []) with (@nil char). cbn [filter nonempty].
      destruct (clean_text u s); reflexivity.
    + rewrite (split_token (c :: s)) by exact Hc.
      cbn [map]. rewrite join_nonempty_cons.
      pose proof (take_while_skipn non_space (c :: s)) as Hs.
      pose proof (run_ends_take_while non_space (c :: s)) as He.
      rewrite <- at_break_run_ends in He.
      assert (Hlen : 1 <= List.length (take_while non_space (c :: s))).
      { cbn [take_while]. unfold non_space at 1. rewrite Hc. simpl. lia. }
      remember (take_while non_space (c :: s)) as tok eqn:Htok.
      destruct (skipn (List.length tok) (c :: s)) as [|sp rest] eqn:Hr.
      * rewrite app_nil_r in Hs. rewrite <- Hs.
        change (split []) with (@nil str). cbn [map filter join].
        destruct (clean_text u (c :: s)); reflexivity.
      * cbn [at_break] in He.
        rewrite Hs at 1. rewrite (clean_text_app_break tok sp rest He).
        cbn [split]. rewrite He. rewrite <- (IH rest); [reflexivity|].
        apply (f_equal (@List.length char)) in Hs.
        rewrite length_app in Hs. simpl in Hs. lia.
Qed.

End TokenWise.

(** X4. When no whitespace character is a word character, cleaning works
    token by token: the cleaned text is
    [' '.join(t for t in map(clean_text, text.split()) if t)]. *)
Theorem clean_text_token_by_token (unicode_isalnum : char -> bool) (s : str) :
  (forall c, Py_UNICODE_ISSPACE c = true ->
             is_word unicode_isalnum c = false) ->
  clean_text unicode_isalnum s
  = join (py " ")
      (filter nonempty (map (clean_text unicode_isalnum) (split s))).
Proof. intros H. apply clean_text_tokens, H. Qed.

Lemma ascii_only_space_not_word (c : char) :
  Py_UNICODE_ISSPACE c = true -> is_word ascii_only c = false.
Proof.
  unfold is_word, ascii_only. destruct (N.ltb_spec c 128) as [Hlt|]; 
    [|reflexivity].
  intros H. destruct (N.leb_spec c 32) as [Hle|Hgt].
  - unfold ascii_isalnum.
    rewrite (proj2 (N.leb_gt 48 c)), (proj2 (N.leb_gt 65 c)),
      (proj2 (N.leb_gt 97 c)), (proj2 (N.eqb_neq c 95)) by lia.
    reflexivity.
  - exfalso. unfold Py_UNICODE_ISSPACE in H.
    rewrite (proj2 (N.leb_gt c 13)), (proj2 (N.leb_gt c 32)),
      (proj2 (N.eqb_neq c 133)), (proj2 (N.eqb_neq c 160)),
      (proj2 (N.eqb_neq c 5760)), (proj2 (N.leb_gt 8192 c)),
      (proj2 (N.eqb_neq c 8232)), (proj2 (N.eqb_neq c 8233)),
      (proj2 (N.eqb_neq c 8239)), (proj2 (N.eqb_neq c 8287)),
      (proj2 (N.eqb_neq c 12288)) in H by lia.
    rewrite !andb_false_r in H. discriminate H.
Qed.

Lemma clean_text_token_by_token_witness :
  (forall c, Py_UNICODE_ISSPACE c = true -> is_word ascii_only c = false) /\
  clean_text ascii_only (py "see  www.x.org @me now")
  = join (py " ")
      (filter nonempty
         (map (clean_text ascii_only)
            (split (py "see  www.x.org @me now")))).
Proof.
  split; [exact ascii_only_space_not_word|].
  apply (clean_text_token_by_token ascii_only
           (py "see  www.x.org @me now")).
  exact ascii_only_space_not_word.
Defined.

Lemma clean_text_without_match_witness :
  re_search url_pattern (py " plain   text # @ http ") = false /\
  re_search (tag_pattern ascii_only) (py " plain   text # @ http ") = false /\
  clean_text ascii_only (py " plain   text # @ http ")
  = join (py " ") (split (py " plain   text # @ http ")).
Proof.
  split; [reflexivity|]. split; [reflexivity|].
  apply (clean_text_without_match ascii_only (py " plain   text # @ http "));
    reflexivity.
Defined.

Lemma clean_text_fixed_points_witness :
  (normalized (py "plain text # @ http") = true /\
   re_search url_pattern (py "plain text # @ http") = false /\
   re_search (tag_pattern ascii_only) (py "plain text # @ http") = false) /\
  clean_text ascii_only (py "plain text # @ http") = py "plain text # @ http".
Proof.
  split; [repeat split|].
  apply (proj2 (clean_text_fixed_points ascii_only
                  (py "plain text # @ http"))).
  repeat split.
Defined.

(** ** Single tokens: URLs, mentions and hashtags *)

Lemma forallb_skipn (p : char -> bool) (n : nat) (s : str) :
  forallb p s = true -> forallb p (skipn n s) = true.
Proof.
  revert s. induction n as [|n IH]; intros s H; [exact H|].
  destruct s as [|c s]; [reflexivity|]. cbn [skipn]. simpl in H.
  apply andb_true_iff in H as [_ H]. apply IH, H.
Qed.

Lemma run_to_the_end (p : char -> bool) (n : nat) (s : str) :
  forallb p s = true -> run_ends p (skipn n s) = true -> skipn n s = [].
Proof.
  intros Hs He. apply (forallb_skipn p n) in Hs.
  destruct (skipn n s) as [|d r]; [reflexivity|].
  simpl in Hs, He. apply andb_true_iff in Hs as [Hd _].
  rewrite Hd in He. discriminate.
Qed.

Lemma forallb_subseq (p : char -> bool) (x s : str) :
  subseq x s -> forallb p s = true -> forallb p x = true.
Proof.
  induction 1 as [|c x s _ IH|c x s _ IH]; intros Hs; [reflexivity| |];
    simpl in Hs; apply andb_true_iff in Hs as [Hc Hs].
  - apply IH, Hs.
  - simpl. rewrite Hc. apply IH, Hs.
Qed.

Lemma drop_matches_whole (find : str -> option nat) (s : str) (n : nat) :
  find s = Some n -> s <> [] -> skipn n s = [] ->
  drop_matches find 0 s = [].
Proof.
  destruct s as [|c s]; [congruence|]. intros Hf _ Hn.
  rewrite drop_matches_cons, Hf. destruct n as [|n]; [discriminate Hn|].
  cbn [skipn] in Hn. rewrite Hn. reflexivity.
Qed.

(** X5. A token that starts with [http], [www] or [https] and goes on for
    one character at least is removed whole, whatever follows the word up
    to the next whitespace. *)
Theorem clean_text_drops_url_token
  (unicode_isalnum : char -> bool) (w x : str) :
  In w [py "http"; py "www"; py "https"] ->
  x <> [] -> forallb non_space x = true ->
  clean_text unicode_isalnum (w ++ x) = [].
Proof.
  intros Hw Hx Hns. rewrite clean_text_squeeze.
  assert (Hall : forallb non_space (w ++ x) = true).
  { rewrite forallb_app, Hns.
    destruct Hw as [<-|[<-|[<-|[]]]]; reflexivity. }
  destruct x as [|c b]; [congruence|].
  destruct (spec_url_at (w ++ c :: b)) as [n|] eqn:Hf.
  - rewrite (drop_matches_whole spec_url_at (w ++ c :: b) n Hf);
      [reflexivity | |].
    + destruct Hw as [<-|[<-|[<-|[]]]]; discriminate.
    + apply (run_to_the_end non_space); [exact Hall|].
      rewrite <- at_break_run_ends.
      apply (spec_url_at_ends _ _ Hf).
  - exfalso. simpl in Hns. apply andb_true_iff in Hns as [Hc _].
    exact (url_word_found w c b Hw Hc Hf).
Qed.

(** X6. A token made of [@] or [#] and of word characters is removed
    whole, except when the word characters themselves start with [http] or
    [www] followed by one more character: the URL step runs first and cuts
    the name off, and the sign alone is left. *)
Theorem clean_text_on_tag_token
  (unicode_isalnum : char -> bool) (c : char) (x : str) :
  In c (py "@#") -> x <> [] ->
  forallb (is_word unicode_isalnum) x = true ->
  forallb non_space x = true ->
  clean_text unicode_isalnum (c :: x)
  = match match_at url_pattern x with
    | Some _ => [c]
    | None => []
    end.
Proof.
  intros Hc Hx Hw Hns. rewrite clean_text_squeeze, match_at_url.
  assert (Hsign : (c = 64 \/ c = 35)%N)
    by (destruct Hc as [<-|[<-|[]]]; auto).
  assert (Hnone : spec_url_at (c :: x) = None)
    by (destruct Hsign as [-> | ->]; reflexivity).
  rewrite (drop_matches_cons spec_url_at c x), Hnone.
  destruct (spec_url_at x) as [n|] eqn:Hf.
  - rewrite (drop_matches_whole spec_url_at x n Hf Hx).
    + destruct Hsign as [-> | ->]; reflexivity.
    + apply (run_to_the_end non_space); [exact Hns|].
      rewrite <- at_break_run_ends. apply (spec_url_at_ends _ _ Hf).
  - destruct x as [|d x']; [congruence|].
    rewrite (drop_matches_cons spec_url_at d x'), Hf.
    set (y := drop_matches spec_url_at 0 x').
    assert (Hy : forallb (is_word unicode_isalnum) (d :: y) = true).
    { simpl in Hw. apply andb_true_iff in Hw as [Hd Hw']. simpl.
      rewrite Hd. apply (forallb_subseq _ y x'); [|exact Hw'].
      apply drop_matches_subseq. }
    assert (Hd : is_word unicode_isalnum d = true).
    { simpl in Hy. apply andb_true_iff in Hy as [Hd _]. exact Hd. }
    destruct (spec_tag_at unicode_isalnum (c :: d :: y)) as [m|] eqn:Ht.
    + rewrite (drop_matches_whole (spec_tag_at unicode_isalnum)
                 (c :: d :: y) m Ht); [reflexivity | discriminate |].
      apply spec_tag_at_inv in Ht
        as (_ & _ & _ & _ & _ & _ & [k ->] & He).
      cbn [skipn] in *.
      apply (run_to_the_end (is_word unicode_isalnum)); [exact Hy|].
      exact He.
    + exfalso.
      exact (spec_tag_at_intro unicode_isalnum c d y Hsign Hd Ht).
Qed.

Lemma clean_text_drops_url_token_witness :
  In (py "www") [py "http"; py "www"; py "https"] /\
  py ".x.org/a?b=1,and@more" <> [] /\
  forallb non_space (py ".x.org/a?b=1,and@more") = true /\
  clean_text ascii_only (py "www" ++ py ".x.org/a?b=1,and@more") = [].
Proof.
  split; [right; left; reflexivity|]. split; [discriminate|].
  split; [reflexivity|].
  apply (clean_text_drops_url_token ascii_only (py "www")
           (py ".x.org/a?b=1,and@more")).
  - right; left; reflexivity.
  - discriminate.
  - reflexivity.
Defined.

Lemma clean_text_on_tag_token_witness :
  In 64%N (py "@#") /\ py "wwwfan" <> [] /\
  forallb (is_word ascii_only) (py "wwwfan") = true /\
  forallb non_space (py "wwwfan") = true /\
  clean_text ascii_only (64%N :: py "wwwfan")
  = match match_at url_pattern (py "wwwfan") with
    | Some _ => [64%N]
    | None => []
    end.
Proof.
  split; [left; reflexivity|]. split; [discriminate|].
  split; [reflexivity|]. split; [reflexivity|].
  apply (clean_text_on_tag_token ascii_only 64%N (py "wwwfan")).
  - left; reflexivity.
  - discriminate.
  - reflexivity.
  - reflexivity.
Defined.

Example clean_text_sign_left_behind :
  clean_text ascii_only (py "go @wwwfan and #httpsnow but @fan #now")
  = py "go @ and # but".
Proof. reflexivity. Qed.

(** * Further properties of the classifier *)

(** ** The label, the confidence and the polarity *)

Lemma SFcompare_flip_sign (m0 m : positive) (e0 e : Z) :
  SFcompare (S754_finite true m e) (S754_finite true m0 e0)
  = SFcompare (S754_finite false m0 e0) (S754_finite false m e).
Proof.
  cbn [SFcompare]. f_equal.
  rewrite (Z.compare_antisym e0 e). destruct (e0 ?= e)%Z; cbn [CompOpp];
    try reflexivity.
  rewrite (Pos.compare_cont_antisym m m0 Eq). reflexivity.
Qed.

(** [abs(p) > 0.1] is [p > 0.1 or p < -0.1], for every float. *)
Lemma abs_above_threshold (p : float) :
  py_gt (py_abs p) f0_1 = py_gt p f0_1 || py_lt p (py_neg f0_1).
Proof.
  unfold py_gt, py_lt, py_abs, py_neg, SFltb.
  destruct p as [[|]|[|]| |[|] m e]; try reflexivity.
  - cbn [SFabs SFopp f0_1 negb].
    rewrite (SFcompare_flip_sign 7205759403792794 m (-56) e).
    change (SFcompare f0_1 (S754_finite true m e)) with (Some Gt).
    reflexivity.
  - cbn [SFabs].
    change (SFcompare (S754_finite false m e) (SFopp f0_1)) with (Some Gt).
    rewrite orb_false_r. reflexivity.
Qed.

(** [abs(p)] is within a bound that holds for [p] and, negated, for
    [-p]. *)
Lemma abs_within (p b : float) :
  py_le (py_neg b) p = true -> py_le p b = true ->
  py_le f0_0 (py_abs p) = true /\ py_le (py_abs p) b = true.
Proof.
  unfold py_le, py_neg, py_abs, SFleb.
  destruct p as [[|]|[|]| |[|] m e]; cbn [SFabs];
    try (intros H1 H2; split; [reflexivity | exact H2]);
    try discriminate.
  - destruct b as [[|]|[|]| |[|] mb eb]; cbn [SFopp negb];
      intros H1 H2; split; try reflexivity; try discriminate.
  - destruct b as [[|]|[|]| |[|] mb eb]; cbn [SFopp negb];
      intros H1 H2; split; try reflexivity; try discriminate.
    rewrite <- (SFcompare_flip_sign m mb e eb). exact H1.
Qed.

Section ResultFields.

Variable u : char -> bool.
Variable score : str -> outcome (float * float).

Lemma analyze_sentiment_sentiment_of (text : str) (w : World) :
  fst (analyze_sentiment u score text w) = Returns (sentiment_of u score text).
Proof.
  unfold sentiment_of.
  destruct (score (clean_text u text)) as [[p sub]|e] eqn:Hs.
  - rewrite (analyze_sentiment_scored u score text w p sub Hs). reflexivity.
  - rewrite (analyze_sentiment_failed u score text w e Hs). reflexivity.
Qed.

Lemma sentiment_of_label (text : str) :
  In (sentiment_label (sentiment_of u score text))
     [py "positive"; py "negative"; py "neutral"] /\
  (sentiment_label (sentiment_of u score text) = py "neutral" <->
   py_gt (confidence (sentiment_of u score text)) f0_1 = false).
Proof.
  unfold sentiment_of.
  destruct (score (clean_text u text)) as [[p sub]|e].
  - cbn [scored sentiment_label confidence].
    rewrite abs_above_threshold.
    destruct (py_gt p f0_1); [|destruct (py_lt p (py_neg f0_1))];
      cbn [orb]; (split; [cbn [In]; auto|]);
      split; (reflexivity || discriminate).
  - cbn [neutral_default sentiment_label confidence].
    split; [cbn [In]; auto|]. split; reflexivity.
Qed.

End ResultFields.

Lemma analyze_sentiment_result
  (u : char -> bool) (score : str -> outcome (float * float))
  (text : str) (w w' : World) (r : SentimentResult) :
  analyze_sentiment u score text w = (Returns r, w') ->
  r = sentiment_of u score text.
Proof.
  intros H. pose proof (analyze_sentiment_sentiment_of u score text w) as E.
  rewrite H in E. injection E as E. exact E.
Qed.

Lemma sentiment_of_confidence
  (u : char -> bool) (score : str -> outcome (float * float)) (text : str) :
  confidence (sentiment_of u score text)
  = py_abs (polarity (sentiment_of u score text)).
Proof.
  unfold sentiment_of.
  destruct (score (clean_text u text)) as [[p sub]|e]; reflexivity.
Qed.

(** X7. In every result of [analyze_sentiment] and in every tuple of the
    UDF, from the [try] branch or from the [except] branch, the label is
    one of ['positive'], ['negative'], ['neutral'], and it is ['neutral']
    exactly when the confidence is not above [0.1]. *)
Theorem label_follows_confidence
  (unicode_isalnum : char -> bool)
  (TextBlob_sentiment : str -> outcome (float * float))
  (text : str) (w : World) :
  (exists r w',
      analyze_sentiment unicode_isalnum TextBlob_sentiment text w
        = (Returns r, w') /\
      In (sentiment_label r) [py "positive"; py "negative"; py "neutral"] /\
      (sentiment_label r = py "neutral" <->
       py_gt (confidence r) f0_1 = false)) /\
  (exists p sub label conf,
      analyze_sentiment_udf unicode_isalnum TextBlob_sentiment text
        = Returns (p, sub, label, conf) /\
      In label [py "positive"; py "negative"; py "neutral"] /\
      (label = py "neutral" <-> py_gt conf f0_1 = false)).
Proof.
  pose proof (sentiment_of_label unicode_isalnum TextBlob_sentiment text)
    as [Hin Hiff].
  split.
  - destruct (analyze_sentiment_runs unicode_isalnum TextBlob_sentiment
                text w) as (r & w' & H & _).
    exists r, w'. split; [exact H|].
    rewrite (analyze_sentiment_result _ _ _ _ _ _ H). auto.
  - rewrite analyze_sentiment_udf_default.
    eexists _, _, _, _. split; [reflexivity|].
    split; [cbn [In]; auto|]. split; reflexivity.
Qed.

(** X8. When the polarity of a result lies between [-b] and [b], its
    confidence lies between [0.0] and [b]; so a scorer with polarities in
    [-1.0, 1.0] gives confidences in [0.0, 1.0]. *)
Theorem confidence_within_bound
  (unicode_isalnum : char -> bool)
  (TextBlob_sentiment : str -> outcome (float * float))
  (text : str) (w w' : World) (r : SentimentResult) (b : float) :
  analyze_sentiment unicode_isalnum TextBlob_sentiment text w
    = (Returns r, w') ->
  py_le (py_neg b) (polarity r) = true ->
  py_le (polarity r) b = true ->
  py_le f0_0 (confidence r) = true /\ py_le (confidence r) b = true.
Proof.
  intros H. rewrite (analyze_sentiment_result _ _ _ _ _ _ H).
  rewrite sentiment_of_confidence. apply abs_within.
Qed.

Lemma confidence_within_bound_witness :
  analyze_sentiment ascii_only lexicon_scorer (py "a bad day") fresh_world
    = (Returns (scored ascii_only (py "a bad day") (py_neg f0_5) f0_5),
       fresh_world) /\
  py_le (py_neg f1_0)
    (polarity (scored ascii_only (py "a bad day") (py_neg f0_5) f0_5))
    = true /\
  py_le (polarity (scored ascii_only (py "a bad day") (py_neg f0_5) f0_5))
    f1_0 = true /\
  py_le f0_0
    (confidence (scored ascii_only (py "a bad day") (py_neg f0_5) f0_5))
    = true /\
  py_le (confidence (scored ascii_only (py "a bad day") (py_neg f0_5) f0_5))
    f1_0 = true.
Proof.
  split; [reflexivity|]. split; [reflexivity|]. split; [reflexivity|].
  apply (confidence_within_bound ascii_only lexicon_scorer (py "a bad day")
           fresh_world fresh_world _ f1_0); reflexivity.
Defined.

(** ** The batch: its rows and its log *)

Section BatchFacts.

Variable u : char -> bool.
Variable score : str -> outcome (float * float).

Lemma analyze_sentiment_world (t : str) (w : World) :
  snd (analyze_sentiment u score t w)
  = {| self := self w;
       handled := handled w ++
         map (record_of w ERROR)
           (map (app (py "Error analyzing sentiment: "))
              (failures u score [{| text := t; other_columns := [] |}]))
    |}.
Proof.
  unfold failures. cbn [flat_map text].
  destruct (score (clean_text u t)) as [[p sub]|e] eqn:Hs.
  - rewrite (analyze_sentiment_scored u score t w p sub Hs).
    cbn [snd app map]. rewrite app_nil_r. destruct w; reflexivity.
  - rewrite (analyze_sentiment_failed u score t w e Hs). reflexivity.
Qed.

Lemma iterrows_loop_run (rows : list TextRecord) :
  forall (acc : list SentimentResult) (w : World),
  iterrows_loop u score rows acc w
  = (Returns (acc ++ map (fun tweet => sentiment_of u score (text tweet))
                       rows),
     {| self := self w;
        handled := handled w ++
          map (record_of w ERROR)
            (map (app (py "Error analyzing sentiment: "))
               (failures u score rows)) |}).
Proof.
  induction rows as [|tweet rows IH]; intros acc w.
  - cbn [iterrows_loop map]. unfold ret, failures. cbn [flat_map map].
    rewrite !app_nil_r. destruct w; reflexivity.
  - cbn [iterrows_loop]. unfold bind at 1.
    pose proof (analyze_sentiment_sentiment_of u score (text tweet) w) as Hr.
    pose proof (analyze_sentiment_world (text tweet) w) as Hw.
    destruct (analyze_sentiment u score (text tweet) w) as [o w1].
    cbn [fst snd] in Hr, Hw. subst o w1. rewrite IH.
    f_equal; [f_equal; rewrite <- app_assoc; reflexivity|].
    cbn [self handled]. f_equal. rewrite <- app_assoc. f_equal.
    unfold failures. cbn [flat_map text]. rewrite app_nil_r, !map_app.
    reflexivity.
Qed.

Lemma concat_axis1_map {A B} (f : A -> B) (l : list A) :
  concat_axis1 l (map f l) = map (fun x => (Some x, Some (f x))) l.
Proof.
  induction l as [|x l IH]; [reflexivity|].
  cbn [map concat_axis1]. f_equal. exact IH.
Qed.

Lemma batch_analyze_run (tweets_df : list TextRecord) (w : World) :
  batch_analyze u score tweets_df w
  = (Returns (map (fun tweet =>
                     (Some tweet, Some (sentiment_of u score (text tweet))))
                tweets_df),
     {| self := self w;
        handled := handled w ++
          map (record_of w ERROR)
            (map (app (py "Error analyzing sentiment: "))
               (failures u score tweets_df)) ++
          [record_of w INFO
             (py "Analyzed sentiment for "
              ++ str_of_nat (List.length tweets_df) ++ py " tweets")] |}).
Proof.
  unfold batch_analyze, bind. rewrite iterrows_loop_run. cbn [app].
  rewrite concat_axis1_map.
  unfold logger_info, log_record, ret, record_of. cbn [self handled].
  rewrite length_map, <- app_assoc. reflexivity.
Qed.

End BatchFacts.

(** X9. [batch_analyze] leaves the analyzer object as it was and adds to
    the log one ERROR record for each record whose scoring fails, in the
    order of the records and with the message of the exception, then one
    INFO record that gives the number of rows. *)
Theorem batch_analyze_log_records
  (unicode_isalnum : char -> bool)
  (TextBlob_sentiment : str -> outcome (float * float))
  (tweets_df : list TextRecord) (w : World) :
  let w' := snd (batch_analyze unicode_isalnum TextBlob_sentiment
                   tweets_df w) in
  self w' = self w /\
  handled w'
  = handled w ++
    map (fun e => {| name := logger (self w);
                     levelname := ERROR;
                     message := py "Error analyzing sentiment: " ++ e |})
      (failures unicode_isalnum TextBlob_sentiment tweets_df) ++
    [{| name := logger (self w);
        levelname := INFO;
        message := py "Analyzed sentiment for "
                   ++ str_of_nat (List.length tweets_df) ++ py " tweets" |}].
Proof.
  rewrite batch_analyze_run. cbn [snd self handled]. split; [reflexivity|].
  rewrite map_map. reflexivity.
Qed.

(** X10. The rows [batch_analyze] returns for a frame do not depend on the
    state it is called in, and the rows for two frames one after the other
    are the rows for the first followed by the rows for the second: a frame
    can be cut into parts that are analyzed apart. *)
Theorem batch_analyze_concat
  (unicode_isalnum : char -> bool)
  (TextBlob_sentiment : str -> outcome (float * float))
  (df1 df2 : list TextRecord) (w w1 w2 : World) :
  exists rows1 rows2,
    fst (batch_analyze unicode_isalnum TextBlob_sentiment df1 w1)
      = Returns rows1 /\
    fst (batch_analyze unicode_isalnum TextBlob_sentiment df2 w2)
      = Returns rows2 /\
    fst (batch_analyze unicode_isalnum TextBlob_sentiment (df1 ++ df2) w)
      = Returns (rows1 ++ rows2).
Proof.
  rewrite !batch_analyze_run. cbn [fst]. eexists _, _.
  split; [reflexivity|]. split; [reflexivity|].
  rewrite map_app. reflexivity.
Qed.

(** * Properties of the Spark processor *)

(** ** Filters and groups *)

Lemma str_eqb_eq (a b : str) : str_eqb a b = true <-> a = b.
Proof.
  revert b. induction a as [|x a IH]; intros [|y b]; cbn [str_eqb];
    try (split; [discriminate | discriminate]); [split; reflexivity|].
  rewrite andb_true_iff, N.eqb_eq, IH. split.
  - intros [-> ->]. reflexivity.
  - intros [= -> ->]. auto.
Qed.

Lemma filter_map_comm {A B} (f : A -> B) (p : B -> bool) (l : list A) :
  filter p (map f l) = map f (filter (fun x => p (f x)) l).
Proof.
  induction l as [|x l IH]; [reflexivity|].
  cbn [map filter]. destruct (p (f x)); cbn [map]; rewrite IH; reflexivity.
Qed.

Lemma list_sum_cons (a : nat) (l : list nat) :
  list_sum (a :: l) = a + list_sum l.
Proof. reflexivity. Qed.

Section Groups.

Context {K A : Type}.
Variable dec : forall x y : K, {x = y} + {x <> y}.
Variable key : A -> K.

Local Abbreviation has := (Spark.has_key dec key).

Lemma group_by_keys (df : list A) :
  map fst (Spark.group_by dec key df) = nodup dec (map key df).
Proof.
  unfold Spark.group_by. rewrite map_map. cbn [fst]. apply map_id.
Qed.

Lemma group_by_In (df : list A) (k : K) (g : list A) :
  In (k, g) (Spark.group_by dec key df) <->
  In k (map key df) /\ g = filter (has k) df.
Proof.
  unfold Spark.group_by. rewrite in_map_iff. split.
  - intros (k' & [= -> <-] & Hk). apply nodup_In in Hk. auto.
  - intros [Hk ->]. exists k. split; [reflexivity|].
    apply nodup_In, Hk.
Qed.

Lemma group_nonempty (df : list A) (k : K) :
  In k (map key df) -> 1 <= List.length (filter (has k) df).
Proof.
  rewrite in_map_iff. intros (row & <- & Hrow).
  induction df as [|r df IH]; [contradiction|].
  cbn [filter]. destruct Hrow as [->|Hrow].
  - unfold Spark.has_key at 1.
    destruct (dec (key row) (key row)); [simpl; lia | congruence].
  - destruct (has (key row) r); [simpl; lia | apply IH, Hrow].
Qed.

Lemma indicator_sum (x : K) (ks : list K) :
  NoDup ks ->
  list_sum (map (fun k => if dec x k then 1 else 0) ks)
  = if in_dec dec x ks then 1 else 0.
Proof.
  induction 1 as [|k ks Hk _ IH]; [reflexivity|].
  cbn [map]. rewrite list_sum_cons, IH.
  destruct (dec x k) as [->|Hne].
  - destruct (in_dec dec k ks); [contradiction|].
    destruct (in_dec dec k (k :: ks)) as [|Hn]; [reflexivity|].
    exfalso. apply Hn. left. reflexivity.
  - destruct (in_dec dec x ks) as [Hi|Hi];
      destruct (in_dec dec x (k :: ks)) as [Hj|Hj]; try reflexivity.
    + exfalso. apply Hj. right. exact Hi.
    + exfalso. destruct Hj as [->|Hj]; [congruence | contradiction].
Qed.

(** The groups of keys [ks] count the rows whose key is in [ks]. *)
Lemma group_counts (ks : list K) (df : list A) :
  NoDup ks ->
  list_sum (map (fun k => List.length (filter (has k) df)) ks)
  = List.length
      (filter (fun row => if in_dec dec (key row) ks then true else false)
         df).
Proof.
  intros Hnd. induction df as [|r df IH].
  - cbn [filter List.length]. clear Hnd.
    induction ks as [|k ks IHk]; [reflexivity|].
    cbn [map]. rewrite list_sum_cons, IHk. reflexivity.
  - assert (E : forall l,
               list_sum (map (fun k => List.length
                                         (filter (has k) (r :: df))) l)
               = list_sum (map (fun k => if dec (key r) k then 1 else 0) l)
                 + list_sum (map (fun k => List.length (filter (has k) df))
                               l)).
    { induction l as [|k l IHl]; [reflexivity|].
      cbn [map]. rewrite !list_sum_cons, IHl. cbn [filter].
      unfold Spark.has_key at 1.
      destruct (dec (key r) k); simpl; lia. }
    rewrite E, IH, (indicator_sum (key r) ks Hnd). cbn [filter].
    destruct (in_dec dec (key r) ks); reflexivity.
Qed.

Lemma group_by_counts_all (df : list A) :
  list_sum (map (fun g => List.length (snd g)) (Spark.group_by dec key df))
  = List.length df.
Proof.
  unfold Spark.group_by. rewrite map_map. cbn [snd].
  rewrite (group_counts (nodup dec (map key df)) df) by apply NoDup_nodup.
  f_equal. rewrite <- (filter_ext_in (fun _ => true)).
  - induction df as [|r l IH]; [reflexivity|]. cbn [filter]. f_equal. exact IH.
  - intros row Hrow.
    destruct (in_dec dec (key row) (nodup dec (map key df))) as [|Hn];
      [reflexivity|].
    exfalso. apply Hn, nodup_In, in_map, Hrow.
Qed.

End Groups.

(** ** [process_tweets] and [add_sentiment_analysis] *)

Lemma holds_eq_en (a : option str) :
  Spark.holds (Spark.sql_eq a (py "en")) = true <-> a = Some (py "en").
Proof.
  destruct a as [x|]; cbn [Spark.sql_eq option_map Spark.holds];
    [|split; discriminate].
  destruct (str_eqb x (py "en")) eqn:E.
  - apply str_eqb_eq in E. subst. split; reflexivity.
  - split; [discriminate|]. intros [= ->].
    rewrite (proj2 (str_eqb_eq _ _) eq_refl) in E. discriminate E.
Qed.

Lemma holds_not_retweet (a : option str) :
  Spark.holds (Spark.sql_not (Spark.sql_startswith a (py "RT @"))) = true <->
  exists t, a = Some t /\ starts_with (py "RT @") t = false.
Proof.
  destruct a as [x|]; cbn [Spark.sql_startswith Spark.sql_not option_map
                           Spark.holds].
  - destruct (starts_with (py "RT @") x) eqn:E; cbn [negb]; split.
    + discriminate.
    + intros (t & [= <-] & Ht). congruence.
    + intros _. exists x. auto.
    + reflexivity.
  - split; [discriminate|]. intros (t & H & _). discriminate H.
Qed.

Lemma process_tweets_rows
  (cast_string : Z -> str) (cast_int : Z -> option Z)
  (to_date hour : str -> option Z) (current_timestamp : Z)
  (raw_df : list Spark.RawTweet) :
  exists processed_df,
    Spark.process_tweets cast_string cast_int to_date hour
      current_timestamp (Some raw_df)
    = (Some processed_df,
       [(Logging.INFO,
         py "Processed " ++ str_of_nat (List.length processed_df)
         ++ py " tweets")]) /\
    List.length processed_df <= List.length raw_df /\
    forall row,
      In row processed_df <->
      exists raw,
        In raw raw_df /\
        row = Spark.select_columns cast_string cast_int to_date hour
                current_timestamp raw /\
        Spark.raw_lang raw = Some (py "en") /\
        exists t, Spark.raw_text raw = Some t /\
                  starts_with (py "RT @") t = false.
Proof.
  eexists. split; [reflexivity|]. split.
  - unfold Spark.df_filter.
    etransitivity; [apply filter_length_le|].
    etransitivity; [apply filter_length_le|].
    rewrite length_map. apply Nat.le_refl.
  - intros row. unfold Spark.df_filter.
    rewrite filter_In, filter_In, in_map_iff.
    rewrite holds_eq_en, holds_not_retweet. split.
    + intros [[(raw & <- & Hraw) Hlang] Htext]. exists raw. auto.
    + intros (raw & Hraw & -> & Hlang & Htext).
      split; [split|]; [exists raw; auto | exact Hlang | exact Htext].
Qed.


Lemma with_sentiment_rows
  (unicode_isalnum : char -> bool)
  (TextBlob_sentiment : str -> outcome (float * float))
  (A : Type) (text_col : A -> option str) (df : list A) :
  Spark.with_sentiment unicode_isalnum TextBlob_sentiment text_col df
  = Returns
      (map (fun row =>
              (row,
               {| Spark.polarity := f0_0;
                  Spark.subjectivity := f0_0;
                  Spark.sentiment_label := py "neutral";
                  Spark.confidence := f0_0 |}))
         df).
Proof.
  induction df as [|row df IH]; [reflexivity|].
  cbn [Spark.with_sentiment map]. rewrite IH.
  destruct (text_col row) as [t|]; cbn [Spark.sentiment_udf].
  - rewrite analyze_sentiment_udf_default. reflexivity.
  - reflexivity.
Qed.

(** X12. [add_sentiment_analysis] keeps every row of the frame with its
    columns and adds the same four values to each, whatever its text and
    whatever the scorer answers: [0.0], [0.0], ['neutral'], [0.0].  In the
    UDF, [abs] is the column function of [pyspark.sql.functions], which
    raises on a [float], so that every call ends in the bare [except]. *)
Theorem add_sentiment_analysis_rows
  (unicode_isalnum : char -> bool)
  (TextBlob_sentiment : str -> outcome (float * float))
  (A : Type) (text_col : A -> option str) (df : list A) :
  Spark.add_sentiment_analysis unicode_isalnum TextBlob_sentiment text_col
    (Some df)
  = Returns
      (map (fun row =>
              (row,
               Spark.sentiment_columns (f0_0, f0_0, py "neutral", f0_0)))
         df).
Proof.
  apply with_sentiment_rows.
Qed.

(** X13. After [process_tweets], [add_sentiment_analysis] returns one row
    for each processed row, in the same order: each is in English, has a
    text that is not NULL and does not start with ['RT @'], and carries
    the default [0.0], [0.0], ['neutral'], [0.0], whatever
    [analyze_sentiment] gives for that text. *)
Theorem processed_tweets_get_the_default
  (cast_string : Z -> str) (cast_int : Z -> option Z)
  (to_date hour : str -> option Z) (current_timestamp : Z)
  (unicode_isalnum : char -> bool)
  (TextBlob_sentiment : str -> outcome (float * float))
  (raw_df : list Spark.RawTweet) :
  exists processed_df sentiment_df,
    fst (Spark.process_tweets cast_string cast_int to_date hour
           current_timestamp (Some raw_df)) = Some processed_df /\
    Spark.add_sentiment_analysis unicode_isalnum TextBlob_sentiment
      Spark.text (Some processed_df) = Returns sentiment_df /\
    map fst sentiment_df = processed_df /\
    forall row s,
      In (row, s) sentiment_df ->
      Spark.lang row = Some (py "en") /\
      (exists t,
          Spark.text row = Some t /\ starts_with (py "RT @") t = false) /\
      Spark.polarity s = f0_0 /\
      Spark.subjectivity s = f0_0 /\
      Spark.sentiment_label s = py "neutral" /\
      Spark.confidence s = f0_0.
Proof.
  destruct (process_tweets_rows cast_string cast_int to_date hour
              current_timestamp raw_df)
    as (processed_df & Hp & _ & Hin).
  exists processed_df. eexists. rewrite Hp.
  split; [reflexivity|].
  split; [apply with_sentiment_rows|].
  split; [rewrite map_map; apply map_id|].
  intros row s Hrs. apply in_map_iff in Hrs as (row' & [= -> <-] & Hrow).
  apply Hin in Hrow as (raw & _ & -> & Hlang & t & Ht & Hrt).
  split; [exact Hlang|]. split; [|repeat split].
  exists t. cbn [Spark.select_columns Spark.text]. auto.
Qed.

(** ** [create_aggregated_views] *)

Lemma sql_sum_at_least (bound : Z) (values : list (option Z)) :
  values <> [] ->
  (forall v, In v values -> exists x, v = Some x /\ (bound <= x)%Z) ->
  exists total,
    Spark.sql_sum values = Some total /\
    (bound * Z.of_nat (List.length values) <= total)%Z.
Proof.
  induction values as [|v values IH]; [congruence|].
  intros _ Hall.
  destruct (Hall v (or_introl eq_refl)) as (x & -> & Hx).
  cbn [Spark.sql_sum]. destruct values as [|v' values'].
  - exists x. split; [reflexivity|]. simpl. lia.
  - destruct IH as (total & -> & Ht); [discriminate | |].
    + intros v Hv. apply Hall. right. exact Hv.
    + exists (x + total)%Z. split; [reflexivity|].
      change (List.length (Some x :: v' :: values'))
        with (S (List.length (v' :: values'))).
      rewrite Nat2Z.inj_succ. lia.
Qed.

(** X14. The views count every row once: the [tweet_count]s of the hourly
    view and those of the daily view add up to the number of rows of the
    frame, those of the trending view to the number of rows with more
    than 10 likes; each view has one row for each key, and no row with a
    [tweet_count] of zero. *)
Theorem aggregated_views_count_rows
  (avg : list float -> option float)
  (df : list (Spark.Tweet * Spark.Sentiment)) :
  exists views,
    Spark.create_aggregated_views avg (Some df) = (Some views, []) /\
    list_sum (map Spark.hourly_tweet_count (Spark.hourly_sentiment views))
      = List.length df /\
    list_sum (map Spark.daily_tweet_count (Spark.daily_sentiment views))
      = List.length df /\
    list_sum (map Spark.trending_tweet_count (Spark.trending_topics views))
      = List.length
          (Spark.df_filter
             (fun row => Spark.sql_gt (Spark.like_count (fst row)) 10) df) /\
    NoDup (map (fun h => (Spark.hourly_tweet_date h,
                          (Spark.hourly_tweet_hour h,
                           Spark.hourly_sentiment_label h)))
             (Spark.hourly_sentiment views)) /\
    NoDup (map (fun d => (Spark.daily_tweet_date d,
                          Spark.daily_sentiment_label d))
             (Spark.daily_sentiment views)) /\
    NoDup (map Spark.trending_tweet_date (Spark.trending_topics views)) /\
    Forall (fun h => 1 <= Spark.hourly_tweet_count h)
      (Spark.hourly_sentiment views) /\
    Forall (fun d => 1 <= Spark.daily_tweet_count d)
      (Spark.daily_sentiment views) /\
    Forall (fun t => 1 <= Spark.trending_tweet_count t)
      (Spark.trending_topics views).
Proof.
  eexists. split; [reflexivity|].
  cbn [Spark.hourly_sentiment Spark.daily_sentiment Spark.trending_topics].
  repeat split.
  - rewrite map_map. cbn [Spark.hourly_tweet_count].
    apply group_by_counts_all.
  - rewrite map_map. cbn [Spark.daily_tweet_count].
    apply group_by_counts_all.
  - rewrite map_map. cbn [Spark.trending_tweet_count].
    apply group_by_counts_all.
  - rewrite map_map. cbn [Spark.hourly_tweet_date Spark.hourly_tweet_hour
                          Spark.hourly_sentiment_label].
    rewrite (map_ext _ fst) by (intros [[d [h l]] g]; reflexivity).
    rewrite group_by_keys. apply NoDup_nodup.
  - rewrite map_map. cbn [Spark.daily_tweet_date Spark.daily_sentiment_label].
    rewrite (map_ext _ fst) by (intros [[d l] g]; reflexivity).
    rewrite group_by_keys. apply NoDup_nodup.
  - rewrite map_map. cbn [Spark.trending_tweet_date].
    rewrite group_by_keys. apply NoDup_nodup.
  - apply Forall_forall. intros h Hh.
    apply in_map_iff in Hh as ([k g] & <- & Hg).
    apply group_by_In in Hg as [Hk ->]. cbn [Spark.hourly_tweet_count snd].
    apply group_nonempty, Hk.
  - apply Forall_forall. intros d Hd.
    apply in_map_iff in Hd as ([k g] & <- & Hg).
    apply group_by_In in Hg as [Hk ->]. cbn [Spark.daily_tweet_count snd].
    apply group_nonempty, Hk.
  - apply Forall_forall. intros t Ht.
    apply in_map_iff in Ht as ([k g] & <- & Hg).
    apply group_by_In in Hg as [Hk ->]. cbn [Spark.trending_tweet_count snd].
    apply group_nonempty, Hk.
Qed.

Lemma NoDup_filter_keys {K} (p : K -> bool) (ks : list K) :
  NoDup ks -> NoDup (filter p ks).
Proof.
  induction 1 as [|k ks Hk _ IH]; [constructor|].
  cbn [filter]. destruct (p k); [|exact IH].
  constructor; [|exact IH]. intros Hin. apply filter_In in Hin as [Hin _].
  contradiction.
Qed.

(** X15. The daily view agrees with the hourly view: the [tweet_count] of
    a row of the daily view is the sum of the [tweet_count]s of the rows
    of the hourly view with the same date and the same label. *)
Theorem daily_view_sums_hourly_view
  (avg : list float -> option float)
  (df : list (Spark.Tweet * Spark.Sentiment)) :
  exists views,
    fst (Spark.create_aggregated_views avg (Some df)) = Some views /\
    forall d,
      In d (Spark.daily_sentiment views) ->
      Spark.daily_tweet_count d
      = list_sum
          (map Spark.hourly_tweet_count
             (filter
                (fun h =>
                   if Spark.daily_dec
                        (Spark.hourly_tweet_date h,
                         Spark.hourly_sentiment_label h)
                        (Spark.daily_tweet_date d,
                         Spark.daily_sentiment_label d)
                   then true else false)
                (Spark.hourly_sentiment views))).
Proof.
  eexists. split; [reflexivity|].
  cbn [Spark.hourly_sentiment Spark.daily_sentiment].
  intros d Hd. apply in_map_iff in Hd as ([[dd dl] g] & <- & Hg).
  apply group_by_In in Hg as [Hk ->].
  cbn [Spark.daily_tweet_count Spark.daily_tweet_date
       Spark.daily_sentiment_label fst snd].
  rewrite filter_map_comm, map_map.
  cbn [Spark.hourly_tweet_count Spark.hourly_tweet_date
       Spark.hourly_sentiment_label].
  unfold Spark.group_by at 1. rewrite filter_map_comm, map_map.
  cbn [fst snd].
  set (ks := filter _ (nodup Spark.hourly_dec (map Spark.hourly_key df))).
  rewrite (group_counts Spark.hourly_dec Spark.hourly_key ks df)
    by (apply NoDup_filter_keys, NoDup_nodup).
  f_equal. apply filter_ext_in. intros row Hrow.
  unfold Spark.has_key.
  destruct (Spark.daily_dec (Spark.daily_key row) (dd, dl)) as [E|E];
    destruct (in_dec Spark.hourly_dec (Spark.hourly_key row) ks) as [Hin|Hin];
    try reflexivity; exfalso.
  - apply Hin. unfold ks. apply filter_In. split.
    + apply nodup_In, in_map, Hrow.
    + unfold Spark.daily_key in E. cbn [Spark.hourly_key fst snd].
      destruct (Spark.daily_dec _ _); [reflexivity | contradiction].
  - unfold ks in Hin. apply filter_In in Hin as [_ Hin].
    cbn [Spark.hourly_key fst snd] in Hin.
    unfold Spark.daily_key in E.
    destruct (Spark.daily_dec _ _) in Hin; [contradiction | discriminate].
Qed.

(** X16. A row of the trending view counts only tweets with more than 10
    likes: its [total_engagement] is not NULL and is at least 11 times its
    [tweet_count]. *)
Theorem trending_view_engagement
  (avg : list float -> option float)
  (df : list (Spark.Tweet * Spark.Sentiment)) :
  exists views,
    fst (Spark.create_aggregated_views avg (Some df)) = Some views /\
    forall t,
      In t (Spark.trending_topics views) ->
      exists total,
        Spark.trending_total_engagement t = Some total /\
        (11 * Z.of_nat (Spark.trending_tweet_count t) <= total)%Z.
Proof.
  eexists. split; [reflexivity|]. cbn [Spark.trending_topics].
  intros t Ht. apply in_map_iff in Ht as ([k g] & <- & Hg).
  apply group_by_In in Hg as [Hk ->].
  cbn [Spark.trending_total_engagement Spark.trending_tweet_count fst snd].
  rewrite <- (length_map (fun r => Spark.like_count (fst r))).
  apply sql_sum_at_least.
  - pose proof (group_nonempty Spark.date_dec Spark.date_key _ k Hk) as Hn.
    intros E. rewrite <- (length_map (fun r => Spark.like_count (fst r))) in Hn.
    rewrite E in Hn. simpl in Hn. lia.
  - intros v Hv. apply in_map_iff in Hv as (row & <- & Hrow).
    apply filter_In in Hrow as [Hrow _].
    unfold Spark.df_filter in Hrow. apply filter_In in Hrow as [_ Hgt].
    destruct (Spark.like_count (fst row)) as [x|]; [|discriminate Hgt].
    exists x. split; [reflexivity|].
    cbn [Spark.sql_gt option_map Spark.holds] in Hgt.
    destruct (10 <? x)%Z eqn:E; [|discriminate Hgt].
    apply Z.ltb_lt in E. lia.
Qed.

(** ** [process_data] *)

Section ProcessData.

Variable cast_string : Z -> str.
Variable cast_int : Z -> option Z.
Variable to_date : str -> option Z.
Variable hour : str -> option Z.
Variable current_timestamp : Z.
Variable avg : list float -> option float.
Variable unicode_isalnum : char -> bool.
Variable TextBlob_sentiment : str -> outcome (float * float).
Variable spark_read_json : str -> outcome (list Spark.RawTweet).
Variable hdfs_write : str -> str -> Pipeline.Frame -> outcome unit.
Variable config : list (str * list (str * str)).

Local Abbreviation process_data :=
  (Pipeline.process_data cast_string cast_int to_date hour current_timestamp
     avg unicode_isalnum TextBlob_sentiment spark_read_json hdfs_write
     config).

Lemma read_json_files_run (path : str) :
  Pipeline.read_json_files spark_read_json path
  = (Returns match spark_read_json path with
             | Returns df => Some df
             | Raises _ => None
             end,
     [Pipeline.ReadJson path; Pipeline.read_record spark_read_json path]).
Proof.
  unfold Pipeline.read_json_files, Pipeline.read_record.
  destruct (spark_read_json path) as [df|e]; reflexivity.
Qed.

Lemma save_to_hdfs_run (df : Pipeline.Frame) (path mode : str) :
  Pipeline.save_to_hdfs hdfs_write df path mode
  = (Returns tt,
     [Pipeline.WriteParquet path mode df;
      Pipeline.write_record hdfs_write path mode df]).
Proof.
  unfold Pipeline.save_to_hdfs, Pipeline.write_record.
  destruct (hdfs_write path mode df) as [[]|e]; reflexivity.
Qed.

Lemma process_data_read (filename : option str) :
  match filename with
  | Some (c :: name) =>
      Pipeline.read_json_files spark_read_json (py "data/raw/" ++ c :: name)
  | _ => Pipeline.read_json_files spark_read_json (py "data/raw/*.json")
  end
  = Pipeline.read_json_files spark_read_json (Pipeline.raw_path filename).
Proof.
  destruct filename as [[|c name]|]; reflexivity.
Qed.

Lemma create_aggregated_views_returns
  (df : list (Spark.Tweet * Spark.Sentiment)) :
  exists views, Spark.create_aggregated_views avg (Some df) = (Some views, []).
Proof.
  eexists. reflexivity.
Qed.

Ltac run_pipeline :=
  cbn [Pipeline.bind Pipeline.try_except Pipeline.emit Pipeline.lift
       Pipeline.ret Pipeline.logged Pipeline.for_each Pipeline.items
       fst snd map app].

(** X17. [process_data] never raises, whatever Spark and HDFS answer.  It
    logs that it starts and then reads once: the file of the given name in
    [data/raw], or every JSON file there when the name is [None] or
    empty. *)
Theorem process_data_reads_once (filename : option str) :
  exists events,
    process_data filename
    = (Returns tt,
       Pipeline.Log Logging.INFO (py "Starting data processing...")
       :: Pipeline.ReadJson (Pipeline.raw_path filename)
       :: events) /\
    forall path, ~ In (Pipeline.ReadJson path) events.
Proof.
  unfold Pipeline.process_data. rewrite process_data_read.
  rewrite read_json_files_run. unfold Pipeline.read_record.
  destruct (spark_read_json (Pipeline.raw_path filename)) as [[|r raw]|e].
  - run_pipeline. eexists. split; [reflexivity|].
    intros path [H|[H|[]]]; discriminate H.
  - run_pipeline.
    cbn [Spark.process_tweets Spark.add_sentiment_analysis fst snd map app].
    rewrite with_sentiment_rows.
    match goal with
    | |- context [Spark.create_aggregated_views avg (Some ?df)] =>
        destruct (create_aggregated_views_returns df) as [views ->]
    end.
    destruct (Pipeline.hdfs_base_path config) as [base|e]; run_pipeline;
      repeat (rewrite save_to_hdfs_run; run_pipeline);
      (eexists; split; [reflexivity|]);
      unfold Pipeline.write_record;
      repeat match goal with
             | |- context [hdfs_write ?path ?mode ?frame] =>
                 destruct (hdfs_write path mode frame)
             end;
      cbn [In]; intros path H; intuition discriminate.
  - run_pipeline. eexists. split; [reflexivity|].
    intros path [H|[H|[]]]; discriminate H.
Qed.

(** X18. With rows to process and a base path in the configuration,
    [process_data] writes four frames, in this order: the processed tweets,
    each with the default [0.0], [0.0], ['neutral'], [0.0] that
    [add_sentiment_analysis] gives it, appended to
    [<base>/processed_tweets], then the hourly, the daily and the trending
    view of that frame, each overwriting [<base>/<view name>].  Every write
    is tried and its result logged, whether the one before failed or not,
    and the run ends with the record that the processing completed
    successfully. *)
Theorem process_data_writes_four_frames
  (filename : option str) (r : Spark.RawTweet) (raw : list Spark.RawTweet)
  (base : str) :
  spark_read_json (Pipeline.raw_path filename) = Returns (r :: raw) ->
  Pipeline.hdfs_base_path config = Returns base ->
  exists processed_df sentiment_df views,
    fst (Spark.process_tweets cast_string cast_int to_date hour
           current_timestamp (Some (r :: raw))) = Some processed_df /\
    Spark.add_sentiment_analysis unicode_isalnum TextBlob_sentiment
      Spark.text (Some processed_df) = Returns sentiment_df /\
    sentiment_df
    = map (fun row =>
             (row, Spark.sentiment_columns (f0_0, f0_0, py "neutral", f0_0)))
        processed_df /\
    fst (Spark.create_aggregated_views avg (Some sentiment_df))
    = Some views /\
    let save path mode frame :=
      [Pipeline.WriteParquet path mode frame;
       Pipeline.write_record hdfs_write path mode frame] in
    process_data filename
    = (Returns tt,
       [Pipeline.Log Logging.INFO (py "Starting data processing...");
        Pipeline.ReadJson (Pipeline.raw_path filename);
        Pipeline.Log Logging.INFO
          (py "Read " ++ str_of_nat (List.length (r :: raw))
           ++ py " records from " ++ Pipeline.raw_path filename);
        Pipeline.Log Logging.INFO
          (py "Processed " ++ str_of_nat (List.length processed_df)
           ++ py " tweets")]
       ++ save (base ++ py "/processed_tweets") (py "append")
            (Pipeline.Tweets sentiment_df)
       ++ save (base ++ py "/hourly_sentiment") (py "overwrite")
            (Pipeline.Hourly (Spark.hourly_sentiment views))
       ++ save (base ++ py "/daily_sentiment") (py "overwrite")
            (Pipeline.Daily (Spark.daily_sentiment views))
       ++ save (base ++ py "/trending_topics") (py "overwrite")
            (Pipeline.Trending (Spark.trending_topics views))
       ++ [Pipeline.Log Logging.INFO
             (py "Data processing completed successfully")]).
Proof.
  intros Hread Hbase.
  destruct (process_tweets_rows cast_string cast_int to_date hour
              current_timestamp (r :: raw)) as (processed_df & Hp & _).
  pose proof (with_sentiment_rows unicode_isalnum TextBlob_sentiment _
                Spark.text processed_df) as Hs.
  set (sentiment_df := map _ processed_df) in Hs.
  destruct (create_aggregated_views_returns sentiment_df) as [views Hv].
  exists processed_df, sentiment_df, views.
  split; [rewrite Hp; reflexivity|].
  split; [exact Hs|].
  split; [reflexivity|].
  split; [rewrite Hv; reflexivity|].
  unfold Pipeline.process_data. rewrite process_data_read.
  rewrite read_json_files_run. unfold Pipeline.read_record.
  rewrite Hread. run_pipeline. rewrite Hp. run_pipeline.
  cbn [Spark.add_sentiment_analysis]. rewrite Hs. rewrite Hbase.
  run_pipeline. rewrite Hv.
  repeat (rewrite save_to_hdfs_run; run_pipeline).
  reflexivity.
Qed.

Lemma getitem_raises {V} (d : list (str * V)) (key e : str) :
  Pipeline.getitem d key = Raises e -> e = py "'" ++ key ++ py "'".
Proof.
  induction d as [|[k v] d IH]; cbn [Pipeline.getitem].
  - intros [= <-]. reflexivity.
  - destruct (str_eqb k key); [discriminate | exact IH].
Qed.

(** X19. With rows to process but no base path in the configuration,
    [process_data] writes nothing: after the records of the read and of
    [process_tweets] it logs one error, which names the missing key,
    ['hadoop'] or ['hdfs_base_path'], and returns. *)
Theorem process_data_without_base_path
  (filename : option str) (r : Spark.RawTweet) (raw : list Spark.RawTweet)
  (e : str) :
  spark_read_json (Pipeline.raw_path filename) = Returns (r :: raw) ->
  Pipeline.hdfs_base_path config = Raises e ->
  (e = py "'hadoop'" \/ e = py "'hdfs_base_path'") /\
  exists processed_df,
    fst (Spark.process_tweets cast_string cast_int to_date hour
           current_timestamp (Some (r :: raw))) = Some processed_df /\
    process_data filename
    = (Returns tt,
       [Pipeline.Log Logging.INFO (py "Starting data processing...");
        Pipeline.ReadJson (Pipeline.raw_path filename);
        Pipeline.Log Logging.INFO
          (py "Read " ++ str_of_nat (List.length (r :: raw))
           ++ py " records from " ++ Pipeline.raw_path filename);
        Pipeline.Log Logging.INFO
          (py "Processed " ++ str_of_nat (List.length processed_df)
           ++ py " tweets");
        Pipeline.Log Logging.ERROR (py "Error in data processing: " ++ e)]).
Proof.
  intros Hread Hbase. split.
  - unfold Pipeline.hdfs_base_path in Hbase.
    destruct (Pipeline.getitem config (py "hadoop")) as [hadoop|e'] eqn:E.
    + right. apply getitem_raises in Hbase. exact Hbase.
    + left. injection Hbase as <-. apply getitem_raises in E. exact E.
  - destruct (process_tweets_rows cast_string cast_int to_date hour
                current_timestamp (r :: raw)) as (processed_df & Hp & _).
    exists processed_df. split; [rewrite Hp; reflexivity|].
    unfold Pipeline.process_data. rewrite process_data_read.
    rewrite read_json_files_run. unfold Pipeline.read_record.
    rewrite Hread. run_pipeline. rewrite Hp. run_pipeline.
    cbn [Spark.add_sentiment_analysis]. rewrite with_sentiment_rows.
    rewrite Hbase. reflexivity.
Qed.

(** X20. When the read fails or gives no row, [process_data] does nothing
    more: it logs the record of the read, which is an error or says that 0
    records were read, then the warning that there is no data to process,
    and returns; nothing is written. *)
Theorem process_data_nothing_to_process (filename : option str) :
  (forall df,
      spark_read_json (Pipeline.raw_path filename) = Returns df ->
      df = []) ->
  process_data filename
  = (Returns tt,
     [Pipeline.Log Logging.INFO (py "Starting data processing...");
      Pipeline.ReadJson (Pipeline.raw_path filename);
      match spark_read_json (Pipeline.raw_path filename) with
      | Returns _ =>
          Pipeline.Log Logging.INFO
            (py "Read 0 records from " ++ Pipeline.raw_path filename)
      | Raises e =>
          Pipeline.Log Logging.ERROR (py "Error reading JSON files: " ++ e)
      end;
      Pipeline.Log Logging.WARNING (py "No data to process")]).
Proof.
  intros Hempty.
  unfold Pipeline.process_data. rewrite process_data_read.
  rewrite read_json_files_run. unfold Pipeline.read_record.
  destruct (spark_read_json (Pipeline.raw_path filename)) as [df|e].
  - rewrite (Hempty df eq_refl). reflexivity.
  - reflexivity.
Qed.

End ProcessData.

(** A run on the small cluster: every write is refused and reported, and
    the run still ends with the record of success. *)
Lemma process_data_writes_four_frames_witness :
  Demo.spark_read_json (Pipeline.raw_path None) = Returns Demo.raw_df /\
  Pipeline.hdfs_base_path Demo.config = Returns (py "/twitter") /\
  exists events,
    Pipeline.process_data Demo.cast_string Demo.cast_int Demo.to_date
      Demo.hour Demo.current_timestamp Demo.avg ascii_only lexicon_scorer
      Demo.spark_read_json Demo.hdfs_write Demo.config None
    = (Returns tt, events) /\
    List.length events = 13 /\
    nth_error events 4
    = Some (Pipeline.WriteParquet (py "/twitter/processed_tweets")
              (py "append") (Pipeline.Tweets Demo.with_sentiment_df)) /\
    map (fun r => (Spark.id (fst r), Spark.sentiment_label (snd r)))
      Demo.with_sentiment_df
    = [(Some (py "1"), py "neutral"); (Some (py "4"), py "neutral");
       (Some (py "5"), py "neutral"); (Some (py "6"), py "neutral")] /\
    nth_error events 5
    = Some (Pipeline.Log Logging.ERROR
              (py "Error saving to HDFS: Connection refused")) /\
    nth_error events 12
    = Some (Pipeline.Log Logging.INFO
              (py "Data processing completed successfully")).
Proof.
  split; [reflexivity|]. split; [reflexivity|].
  destruct (process_data_writes_four_frames Demo.cast_string Demo.cast_int
              Demo.to_date Demo.hour Demo.current_timestamp Demo.avg
              ascii_only lexicon_scorer Demo.spark_read_json Demo.hdfs_write
              Demo.config None
              (Demo.tweet 1 "a good day http://t.co/x" "03 09" "en" 12)
              (tl Demo.raw_df) (py "/twitter") eq_refl eq_refl)
    as (processed_df & sentiment_df & views & Hp & Hs & _ & _ & H).
  injection Hp as <-. injection Hs as <-.
  eexists. split; [exact H|].
  repeat split; reflexivity.
Defined.

Lemma process_data_without_base_path_witness :
  Demo.spark_read_json (Pipeline.raw_path (Some [])) = Returns Demo.raw_df /\
  Pipeline.hdfs_base_path [] = Raises (py "'hadoop'") /\
  Pipeline.process_data Demo.cast_string Demo.cast_int Demo.to_date
    Demo.hour Demo.current_timestamp Demo.avg ascii_only lexicon_scorer
    Demo.spark_read_json Demo.hdfs_write [] (Some [])
  = (Returns tt,
     [Pipeline.Log Logging.INFO (py "Starting data processing...");
      Pipeline.ReadJson (py "data/raw/*.json");
      Pipeline.Log Logging.INFO (py "Read 6 records from data/raw/*.json");
      Pipeline.Log Logging.INFO (py "Processed 4 tweets");
      Pipeline.Log Logging.ERROR (py "Error in data processing: 'hadoop'")]).
Proof.
  split; [reflexivity|]. split; [reflexivity|].
  destruct (process_data_without_base_path Demo.cast_string Demo.cast_int
              Demo.to_date Demo.hour Demo.current_timestamp Demo.avg
              ascii_only lexicon_scorer Demo.spark_read_json Demo.hdfs_write
              [] (Some [])
              (Demo.tweet 1 "a good day http://t.co/x" "03 09" "en" 12)
              (tl Demo.raw_df) (py "'hadoop'") eq_refl eq_refl)
    as (_ & processed_df & Hp & H).
  injection Hp as <-. exact H.
Defined.

Lemma process_data_nothing_to_process_witness :
  Demo.spark_read_json (Pipeline.raw_path (Some (py "tweets_1.json")))
  = Raises (py "Path does not exist: data/raw/tweets_1.json") /\
  Pipeline.process_data Demo.cast_string Demo.cast_int Demo.to_date
    Demo.hour Demo.current_timestamp Demo.avg ascii_only lexicon_scorer
    Demo.spark_read_json Demo.hdfs_write Demo.config
    (Some (py "tweets_1.json"))
  = (Returns tt,
     [Pipeline.Log Logging.INFO (py "Starting data processing...");
      Pipeline.ReadJson (py "data/raw/tweets_1.json");
      Pipeline.Log Logging.ERROR
        (py ("Error reading JSON files: "
             ++ "Path does not exist: data/raw/tweets_1.json"));
      Pipeline.Log Logging.WARNING (py "No data to process")]).
Proof.
  split; [reflexivity|].
  apply (process_data_nothing_to_process Demo.cast_string Demo.cast_int
           Demo.to_date Demo.hour Demo.current_timestamp Demo.avg
           ascii_only lexicon_scorer Demo.spark_read_json Demo.hdfs_write
           Demo.config (Some (py "tweets_1.json"))).
  intros df H. discriminate H.
Defined.

(** ** The processor on the small frame *)


Lemma processed_tweets_get_the_default_witness :
  sentiment_label
    (sentiment_of ascii_only lexicon_scorer (py "a good day http://t.co/x"))
  = py "positive" /\
  map (fun r => (Spark.id (fst r), Spark.sentiment_label (snd r)))
    Demo.with_sentiment_df
  = [(Some (py "1"), py "neutral"); (Some (py "4"), py "neutral");
     (Some (py "5"), py "neutral"); (Some (py "6"), py "neutral")] /\
  forall row s,
    In (row, s) Demo.with_sentiment_df ->
    Spark.lang row = Some (py "en") /\
    Spark.polarity s = f0_0 /\
    Spark.sentiment_label s = py "neutral".
Proof.
  split; [reflexivity|]. split; [reflexivity|].
  destruct (processed_tweets_get_the_default Demo.cast_string
              Demo.cast_int Demo.to_date Demo.hour Demo.current_timestamp
              ascii_only lexicon_scorer Demo.raw_df)
    as (processed_df & sentiment_df & Hp & Hs & _ & H).
  injection Hp as <-. injection Hs as <-.
  intros row s Hin.
  destruct (H row s Hin) as (Hlang & _ & Hpol & _ & Hlabel & _).
  split; [exact Hlang|]. split; [exact Hpol | exact Hlabel].
Defined.

Lemma daily_view_sums_hourly_view_witness :
  exists views d,
    fst (Spark.create_aggregated_views Demo.avg (Some Demo.sentiment_df))
    = Some views /\
    map Spark.hourly_tweet_count (Spark.hourly_sentiment views)
    = [1; 1; 1; 1] /\
    nth_error (Spark.daily_sentiment views) 2 = Some d /\
    Spark.daily_tweet_date d = Some 3%Z /\
    Spark.daily_sentiment_label d = py "positive" /\
    Spark.daily_tweet_count d = 2 /\
    list_sum
      (map Spark.hourly_tweet_count
         (filter
            (fun h =>
               if Spark.daily_dec
                    (Spark.hourly_tweet_date h,
                     Spark.hourly_sentiment_label h)
                    (Some 3%Z, py "positive")
               then true else false)
            (Spark.hourly_sentiment views)))
    = 2.
Proof.
  destruct (daily_view_sums_hourly_view Demo.avg Demo.sentiment_df)
    as (views & Hv & H).
  exists views.
  destruct (nth_error (Spark.daily_sentiment views) 2) as [d|] eqn:Hd.
  - exists d. split; [exact Hv|].
    pose proof (H d (nth_error_In _ _ Hd)) as Hsum.
    injection Hv as <-.
    split; [reflexivity|]. split; [reflexivity|].
    vm_compute in Hd. injection Hd as <-.
    split; [reflexivity|]. split; [reflexivity|]. split; [reflexivity|].
    symmetry. exact Hsum.
  - injection Hv as <-. vm_compute in Hd. discriminate Hd.
Defined.

Lemma trending_view_engagement_witness :
  exists views t,
    fst (Spark.create_aggregated_views Demo.avg (Some Demo.sentiment_df))
    = Some views /\
    Spark.trending_topics views = [t] /\
    Spark.trending_tweet_count t = 3 /\
    exists total,
      Spark.trending_total_engagement t = Some total /\
      (33 <= total)%Z.
Proof.
  destruct (trending_view_engagement Demo.avg Demo.sentiment_df)
    as (views & Hv & H).
  exists views.
  destruct (Spark.trending_topics views) as [|t [|t' rest]] eqn:Ht;
    [injection Hv as <-; vm_compute in Ht; discriminate Ht | |
     injection Hv as <-; vm_compute in Ht; discriminate Ht].
  exists t. split; [exact Hv|]. split; [reflexivity|].
  destruct (H t (or_introl eq_refl)) as (total & Htotal & Hle).
  injection Hv as <-. vm_compute in Ht. injection Ht as <-.
  split; [reflexivity|]. exists total. split; [exact Htotal|].
  exact Hle.
Defined.
